(** * ManagedBuffer: host/device synchronisation of one logical array

    Shallow embedding of [src/src/render/managed_buffer.cpp] (polyscope).

    A [ManagedBuffer<T>] reconciles a host array, a lazily created device
    buffer and a cache of indexed device views.  The C++ object graph is
    modelled by an explicit [World]:

    - the buffer object itself ([this]), one record field per C++ member;
    - the device heap: every live [render::AttributeBuffer] of element type
      [T], keyed by its identity.  A [shared_ptr] is an identity, a
      [weak_ptr] is an identity that may have left the heap;
    - the index buffers ([ManagedBuffer<uint32_t>]) that cached views point
      to, reached through the interface [IndexBufferOps];
    - a trace of the observable calls made on external collaborators
      (compute callback, render engine, redraw request).

    Methods are state transformers in the monad [M]; [exception(...)] aborts
    the running method with an [Error].

    The handles that callers hold are not counted: a device object is alive
    as long as it is in the heap, and no method removes one. *)

From Stdlib Require Import ZArith Lia.
From stdpp Require Import base option list gmap strings.

Local Open Scope Z_scope.

(** ** Identities and machine integers *)

(** Identity of a device buffer object (the target of a [shared_ptr] or
    [weak_ptr] to [render::AttributeBuffer]). *)
Abbreviation loc := positive.

(** Address of an index buffer object (the target of
    [ManagedBuffer<uint32_t>*]). *)
Abbreviation addr := positive.

(** [static_cast<int64_t>] of a [size_t] value: two's complement
    reinterpretation of the low 64 bits. *)
Definition to_int64 (z : Z) : Z := (z + 2 ^ 63) mod 2 ^ 64 - 2 ^ 63.

(** Conversion of an [int64_t] to [size_t]. *)
Definition to_size_t (z : Z) : Z := z mod 2 ^ 64.

(** ** Errors *)

(** One constructor per [exception(...)] site of the translation unit, plus
    [UndefinedBehaviour] for the C++ operations that have no defined result
    (null or dangling dereference, unchecked out-of-range subscript) and
    [CallbackError] for whatever a callback chooses to raise. *)
Inductive Error : Type :=
  | RenderBufferNotAllocated
  | OutOfBoundsAccess (name : string) (ind : Z)
  | RecomputeNotComputed
  | IndexedViewNeedsCompute
  | NoDataSource (name : string)
  | NoBuffersForIndexCopy (name : string)
  | UndefinedBehaviour
  | CallbackError (msg : string).

Inductive Result (A : Type) : Type :=
  | Ok (a : A)
  | Err (e : Error).
Arguments Ok {A} a.
Arguments Err {A} e.

(** Modelled from the spec: the error taxonomy of section 7 (the messages of
    the source carry no class).  Internal-consistency errors are the core's
    own invariants being violated; usage errors are caller mistakes. *)
Inductive ErrorClass : Type := InternalConsistency | Usage.

Definition errorClass (e : Error) : option ErrorClass :=
  match e with
  | RenderBufferNotAllocated => Some InternalConsistency
  | IndexedViewNeedsCompute => Some InternalConsistency
  | NoDataSource _ => Some InternalConsistency
  | NoBuffersForIndexCopy _ => Some InternalConsistency
  | OutOfBoundsAccess _ _ => Some Usage
  | RecomputeNotComputed => Some Usage
  | UndefinedBehaviour => None
  | CallbackError _ => None
  end.

Definition isOutOfRange (e : Error) : bool :=
  match e with
  | OutOfBoundsAccess _ _ => true
  | _ => false
  end.

(** ** The monad of methods

    State passing over a state [St], with abort: [exception(...)] throws, and
    nothing in the translation unit catches. *)

Definition M (St A : Type) : Type := St → Result (A * St).

Definition ret {St A} (a : A) : M St A := λ w, Ok (a, w).

Definition bind {St A B} (m : M St A) (k : A → M St B) : M St B :=
  λ w, match m w with
       | Ok (a, w') => k a w'
       | Err e => Err e
       end.

(** Modelled from the spec: [exception(msg)], declared in
    [polyscope/messages.h]; section 7: "every error aborts the current
    operation by raising to the caller". *)
Definition throw {St A} (e : Error) : M St A := λ _, Err e.

Definition gets {St A} (f : St → A) : M St A := λ w, Ok (f w, w).

Definition modify {St} (f : St → St) : M St unit := λ w, Ok (tt, f w).

(** A step whose C++ counterpart has no defined result when [o] is [None]. *)
Definition defined {St A} (o : option A) : M St A :=
  match o with
  | Some a => ret a
  | None => throw UndefinedBehaviour
  end.

(** The state a method leaves behind, and the value it returns. *)
Definition exec {St A} (m : M St A) (w : St) : Result St :=
  match m w with
  | Ok (_, w') => Ok w'
  | Err e => Err e
  end.

Definition value {St A} (m : M St A) (w : St) : Result A :=
  match m w with
  | Ok (a, _) => Ok a
  | Err e => Err e
  end.

Notation "'let!' x ':=' c 'in' k" := (bind c (λ x, k))
  (at level 10, x name, c at level 100, k at level 200).
Notation "c ';;' k" := (bind c (λ _, k))
  (at level 100, k at level 200, right associativity).

(** ** The interface of the index buffers

    A cached view keeps a raw pointer to the [ManagedBuffer<uint32_t>] it was
    built from.  This buffer is used through three members only:
    [uniqueID], [ensureHostBufferPopulated()] and [data].  [S] is the state
    of all index buffer objects; a lookup that yields [None] is a dangling
    pointer.  The section further down instantiates the interface with the
    model itself at element type [uint32_t]. *)
Class IndexBufferOps (S : Type) : Type := {
  index_uniqueID : S → addr → option Z;
  index_ensureHostBufferPopulated : addr → S → Result S;
  index_data : S → addr → option (list N)
}.

(** ** Helpers that the translation unit calls but does not define *)

(** Modelled from the spec: [gather], which the translation unit calls and
    does not define.  Section 4.4: "computes expanded[k] = data[indices[k]] for all k".  The
    subscript of a [std::vector] is unchecked, so an index outside the data
    has no defined result: [None]. *)
Definition gather {A : Type} (input : list A) (perm : list N) : option (list A) :=
  mapM (λ i : N, input !! N.to_nat i) perm.

(** Modelled from the spec: [getAttributeBufferDataRange], section 6: "read
    back a contiguous range of a device buffer's contents into a host
    sequence". *)
Definition getAttributeBufferDataRange {A : Type} (buf : list A) (start count : Z) : list A :=
  take (Z.to_nat count) (drop (Z.to_nat start) buf).

(** Modelled from the spec: [getAttributeBufferData], section 6: "read a
    single element from a device buffer by index". *)
Definition getAttributeBufferData {A : Type} (buf : list A) (ind : Z) : option A :=
  if ind <? 0 then None else buf !! Z.to_nat ind.

(** ** Data model *)

Inductive CanonicalDataSource : Type := HostData | NeedsCompute | RenderBuffer.

Global Instance CanonicalDataSource_eq_dec : EqDecision CanonicalDataSource.
Proof. solve_decision. Defined.

(** The device-side copy program of a view: the feedback shader with its two
    attribute bindings ([a_val_in], [a_val_out]) and the index stream that
    [setIndex] copied into it. *)
Record ShaderProgram : Type := mkShaderProgram {
  a_val_in : loc;
  a_val_out : loc;
  prog_index : list N
}.

(** [ExistingViewEntry]: [{&indices, newBuffer, nullptr}]. *)
Record ExistingViewEntry : Type := mkExistingViewEntry {
  indices : addr;
  viewBuffer : loc;
  deviceUpdateProgram : option ShaderProgram
}.

Section ManagedBuffer.

Context {T : Type}.
Context {IndexStore : Type} `{!IndexBufferOps IndexStore}.

(** The members of [ManagedBuffer<T>].  [data] is a reference to a vector
    owned by the producer: the field stands for that vector, and a producer
    writing to its vector is a write to this field.  [computeFunc] is kept
    outside the record (see [computeFunc] below). *)
Record ManagedBuffer : Type := mkManagedBuffer {
  name : string;
  uniqueID : Z;
  data : list T;
  dataGetsComputed : bool;
  hostBufferIsPopulated : bool;
  renderAttributeBuffer : option loc;
  existingIndexedViews : list ExistingViewEntry
}.

(** What the buffer does to its collaborators, in order. *)
Inductive Event : Type :=
  | EvCompute
  | EvRedraw
  | EvAlloc (l : loc)
  | EvSetData (l : loc) (contents : list T)
  | EvRequestShader
  | EvFeedback (p : ShaderProgram).

Record World : Type := mkWorld {
  this : ManagedBuffer;
  heap : gmap loc (list T);
  nextLoc : loc;
  indexBuffers : IndexStore;
  trace : list Event
}.

(** *** Field updates *)

Definition set_data (d : list T) (b : ManagedBuffer) : ManagedBuffer :=
  mkManagedBuffer (name b) (uniqueID b) d (dataGetsComputed b)
    (hostBufferIsPopulated b) (renderAttributeBuffer b) (existingIndexedViews b).

Definition set_hostBufferIsPopulated (p : bool) (b : ManagedBuffer) : ManagedBuffer :=
  mkManagedBuffer (name b) (uniqueID b) (data b) (dataGetsComputed b)
    p (renderAttributeBuffer b) (existingIndexedViews b).

Definition set_renderAttributeBuffer (r : option loc) (b : ManagedBuffer) : ManagedBuffer :=
  mkManagedBuffer (name b) (uniqueID b) (data b) (dataGetsComputed b)
    (hostBufferIsPopulated b) r (existingIndexedViews b).

Definition set_existingIndexedViews (vs : list ExistingViewEntry) (b : ManagedBuffer)
  : ManagedBuffer :=
  mkManagedBuffer (name b) (uniqueID b) (data b) (dataGetsComputed b)
    (hostBufferIsPopulated b) (renderAttributeBuffer b) vs.

Definition with_this (f : ManagedBuffer → ManagedBuffer) (w : World) : World :=
  mkWorld (f (this w)) (heap w) (nextLoc w) (indexBuffers w) (trace w).

Definition with_heap (f : gmap loc (list T) → gmap loc (list T)) (w : World) : World :=
  mkWorld (this w) (f (heap w)) (nextLoc w) (indexBuffers w) (trace w).

Definition with_indexBuffers (s : IndexStore) (w : World) : World :=
  mkWorld (this w) (heap w) (nextLoc w) s (trace w).

Definition log (e : Event) (w : World) : World :=
  mkWorld (this w) (heap w) (nextLoc w) (indexBuffers w) (trace w ++ [e]).

(** A method of the buffer. *)
Local Abbreviation Method := (M World).

(** *** The external collaborators *)

(** Contents of the device buffer behind a strong handle.  A [shared_ptr]
    keeps its target alive, so in a well-formed world the lookup succeeds;
    the default is never read there. *)
Definition bufferData (w : World) (l : loc) : list T := default [] (heap w !! l).

(** [AttributeBuffer::getDataSize()], an [int64_t]. *)
Definition getDataSize (w : World) (l : loc) : Z := Z.of_nat (length (bufferData w l)).

(** [AttributeBuffer::setData(v)]: replaces the contents, keeps the object. *)
Definition setData (l : loc) (v : list T) : Method unit :=
  modify (λ w, log (EvSetData l v) (with_heap <[l := v]> w)).

(** [requestRedraw()]. *)
Definition requestRedraw : Method unit := modify (log EvRedraw).

(** Modelled from the spec: [generateAttributeBuffer<T>(render::engine)],
    section 6: "allocate a device buffer of a given element layout".  The
    object is new: its identity was never handed out before. *)
Definition generateAttributeBuffer : Method loc :=
  λ w, let l := nextLoc w in
       Ok (l, log (EvAlloc l)
                (mkWorld (this w) (<[l := []]> (heap w)) (Pos.succ l)
                   (indexBuffers w) (trace w))).

(** [weak_ptr::expired()] and [weak_ptr::lock()]. *)
Definition expired (w : World) (l : loc) : bool :=
  match heap w !! l with
  | Some _ => false
  | None => true
  end.

Definition lock (w : World) (l : loc) : option loc :=
  if expired w l then None else Some l.

(** Members of the index buffer behind a raw pointer. *)
Definition indices_ensureHostBufferPopulated (a : addr) : Method unit :=
  λ w, match index_ensureHostBufferPopulated a (indexBuffers w) with
       | Ok s => Ok (tt, with_indexBuffers s w)
       | Err e => Err e
       end.

Definition indices_data (a : addr) : Method (list N) :=
  let! s := gets indexBuffers in defined (index_data s a).

Definition indices_uniqueID (a : addr) : Method Z :=
  let! s := gets indexBuffers in defined (index_uniqueID s a).

(** Modelled from the spec: [ShaderProgram::computeFeedback()] of the
    gather program, section 4.4: "copies source[indices[k]] → view[k]
    entirely on the device". *)
Definition computeFeedback (p : ShaderProgram) : Method unit :=
  let! src := gets (λ w, bufferData w (a_val_in p)) in
  let! out := defined (gather src (prog_index p)) in
  modify (λ w, log (EvFeedback p) (with_heap <[a_val_out p := out]> w)).

(** [computeFunc], the [std::function<void()>] member: a closure of the
    producer, free to act on the whole world.  Each invocation is recorded
    in the trace by the caller. *)
Variable computeFunc : World → Result World.

Definition call_computeFunc : Method unit :=
  λ w, match computeFunc (log EvCompute w) with
       | Ok w' => Ok (tt, w')
       | Err e => Err e
       end.

(** ** The methods *)

(** [ManagedBuffer(name_, data_)] and [ManagedBuffer(name_, data_,
    computeFunc_)]; [uid] is the value of [internal::getNextUniqueID()]. *)
Definition ManagedBuffer_host (name_ : string) (uid : Z) (data_ : list T) : ManagedBuffer :=
  mkManagedBuffer name_ uid data_ false true None [].

Definition ManagedBuffer_computed (name_ : string) (uid : Z) (data_ : list T) : ManagedBuffer :=
  mkManagedBuffer name_ uid data_ true false None [].

Definition currentCanonicalDataSource : Method CanonicalDataSource :=
  let! b := gets this in
  if hostBufferIsPopulated b then ret HostData
  else match renderAttributeBuffer b with
       | Some _ => ret RenderBuffer
       | None =>
           if dataGetsComputed b then ret NeedsCompute
           else throw (NoDataSource (name b))
       end.

Definition ensureHostBufferPopulated : Method unit :=
  let! src := currentCanonicalDataSource in
  match src with
  | HostData => ret tt
  | NeedsCompute => call_computeFunc
  | RenderBuffer =>
      let! rab := gets (λ w, renderAttributeBuffer (this w)) in
      match rab with
      | None => throw RenderBufferNotAllocated
      | Some l =>
          let! d := gets (λ w, getAttributeBufferDataRange (bufferData w l) 0 (getDataSize w l)) in
          modify (with_this (set_data d))
      end
  end.

Definition getPopulatedHostBufferRef : Method (list T) :=
  ensureHostBufferPopulated;;
  gets (λ w, data (this w)).

Definition invalidateHostBuffer : Method unit :=
  modify (with_this (set_hostBufferIsPopulated false));;
  modify (with_this (set_data [])).

Definition removeDeletedIndexedViews : Method unit :=
  modify (λ w, with_this
                 (set_existingIndexedViews
                    (List.filter (λ entry, negb (expired w (viewBuffer entry)))
                       (existingIndexedViews (this w)))) w).

Definition ensureHaveBufferIndexCopyProgram (deviceUpdateProgram : option ShaderProgram)
    (indices : addr) (target : loc) : Method ShaderProgram :=
  match deviceUpdateProgram with
  | Some p => ret p
  | None =>
      let! b := gets this in
      match renderAttributeBuffer b with
      | None => throw (NoBuffersForIndexCopy (name b))
      | Some src =>
          modify (log EvRequestShader);;
          indices_ensureHostBufferPopulated indices;;
          let! idata := indices_data indices in
          ret (mkShaderProgram src target idata)
      end
  end.

(** The body of the loop of [updateIndexedViews], for one entry; the result
    is the entry as the body leaves it. *)
Definition updateIndexedView (view : ExistingViewEntry) : Method ExistingViewEntry :=
  let! viewBufferPtr := gets (λ w, lock w (viewBuffer view)) in
  match viewBufferPtr with
  | None => ret view
  | Some target =>
      let! src := currentCanonicalDataSource in
      match src with
      | HostData =>
          indices_ensureHostBufferPopulated (indices view);;
          let! idata := indices_data (indices view) in
          let! d := gets (λ w, data (this w)) in
          let! expandData := defined (gather d idata) in
          setData target expandData;;
          ret view
      | NeedsCompute => throw IndexedViewNeedsCompute
      | RenderBuffer =>
          let! p := ensureHaveBufferIndexCopyProgram (deviceUpdateProgram view)
                      (indices view) target in
          computeFeedback p;;
          ret (mkExistingViewEntry (indices view) (viewBuffer view) (Some p))
      end
  end.

Fixpoint forEachView (body : ExistingViewEntry → Method ExistingViewEntry)
    (views : list ExistingViewEntry) : Method (list ExistingViewEntry) :=
  match views with
  | [] => ret []
  | view :: rest =>
      let! view' := body view in
      let! rest' := forEachView body rest in
      ret (view' :: rest')
  end.

Definition updateIndexedViews : Method unit :=
  removeDeletedIndexedViews;;
  let! views := gets (λ w, existingIndexedViews (this w)) in
  let! views' := forEachView updateIndexedView views in
  modify (with_this (set_existingIndexedViews views')).

Definition markHostBufferUpdated : Method unit :=
  modify (with_this (set_hostBufferIsPopulated true));;
  let! b := gets this in
  match renderAttributeBuffer b with
  | Some l => setData l (data b);; requestRedraw
  | None => ret tt
  end;;
  updateIndexedViews.

(** [data[ind]] after the bounds check; [ind] is a [size_t]. *)
Definition checkedHostRead (ind : Z) : Method T :=
  let! b := gets this in
  if Z.of_nat (length (data b)) <=? ind
  then throw (OutOfBoundsAccess (name b) ind)
  else defined (data b !! Z.to_nat ind).

Definition getValue (ind : Z) : Method T :=
  let! src := currentCanonicalDataSource in
  match src with
  | HostData => checkedHostRead ind
  | NeedsCompute => call_computeFunc;; checkedHostRead ind
  | RenderBuffer =>
      let! b := gets this in
      let! l := defined (renderAttributeBuffer b) in
      let! w := gets id in
      if getDataSize w l <=? to_int64 ind
      then throw (OutOfBoundsAccess (name b) ind)
      else defined (getAttributeBufferData (bufferData w l) ind)
  end.

Definition size : Method Z :=
  let! src := currentCanonicalDataSource in
  match src with
  | HostData => gets (λ w, Z.of_nat (length (data (this w))))
  | NeedsCompute => ret 0
  | RenderBuffer =>
      let! l := (let! b := gets this in defined (renderAttributeBuffer b)) in
      gets (λ w, to_size_t (getDataSize w l))
  end.

Definition hasData : Method bool :=
  let! b := gets this in
  if hostBufferIsPopulated b || bool_decide (is_Some (renderAttributeBuffer b))
  then ret true
  else ret false.

Definition recomputeIfPopulated : Method unit :=
  let! b := gets this in
  (if negb (dataGetsComputed b) then throw RecomputeNotComputed else ret tt);;
  let! src := currentCanonicalDataSource in
  if bool_decide (src = NeedsCompute) then ret tt
  else
    invalidateHostBuffer;;
    call_computeFunc;;
    markHostBufferUpdated.

Definition getRenderAttributeBuffer : Method loc :=
  let! b := gets this in
  match renderAttributeBuffer b with
  | Some l => ret l
  | None =>
      ensureHostBufferPopulated;;
      let! l := generateAttributeBuffer in
      modify (with_this (set_renderAttributeBuffer (Some l)));;
      let! d := gets (λ w, data (this w)) in
      setData l d;;
      ret l
  end.

Definition markRenderAttributeBufferUpdated : Method unit :=
  invalidateHostBuffer;;
  updateIndexedViews;;
  requestRedraw.

(** The scan of [getIndexedRenderAttributeBuffer] over the cache: the handle
    of the first live entry whose index buffer has the [uniqueID] of
    the index buffer [idx], if any. *)
Fixpoint findExistingView (idx : addr) (views : list ExistingViewEntry)
  : Method (option loc) :=
  match views with
  | [] => ret None
  | view :: rest =>
      let! viewBufferPtr := gets (λ w, lock w (viewBuffer view)) in
      match viewBufferPtr with
      | Some l =>
          let! candID := indices_uniqueID (indices view) in
          let! ownID := indices_uniqueID idx in
          if candID =? ownID then ret (Some l)
          else findExistingView idx rest
      | None => findExistingView idx rest
      end
  end.

Definition getIndexedRenderAttributeBuffer (idx : addr) : Method loc :=
  removeDeletedIndexedViews;;
  let! views := gets (λ w, existingIndexedViews (this w)) in
  let! hit := findExistingView idx views in
  match hit with
  | Some l => ret l
  | None =>
      ensureHostBufferPopulated;;
      let! newBuffer := generateAttributeBuffer in
      indices_ensureHostBufferPopulated idx;;
      let! idata := indices_data idx in
      let! d := gets (λ w, data (this w)) in
      let! expandData := defined (gather d idata) in
      setData newBuffer expandData;;
      modify (λ w, with_this
                     (set_existingIndexedViews
                        (existingIndexedViews (this w)
                           ++ [mkExistingViewEntry idx newBuffer None])) w);;
      ret newBuffer
  end.

End ManagedBuffer.

Arguments ManagedBuffer : clear implicits.
Arguments World : clear implicits.
Arguments Event : clear implicits.

(** ** The index buffers as managed buffers

    The objects behind the [indices] pointers are themselves
    [ManagedBuffer<uint32_t>]: the interface is met by the methods above at
    element type [uint32_t].  Index buffers are not viewed through further
    index buffers here, so their own store of index buffers is empty. *)

Definition noIndexBuffers : IndexBufferOps unit := {|
  index_uniqueID _ _ := None;
  index_ensureHostBufferPopulated _ _ := Err UndefinedBehaviour;
  index_data _ _ := None
|}.

Abbreviation IndexWorld := (World N unit).

(** [icf a] is the [computeFunc] of the index buffer at address [a]. *)
Definition managedIndexBuffers (icf : addr → IndexWorld → Result IndexWorld)
  : IndexBufferOps (gmap addr IndexWorld) := {|
  index_uniqueID s a := (λ w, uniqueID (this w)) <$> s !! a;
  index_ensureHostBufferPopulated a s :=
    match s !! a with
    | None => Err UndefinedBehaviour
    | Some w =>
        match exec (ensureHostBufferPopulated (icf a)) w with
        | Ok w' => Ok (<[a := w']> s)
        | Err e => Err e
        end
    end;
  index_data s a := (λ w, data (this w)) <$> s !! a
|}.

(** ** Calls, contracts and observations *)

Section Calls.

Context {T : Type}.
Context {IndexStore : Type} `{!IndexBufferOps IndexStore}.

Local Abbreviation World' := (World T IndexStore).

(** The contract of section 3 on [computeFunc]: it "(re)populates hostData
    on demand" and "must itself call the update-notification operation when
    done".  [fill] is what the producer writes into its vector. *)
Definition populateAndNotify (fill : World' → list T) : World' → Result World' :=
  λ w, exec markHostBufferUpdated (with_this (set_data (fill w)) w).

Definition obeysContract (computeFunc : World' → Result World') : Prop :=
  ∃ fill, ∀ w, computeFunc w = populateAndNotify fill w.

(** The event of an invocation of [computeFunc], and the number of
    invocations recorded so far. *)
Definition isCompute (e : Event T) : bool :=
  match e with
  | EvCompute => true
  | _ => false
  end.

Definition computeCalls (w : World') : nat := length (List.filter isCompute (trace w)).

(** The programs run by the feedback passes of a stretch of trace. *)
Definition feedbackPrograms (evs : list (Event T)) : list ShaderProgram :=
  omap (λ e, match e with EvFeedback p => Some p | _ => None end) evs.

(** The identity of a cache entry: which index buffer, which view buffer. *)
Definition entryKey (e : ExistingViewEntry) : addr * loc := (indices e, viewBuffer e).

(** The cache entries whose weak reference is alive. *)
Definition liveEntries (w : World') : list ExistingViewEntry :=
  List.filter (λ entry, negb (expired w (viewBuffer entry))) (existingIndexedViews (this w)).

(** The member functions of the class, as calls. *)
Inductive Call : Type :=
  | EnsureHostBufferPopulated
  | GetPopulatedHostBufferRef
  | MarkHostBufferUpdated
  | GetValue (ind : Z)
  | Size
  | HasData
  | RecomputeIfPopulated
  | GetRenderAttributeBuffer
  | MarkRenderAttributeBufferUpdated
  | GetIndexedRenderAttributeBuffer (idx : addr)
  | UpdateIndexedViews
  | RemoveDeletedIndexedViews
  | InvalidateHostBuffer
  | CurrentCanonicalDataSource.

Variable computeFunc : World' → Result World'.

Definition runCall (c : Call) : World' → Result World' :=
  match c with
  | EnsureHostBufferPopulated => exec (ensureHostBufferPopulated computeFunc)
  | GetPopulatedHostBufferRef => exec (getPopulatedHostBufferRef computeFunc)
  | MarkHostBufferUpdated => exec markHostBufferUpdated
  | GetValue ind => exec (getValue computeFunc ind)
  | Size => exec size
  | HasData => exec hasData
  | RecomputeIfPopulated => exec (recomputeIfPopulated computeFunc)
  | GetRenderAttributeBuffer => exec (getRenderAttributeBuffer computeFunc)
  | MarkRenderAttributeBufferUpdated => exec markRenderAttributeBufferUpdated
  | GetIndexedRenderAttributeBuffer idx => exec (getIndexedRenderAttributeBuffer computeFunc idx)
  | UpdateIndexedViews => exec updateIndexedViews
  | RemoveDeletedIndexedViews => exec removeDeletedIndexedViews
  | InvalidateHostBuffer => exec invalidateHostBuffer
  | CurrentCanonicalDataSource => exec currentCanonicalDataSource
  end.

Fixpoint runCalls (cs : list Call) (w : World') : Result World' :=
  match cs with
  | [] => Ok w
  | c :: rest =>
      match runCall c w with
      | Ok w' => runCalls rest w'
      | Err e => Err e
      end
  end.

End Calls.

(** ** Concrete buffers

    Element type [int32_t]; index buffers are host-populated managed
    buffers without a compute function. *)

Module Scenario.

Definition noComputeFunc {St : Type} : St → Result St :=
  λ _, Err (CallbackError "no compute function").

#[local] Instance indexOps : IndexBufferOps (gmap addr IndexWorld) :=
  managedIndexBuffers (λ _, noComputeFunc).

Abbreviation W := (World Z (gmap addr IndexWorld)).

(** An index buffer over a host array. *)
Definition indexBuffer (uid : Z) (idx : list N) : IndexWorld :=
  mkWorld (ManagedBuffer_host "indices" uid idx) ∅ 1%positive tt [].

(** A world with the buffer [b], no device object yet, and the index buffers
    [ibs]. *)
Definition initial (b : ManagedBuffer Z) (ibs : gmap addr IndexWorld) : W :=
  mkWorld b ∅ 1%positive ibs [].

(** Scenario B: an empty array and a compute function that fills it with
    [5,6,7] and notifies. *)
Definition fill567 : W → Result W := populateAndNotify (λ _, [5; 6; 7]).

Definition scenarioB : W := initial (ManagedBuffer_computed "B" 1 []) ∅.

(** Index buffer [2,0,1] at address 1, over data [10,20,30]. *)
Definition perm201 : gmap addr IndexWorld := {[ 1%positive := indexBuffer 7 [2; 0; 1]%N ]}.

Definition scenarioView : W := initial (ManagedBuffer_host "V" 2 [10; 20; 30]) perm201.

(** Scenario A: host array [1,2,3], no compute function. *)
Definition scenarioA : W := initial (ManagedBuffer_host "A" 3 [1; 2; 3]) ∅.

(** The world reached by a sequence of calls (the start, should a call
    raise). *)
Definition reach (computeFunc : W → Result W) (cs : list Call) (w : W) : W :=
  match runCalls computeFunc cs w with
  | Ok w' => w'
  | Err _ => w
  end.

(** The data [10,20,30], its device buffer and its view through [2,0,1]. *)
Definition viewedOnDevice : W :=
  reach noComputeFunc
    [GetRenderAttributeBuffer; GetIndexedRenderAttributeBuffer 1%positive] scenarioView.

(** The same after the device buffer was declared authoritative. *)
Definition deviceOnly : W :=
  reach noComputeFunc [MarkRenderAttributeBufferUpdated] viewedOnDevice.

(** The same after the producer wrote [11,21,31] into its host array (and
    before it notifies the buffer). *)
Definition hostRewritten : W := with_this (set_data [11; 21; 31]) deviceOnly.

(** A compute function that fills the array with [10,20,30] and notifies,
    and a computed buffer viewed through [2,0,1] before any device buffer
    exists. *)
Definition fill102030 : W → Result W := populateAndNotify (λ _, [10; 20; 30]).

Definition computedView : W :=
  reach fill102030 [GetIndexedRenderAttributeBuffer 1%positive]
    (initial (ManagedBuffer_computed "C" 4 []) perm201).

(** The data [10,20,30] viewed through [2,0,1], without device buffer; then
    the producer writes [11,21,31] and notifies. *)
Definition viewedOnHost : W :=
  reach noComputeFunc [GetIndexedRenderAttributeBuffer 1%positive] scenarioView.

Definition viewRefreshed : W :=
  reach noComputeFunc [MarkHostBufferUpdated]
    (with_this (set_data [11; 21; 31]) viewedOnHost).

(** A computed buffer whose device buffer has been requested, and the same
    after further calls. *)
Definition computedOnDevice : W :=
  reach fill102030 [GetRenderAttributeBuffer]
    (initial (ManagedBuffer_computed "C" 4 []) perm201).

Definition laterCalls : list Call :=
  [GetIndexedRenderAttributeBuffer 1%positive; MarkRenderAttributeBufferUpdated;
   EnsureHostBufferPopulated; RecomputeIfPopulated; GetValue 0; Size].

Definition computedLater : W := reach fill102030 laterCalls computedOnDevice.

(** A compute function that fills the array and does not notify. *)
Definition fillSilently : W → Result W := λ w, Ok (with_this (set_data [5; 6; 7]) w).

End Scenario.

(** ** Frame conditions

    [preserves R m]: whenever [m] returns, the world it leaves is related by
    [R] to the world it started from.  The relations used are [sameOn f]
    (the observation [f] is unchanged) and [keeps P] (the property [P], once
    true, stays true). *)

Definition preserves {St A : Type} (R : relation St) (m : M St A) : Prop :=
  ∀ w a w', m w = Ok (a, w') → R w w'.

Definition sameOn {St B : Type} (f : St → B) : relation St := λ w w', f w' = f w.

Definition keeps {St : Type} (P : St → Prop) : relation St := λ w w', P w → P w'.

(** [callbackPreserves R cf]: the same for a callback, which returns a world
    only. *)
Definition callbackPreserves {St : Type} (R : relation St) (cf : St → Result St) : Prop :=
  ∀ w w', cf w = Ok w' → R w w'.

(** [raisesOnly P m]: every error that [m] raises satisfies [P]. *)
Definition raisesOnly {St A : Type} (P : Error → Prop) (m : M St A) : Prop :=
  ∀ w e, m w = Err e → P e.

(** ** Observations and relations on worlds *)

Section Observations.

Context {T : Type}.
Context {IndexStore : Type} `{!IndexBufferOps IndexStore}.

Local Abbreviation World' := (World T IndexStore).

(** Neither a usage error nor an out-of-range error. *)
Definition notUsage (e : Error) : Prop := errorClass e ≠ Some Usage.

(** [StepClosed R]: the relation [R] is closed under the steps that the
    refresh of a view takes: a write to a device buffer, the population of an
    index buffer, and the log of a call other than an invocation of
    [computeFunc]. *)
Class StepClosed (R : relation World') : Prop := {
  #[global] step_preorder :: PreOrder R;
  step_heap : ∀ w l d, R w (with_heap <[l := d]> w);
  step_indices : ∀ w a s,
    index_ensureHostBufferPopulated a (indexBuffers w) = Ok s →
    R w (with_indexBuffers s w);
  step_log : ∀ w e, isCompute e = false → R w (log e w)
}.

(** [stable f]: the observation [f] reads neither the device heap, nor the
    index buffers, nor the trace. *)
Definition stable {B} (f : World' → B) : Prop :=
  ∀ w w', this w' = this w → nextLoc w' = nextLoc w → f w' = f w.

(** The trace only grows. *)
Definition traceGrows : relation World' := λ w w', ∃ evs, trace w' = trace w ++ evs.

(** Live device objects stay alive. *)
Definition heapGrows : relation World' :=
  λ w w', ∀ l, expired w l = false → expired w' l = false.

(** The call [getValue(size())]. *)
Definition getValueAtSize (computeFunc : World' → Result World') : M World' T :=
  let! n := size in getValue computeFunc n.

(** What the refresh from the device does to one cache entry: same index
    buffer, same view buffer, and a program, which is the entry's own if it
    had one and else a new one from the device buffer [rab], which exists,
    to the view. *)
Definition refreshedFrom (rab : option loc) (v v' : ExistingViewEntry) : Prop :=
  entryKey v' = entryKey v
  ∧ is_Some rab
  ∧ ∃ p, deviceUpdateProgram v' = Some p
         ∧ (deviceUpdateProgram v = Some p
            ∨ deviceUpdateProgram v = None
              ∧ rab = Some (a_val_in p) ∧ a_val_out p = viewBuffer v).


(** The unique ids of the index buffers are the same. *)
Definition sameIDs : relation World' :=
  λ w w', ∀ a, index_uniqueID (indexBuffers w') a = index_uniqueID (indexBuffers w) a.



End Observations.

Create HintDb frame.

(** * Properties *)

(** ** The monad *)

Section MonadFacts.

Context {St : Type}.

Lemma bind_Ok {A B} (m : M St A) (k : A → M St B) w r :
  bind m k w = Ok r ↔ ∃ a w1, m w = Ok (a, w1) ∧ k a w1 = Ok r.
Proof.
  unfold bind. split.
  - destruct (m w) as [[a w1]|e]; [eauto | discriminate].
  - intros (a & w1 & -> & Hk). exact Hk.
Qed.

Lemma bind_Err {A B} (m : M St A) (k : A → M St B) w e :
  bind m k w = Err e ↔ m w = Err e ∨ ∃ a w1, m w = Ok (a, w1) ∧ k a w1 = Err e.
Proof.
  unfold bind. split.
  - destruct (m w) as [[a w1]|e']; [eauto | intros [= ->]; by left].
  - intros [-> | (a & w1 & -> & Hk)]; done.
Qed.

Lemma exec_Ok {A} (m : M St A) w w' :
  exec m w = Ok w' ↔ ∃ a, m w = Ok (a, w').
Proof.
  unfold exec. split.
  - destruct (m w) as [[a w1]|e]; [intros [= ->]; eauto | discriminate].
  - intros [a ->]. done.
Qed.

Lemma defined_Ok {A} (o : option A) (w : St) r :
  defined o w = Ok r ↔ ∃ a, o = Some a ∧ r = (a, w).
Proof.
  destruct o as [a|]; simpl; unfold ret, throw; split.
  - intros [= <-]. eauto.
  - intros (a' & [= <-] & ->). done.
  - discriminate.
  - intros (a' & [=] & _).
  Qed.

Global Instance sameOn_preorder {B} (f : St → B) : PreOrder (sameOn f).
Proof.
  split; unfold sameOn.
  - intros w. reflexivity.
  - intros w1 w2 w3 H12 H23. congruence.
Qed.

Global Instance keeps_preorder (P : St → Prop) : PreOrder (keeps P).
Proof.
  split; unfold keeps.
  - intros w. tauto.
  - intros w1 w2 w3 H12 H23. tauto.
Qed.

Section Preserves.

Context (R : relation St) `{!PreOrder R}.

Lemma preserves_ret {A} (a : A) : preserves R (ret a).
Proof. intros w a' w' [= _ <-]. reflexivity. Qed.

Lemma preserves_gets {A} (f : St → A) : preserves R (gets f).
Proof. intros w a' w' [= _ <-]. reflexivity. Qed.

Lemma preserves_throw {A} e : preserves R (@throw St A e).
Proof. intros w a' w' [=]. Qed.

Lemma preserves_defined {A} (o : option A) : preserves R (defined o).
Proof. destruct o; [apply preserves_ret | apply preserves_throw]. Qed.

Lemma preserves_modify (f : St → St) : (∀ w, R w (f w)) → preserves R (modify f).
Proof. intros Hf w a' w' [= _ <-]. apply Hf. Qed.

Lemma preserves_bind {A B} (m : M St A) (k : A → M St B) :
  preserves R m → (∀ a, preserves R (k a)) → preserves R (bind m k).
Proof.
  intros Hm Hk w b w' (a & w1 & H1 & H2)%bind_Ok.
  transitivity w1; [eapply Hm | eapply Hk]; eassumption.
Qed.

End Preserves.

Section RaisesOnly.

Context (P : Error → Prop).

Lemma raisesOnly_ret {A} (a : A) : raisesOnly P (@ret St A a).
Proof. intros w e [=]. Qed.

Lemma raisesOnly_gets {A} (f : St → A) : raisesOnly P (gets f).
Proof. intros w e [=]. Qed.

Lemma raisesOnly_modify (f : St → St) : raisesOnly P (modify f).
Proof. intros w e [=]. Qed.

Lemma raisesOnly_throw {A} e : P e → raisesOnly P (@throw St A e).
Proof. intros He w e' [= <-]. exact He. Qed.

Lemma raisesOnly_defined {A} (o : option A) :
  P UndefinedBehaviour → raisesOnly P (@defined St A o).
Proof. destruct o; [intros _; apply raisesOnly_ret | apply raisesOnly_throw]. Qed.

Lemma raisesOnly_bind {A B} (m : M St A) (k : A → M St B) :
  raisesOnly P m → (∀ a, raisesOnly P (k a)) → raisesOnly P (bind m k).
Proof.
  intros Hm Hk w e [H | (a & w1 & _ & H)]%bind_Err; [eapply Hm | eapply Hk]; eassumption.
Qed.

End RaisesOnly.

End MonadFacts.

(** Decomposes a method that is known to return into its steps. *)
Ltac run_prim H :=
  lazymatch type of H with
  | ret _ _ = Ok _ => injection H as ? ?; subst
  | gets _ _ = Ok _ => injection H as ? ?; subst
  | modify _ _ = Ok _ => injection H as ? ?; subst
  | throw _ _ = Ok _ => discriminate H
  | defined _ _ = Ok _ =>
      let a := fresh "a" in
      let Ha := fresh H in
      apply defined_Ok in H as (a & Ha & H); try (injection H as ? ?; subst)
  | exec _ _ = Ok _ =>
      let a := fresh "a" in
      apply exec_Ok in H as [a H]
  | setData _ _ _ = Ok _ => injection H as ? ?; subst
  | requestRedraw _ = Ok _ => injection H as ? ?; subst
  | _ => idtac
  end.

Ltac run_step H :=
  lazymatch type of H with
  | bind _ _ _ = Ok _ =>
      let a := fresh "a" in
      let w := fresh "w" in
      let H1 := fresh H in
      apply bind_Ok in H as (a & w & H1 & H); run_prim H1; cbv beta in H
  | _ => progress run_prim H
  end.

Ltac run H := repeat run_step H.

(** Reduces a frame condition on a composed method to its steps. *)
Ltac frame_step :=
  lazymatch goal with
  | |- preserves _ (bind _ _) => apply preserves_bind; [tc_solve | | intros ?]
  | |- preserves _ (ret _) => apply preserves_ret; tc_solve
  | |- preserves _ (gets _) => apply preserves_gets; tc_solve
  | |- preserves _ (throw _) => apply preserves_throw
  | |- preserves _ (defined _) => apply preserves_defined; tc_solve
  | |- preserves _ (match ?x with _ => _ end) => destruct x
  end.

Ltac frame := repeat first [frame_step | solve [eauto with frame]].

(** Reduces a bound on the errors of a composed method to its steps. *)
Ltac raises_step :=
  lazymatch goal with
  | |- raisesOnly _ (bind _ _) => apply raisesOnly_bind; [| intros ?]
  | |- raisesOnly _ (ret _) => apply raisesOnly_ret
  | |- raisesOnly _ (gets _) => apply raisesOnly_gets
  | |- raisesOnly _ (modify _) => apply raisesOnly_modify
  | |- raisesOnly _ (throw _) => apply raisesOnly_throw
  | |- raisesOnly _ (defined _) => apply raisesOnly_defined
  | |- raisesOnly _ (match ?x with _ => _ end) => destruct x
  end.

Ltac raises := repeat first [raises_step | done].

(** ** The buffer *)

Section Facts.

Context {T : Type}.
Context {IndexStore : Type} `{!IndexBufferOps IndexStore}.

Local Abbreviation World' := (World T IndexStore).

Implicit Types (w : World') (b : ManagedBuffer T) (l : loc) (v : ExistingViewEntry).

(** *** Resolution of the canonical source *)

Lemma currentCanonicalDataSource_unfold w :
  currentCanonicalDataSource w =
    if hostBufferIsPopulated (this w) then Ok (HostData, w)
    else match renderAttributeBuffer (this w) with
         | Some _ => Ok (RenderBuffer, w)
         | None => if dataGetsComputed (this w) then Ok (NeedsCompute, w)
                   else Err (NoDataSource (name (this w)))
         end.
Proof.
  unfold currentCanonicalDataSource, bind, gets. simpl.
  destruct (hostBufferIsPopulated _); [done|].
  destruct (renderAttributeBuffer _); [done|].
  by destruct (dataGetsComputed _).
Qed.

Lemma currentCanonicalDataSource_pure w src w' :
  currentCanonicalDataSource w = Ok (src, w') → w' = w.
Proof.
  rewrite currentCanonicalDataSource_unfold.
  repeat case_match; congruence.
Qed.

Lemma preserves_currentCanonicalDataSource (R : relation World') `{!PreOrder R} :
  preserves R currentCanonicalDataSource.
Proof.
  intros w src w' ->%currentCanonicalDataSource_pure. reflexivity.
Qed.

(** *** The loop over the cache preserves what its body preserves *)

Lemma preserves_forEachView (R : relation World') `{!PreOrder R} body views :
  (∀ v, preserves R (body v)) → preserves R (forEachView body views).
Proof.
  intros Hbody. induction views as [|v rest IH]; simpl.
  - by apply preserves_ret.
  - apply preserves_bind; [done | apply Hbody | intros v'].
    apply preserves_bind; [done | apply IH | intros rest'].
    by apply preserves_ret.
Qed.

(** *** Relations closed under the steps of the cache refresh

    The refresh of a view writes device buffers, populates index buffers
    and logs calls other than invocations of [computeFunc]; it does nothing
    else to the world: a [StepClosed] relation holds across it. *)

Lemma stable_StepClosed {B} (f : World' → B) : stable f → StepClosed (sameOn f).
Proof. intros Hf. split; [tc_solve | intros; by apply Hf ..]. Qed.

Section StepClosedFacts.

Context (R : relation World') `{!StepClosed R}.

Lemma preserves_setData l d : preserves R (setData l d).
Proof.
  apply preserves_modify. intros w.
  transitivity (with_heap <[l := d]> w); [apply step_heap | by apply step_log].
Qed.

Lemma preserves_requestRedraw : preserves R requestRedraw.
Proof. apply preserves_modify. intros w. by apply step_log. Qed.

Lemma preserves_indices_ensureHostBufferPopulated a :
  preserves R (indices_ensureHostBufferPopulated a).
Proof.
  intros w [] w'. unfold indices_ensureHostBufferPopulated.
  destruct (index_ensureHostBufferPopulated _ _) eqn:E; [|done].
  intros [= <-]. by apply step_indices with a.
Qed.

Lemma preserves_indices_data a : preserves R (indices_data a).
Proof. unfold indices_data. frame. Qed.

Lemma preserves_computeFeedback p : preserves R (computeFeedback p).
Proof.
  unfold computeFeedback. frame. apply preserves_modify. intros w.
  etransitivity; [apply step_heap | by apply step_log].
Qed.

Lemma preserves_ensureHaveBufferIndexCopyProgram prog a l :
  preserves R (ensureHaveBufferIndexCopyProgram prog a l).
Proof.
  unfold ensureHaveBufferIndexCopyProgram. frame.
  - apply preserves_modify. intros w. by apply step_log.
  - apply preserves_indices_ensureHostBufferPopulated.
  - apply preserves_indices_data.
Qed.

Lemma preserves_updateIndexedView v : preserves R (updateIndexedView v).
Proof.
  unfold updateIndexedView. frame.
  - apply preserves_currentCanonicalDataSource; tc_solve.
  - apply preserves_indices_ensureHostBufferPopulated.
  - apply preserves_indices_data.
  - apply preserves_setData.
  - apply preserves_ensureHaveBufferIndexCopyProgram.
  - apply preserves_computeFeedback.
Qed.

Lemma preserves_forEachView_updateIndexedView views :
  preserves R (forEachView updateIndexedView views).
Proof.
  apply preserves_forEachView; [tc_solve|]. apply preserves_updateIndexedView.
Qed.

End StepClosedFacts.

(** *** [updateIndexedViews] touches the cache only *)

Lemma stable_this : stable (λ w, this w).
Proof. by intros w w' ? ?. Qed.

Global Instance sameThis_StepClosed : StepClosed (sameOn (λ w, this w)).
Proof. apply stable_StepClosed, stable_this. Qed.

Lemma forEachView_updateIndexedView_this views w views' w' :
  forEachView updateIndexedView views w = Ok (views', w') → this w' = this w.
Proof.
  apply (preserves_forEachView_updateIndexedView (sameOn (λ w, this w))).
Qed.

Lemma updateIndexedViews_Ok w u w' :
  updateIndexedViews w = Ok (u, w') →
  ∃ views' w1,
    forEachView updateIndexedView (liveEntries w)
      (with_this (set_existingIndexedViews (liveEntries w)) w) = Ok (views', w1)
    ∧ w' = with_this (set_existingIndexedViews views') w1
    ∧ this w' = set_existingIndexedViews views' (this w).
Proof.
  unfold updateIndexedViews, removeDeletedIndexedViews. intros H.
  run_step H. run_step H. run_step H. run_prim H.
  eexists _, _. split; [exact H0|]. split; [done|].
  apply forEachView_updateIndexedView_this in H0. simpl. by rewrite H0.
Qed.

Lemma markHostBufferUpdated_Ok w u w' :
  markHostBufferUpdated w = Ok (u, w') →
  ∃ views', this w' = set_existingIndexedViews views' (set_hostBufferIsPopulated true (this w)).
Proof.
  unfold markHostBufferUpdated. intros H. run_step H. run_step H. run_step H.
  apply updateIndexedViews_Ok in H as (views' & w1 & _ & _ & ->).
  exists views'. f_equal.
  destruct (renderAttributeBuffer _); run H0; reflexivity.
Qed.

(** C1.  The canonical source is resolved in a fixed order: host data if
    the host buffer is populated; else the device buffer if one exists; else
    "needs compute" if the data gets computed; else an internal-consistency
    error.  Hence whenever [markHostBufferUpdated] returns, the canonical
    source is the host data, whether or not a device buffer exists. *)
Theorem source_precedence w :
  (hostBufferIsPopulated (this w) = true →
     currentCanonicalDataSource w = Ok (HostData, w))
  ∧ (hostBufferIsPopulated (this w) = false →
     is_Some (renderAttributeBuffer (this w)) →
     currentCanonicalDataSource w = Ok (RenderBuffer, w))
  ∧ (hostBufferIsPopulated (this w) = false →
     renderAttributeBuffer (this w) = None →
     dataGetsComputed (this w) = true →
     currentCanonicalDataSource w = Ok (NeedsCompute, w))
  ∧ (hostBufferIsPopulated (this w) = false →
     renderAttributeBuffer (this w) = None →
     dataGetsComputed (this w) = false →
     ∃ e, currentCanonicalDataSource w = Err e
          ∧ errorClass e = Some InternalConsistency)
  ∧ (∀ w', exec markHostBufferUpdated w = Ok w' →
     currentCanonicalDataSource w' = Ok (HostData, w')).
Proof.
  rewrite currentCanonicalDataSource_unfold. repeat split.
  - by intros ->.
  - by intros -> [l ->].
  - by intros -> -> ->.
  - intros -> -> ->. by eexists.
  - intros w' H. run_step H.
    apply markHostBufferUpdated_Ok in H as [views' H].
    rewrite currentCanonicalDataSource_unfold, H. done.
Qed.

(** *** Errors of the cache refresh *)

Section NoUsageErrors.

Hypothesis index_notUsage :
  ∀ a s e, index_ensureHostBufferPopulated a s = Err e → notUsage e.

Lemma raisesOnly_indices_ensureHostBufferPopulated a :
  raisesOnly notUsage (indices_ensureHostBufferPopulated (T := T) a).
Proof.
  intros w e. unfold indices_ensureHostBufferPopulated.
  destruct (index_ensureHostBufferPopulated _ _) eqn:E; [done|].
  intros [= <-]. eapply index_notUsage, E.
Qed.

Lemma raisesOnly_currentCanonicalDataSource :
  raisesOnly notUsage (currentCanonicalDataSource (T := T) (IndexStore := IndexStore)).
Proof.
  intros w e. rewrite currentCanonicalDataSource_unfold.
  repeat case_match; try done. by intros [= <-].
Qed.

Lemma raisesOnly_forEachView (body : ExistingViewEntry → M World' ExistingViewEntry) views :
  (∀ v, raisesOnly notUsage (body v)) → raisesOnly notUsage (forEachView body views).
Proof.
  intros Hbody. induction views as [|v rest IH]; simpl; raises.
Qed.

Lemma raisesOnly_updateIndexedViews :
  raisesOnly notUsage (updateIndexedViews (T := T)).
Proof.
  unfold updateIndexedViews, removeDeletedIndexedViews. raises.
  apply raisesOnly_forEachView. intros v.
  unfold updateIndexedView, ensureHaveBufferIndexCopyProgram, computeFeedback,
    indices_data, setData. raises;
    first [apply raisesOnly_currentCanonicalDataSource
          | apply raisesOnly_indices_ensureHostBufferPopulated].
Qed.

Lemma raisesOnly_markHostBufferUpdated :
  raisesOnly notUsage (markHostBufferUpdated (T := T)).
Proof.
  unfold markHostBufferUpdated, setData, requestRedraw. raises.
  apply raisesOnly_updateIndexedViews.
Qed.

End NoUsageErrors.

(** C6.  [recomputeIfPopulated] raises its usage error when the buffer has
    no compute function.  With one, it does nothing at all when the canonical
    source is "needs compute".  In every other case it first invalidates the
    host buffer: the flag is cleared and the host array emptied; it then
    invokes [computeFunc], which sees the buffer in this invalidated state,
    and it finishes with [markHostBufferUpdated] on what [computeFunc] left;
    when it returns, the host buffer is populated with the array that
    [computeFunc] left and is the canonical source.  Conversely, as long as
    neither the callbacks nor the index buffers raise usage errors of their
    own, a usage error means that there is no compute function. *)
Theorem recomputeIfPopulated_cases (computeFunc : World' → Result World') w :
  (dataGetsComputed (this w) = false →
     recomputeIfPopulated computeFunc w = Err RecomputeNotComputed
     ∧ errorClass RecomputeNotComputed = Some Usage)
  ∧ (dataGetsComputed (this w) = true →
     currentCanonicalDataSource w = Ok (NeedsCompute, w) →
     recomputeIfPopulated computeFunc w = Ok (tt, w))
  ∧ (dataGetsComputed (this w) = true →
     currentCanonicalDataSource w ≠ Ok (NeedsCompute, w) →
     let wi := with_this (set_data []) (with_this (set_hostBufferIsPopulated false) w) in
     invalidateHostBuffer w = Ok (tt, wi)
     ∧ hostBufferIsPopulated (this wi) = false
     ∧ data (this wi) = []
     ∧ recomputeIfPopulated computeFunc w =
         match computeFunc (log EvCompute wi) with
         | Ok wc => markHostBufferUpdated wc
         | Err e => Err e
         end
     ∧ ∀ w', exec (recomputeIfPopulated computeFunc) w = Ok w' →
         ∃ wc, computeFunc (log EvCompute wi) = Ok wc
               ∧ exec markHostBufferUpdated wc = Ok w'
               ∧ hostBufferIsPopulated (this w') = true
               ∧ data (this w') = data (this wc)
               ∧ currentCanonicalDataSource w' = Ok (HostData, w'))
  ∧ ((∀ w0 e, computeFunc w0 = Err e → notUsage e) →
     (∀ a s e, index_ensureHostBufferPopulated a s = Err e → notUsage e) →
     ∀ e, recomputeIfPopulated computeFunc w = Err e →
          errorClass e = Some Usage → dataGetsComputed (this w) = false).
Proof.
  split; [|split; [|split]].
  - unfold recomputeIfPopulated, bind, gets. simpl. by intros ->.
  - intros Hd Hs. unfold recomputeIfPopulated, bind, gets. rewrite Hd. simpl.
    by rewrite Hs.
  - intros Hd Hs wi. split; [done|]. split; [done|]. split; [done|].
    assert (recomputeIfPopulated computeFunc w =
              match computeFunc (log EvCompute wi) with
              | Ok wc => markHostBufferUpdated wc
              | Err e => Err e
              end) as Heq.
    { unfold recomputeIfPopulated. unfold bind at 1 2. unfold gets.
      rewrite Hd. simpl. unfold bind at 1.
      revert Hs. rewrite currentCanonicalDataSource_unfold, Hd.
      assert ((invalidateHostBuffer;; call_computeFunc computeFunc;;
               markHostBufferUpdated) w =
                match computeFunc (log EvCompute wi) with
                | Ok wc => markHostBufferUpdated wc
                | Err e => Err e
                end) as Hbody.
      { unfold bind at 1. change (invalidateHostBuffer w) with (Ok (tt, wi)).
        cbv beta iota. unfold bind at 1, call_computeFunc.
        by destruct (computeFunc (log EvCompute wi)). }
      destruct (hostBufferIsPopulated _); [intros _; exact Hbody|].
      destruct (renderAttributeBuffer _); [intros _; exact Hbody|done]. }
    split; [exact Heq|].
    intros w'. unfold exec. rewrite Heq.
    destruct (computeFunc (log EvCompute wi)) as [wc|]; [|done].
    destruct (markHostBufferUpdated wc) as [[u w1]|] eqn:Hmark; [|done].
    intros [= <-]. exists wc. split; [done|]. split; [by rewrite Hmark|].
    apply markHostBufferUpdated_Ok in Hmark as [views' Hthis].
    rewrite currentCanonicalDataSource_unfold, Hthis. done.
  - intros Hcf Hidx e Herr Hclass.
    destruct (dataGetsComputed (this w)) eqn:Hdgc; [exfalso | done].
    revert Herr. unfold recomputeIfPopulated. unfold bind at 1 2.  unfold gets.
    rewrite Hdgc. simpl. intros Herr. revert Hclass.
    assert (raisesOnly notUsage
              (let! src := currentCanonicalDataSource in
               if bool_decide (src = NeedsCompute) then ret tt
               else invalidateHostBuffer;; call_computeFunc computeFunc;;
                    markHostBufferUpdated)) as Hr; [|exact (Hr _ _ Herr)].
    unfold invalidateHostBuffer. raises.
    + apply raisesOnly_currentCanonicalDataSource.
    + intros w0 e0. unfold call_computeFunc.
      destruct (computeFunc _) eqn:E; [by destruct a1|]. intros [= <-]. eapply Hcf, E.
    + by apply raisesOnly_markHostBufferUpdated.
Qed.

(** *** Reading through the canonical source *)

Lemma getAttributeBufferDataRange_all {A} (buf : list A) :
  getAttributeBufferDataRange buf 0 (Z.of_nat (length buf)) = buf.
Proof.
  unfold getAttributeBufferDataRange. rewrite Nat2Z.id. simpl.
  apply firstn_all.
Qed.

Lemma to_int64_small z : 0 ≤ z < 2 ^ 63 → to_int64 z = z.
Proof. intros Hz. unfold to_int64. rewrite Z.mod_small; lia. Qed.

Lemma to_size_t_small z : 0 ≤ z < 2 ^ 64 → to_size_t z = z.
Proof. intros Hz. unfold to_size_t. by rewrite Z.mod_small. Qed.

Lemma getDataSize_nonneg w l : 0 ≤ getDataSize w l.
Proof. unfold getDataSize. lia. Qed.

Lemma size_unfold w :
  size w =
    match currentCanonicalDataSource w with
    | Ok (HostData, _) => Ok (Z.of_nat (length (data (this w))), w)
    | Ok (NeedsCompute, _) => Ok (0, w)
    | Ok (RenderBuffer, _) =>
        match renderAttributeBuffer (this w) with
        | Some l => Ok (to_size_t (getDataSize w l), w)
        | None => Err UndefinedBehaviour
        end
    | Err e => Err e
    end.
Proof.
  unfold size. unfold bind at 1.
  destruct (currentCanonicalDataSource w) as [[src w']|e] eqn:E; [|done].
  apply currentCanonicalDataSource_pure in E as ->.
  destruct src; try done.
  unfold bind, gets. simpl. by destruct (renderAttributeBuffer _).
Qed.

Lemma getValue_unfold computeFunc ind w :
  getValue computeFunc ind w =
    match currentCanonicalDataSource w with
    | Ok (HostData, _) => checkedHostRead ind w
    | Ok (NeedsCompute, _) => (call_computeFunc computeFunc;; checkedHostRead ind) w
    | Ok (RenderBuffer, _) =>
        match renderAttributeBuffer (this w) with
        | Some l =>
            if getDataSize w l <=? to_int64 ind
            then Err (OutOfBoundsAccess (name (this w)) ind)
            else match getAttributeBufferData (bufferData w l) ind with
                 | Some x => Ok (x, w)
                 | None => Err UndefinedBehaviour
                 end
        | None => Err UndefinedBehaviour
        end
    | Err e => Err e
    end.
Proof.
  unfold getValue. unfold bind at 1.
  destruct (currentCanonicalDataSource w) as [[src w']|e] eqn:E; [|done].
  apply currentCanonicalDataSource_pure in E as ->.
  destruct src; try done.
  unfold bind, gets. simpl. destruct (renderAttributeBuffer _); [|done]. simpl.
  unfold id. destruct (_ <=? _); [done|]. by destruct (getAttributeBufferData _ _).
Qed.

Lemma checkedHostRead_at_size w :
  checkedHostRead (Z.of_nat (length (data (this w)))) w =
    Err (OutOfBoundsAccess (name (this w)) (Z.of_nat (length (data (this w))))).
Proof.
  unfold checkedHostRead, bind, gets. simpl. by rewrite Z.leb_refl.
Qed.

(** C2, as amended.  When the canonical source is the host data or the
    device buffer, [getValue(size())] raises the out-of-bounds error, a usage
    error; no element is returned.  When the source is "needs compute",
    [size()] is 0 and [getValue(0)] invokes [computeFunc] and then reads
    element 0 of whatever was computed. *)
Theorem getValue_at_size (computeFunc : World' → Result World') w :
  (∀ src, currentCanonicalDataSource w = Ok (src, w) → src ≠ NeedsCompute →
     (∀ l, renderAttributeBuffer (this w) = Some l → getDataSize w l < 2 ^ 63) →
     ∃ n, size w = Ok (n, w)
          ∧ getValueAtSize computeFunc w = Err (OutOfBoundsAccess (name (this w)) n)
          ∧ isOutOfRange (OutOfBoundsAccess (name (this w)) n) = true
          ∧ errorClass (OutOfBoundsAccess (name (this w)) n) = Some Usage)
  ∧ (currentCanonicalDataSource w = Ok (NeedsCompute, w) →
     size w = Ok (0, w)
     ∧ getValueAtSize computeFunc w =
         (call_computeFunc computeFunc;; checkedHostRead 0) w).
Proof.
  split.
  - intros src Hsrc Hne Hdev.
    unfold getValueAtSize. unfold bind at 1.
    rewrite size_unfold, Hsrc. destruct src; [|done|].
    + eexists. split; [done|]. split; [|done].
      rewrite getValue_unfold, Hsrc. apply checkedHostRead_at_size.
    + assert (∃ l, renderAttributeBuffer (this w) = Some l) as [l El].
      { revert Hsrc. rewrite currentCanonicalDataSource_unfold.
        destruct (hostBufferIsPopulated _); [done|].
        destruct (renderAttributeBuffer _); [eauto|]. by case_match. }
      rewrite El. specialize (Hdev l El). pose proof (getDataSize_nonneg w l).
      rewrite to_size_t_small by lia.
      eexists. split; [done|]. split; [|done].
      rewrite getValue_unfold, Hsrc, El.
      rewrite to_int64_small by lia. by rewrite Z.leb_refl.
  - intros Hsrc. unfold getValueAtSize. unfold bind at 1.
    rewrite size_unfold, Hsrc. split; [done|].
    by rewrite getValue_unfold, Hsrc.
Qed.

(** [size()] by source: 0 for "needs compute", the length of the host array
    for the host data, the element count of the device buffer for the device
    buffer. *)
Lemma size_of_source w :
  (currentCanonicalDataSource w = Ok (NeedsCompute, w) → size w = Ok (0, w))
  ∧ (currentCanonicalDataSource w = Ok (HostData, w) →
     size w = Ok (Z.of_nat (length (data (this w))), w))
  ∧ (currentCanonicalDataSource w = Ok (RenderBuffer, w) →
     ∀ l, renderAttributeBuffer (this w) = Some l → getDataSize w l < 2 ^ 64 →
     size w = Ok (Z.of_nat (length (bufferData w l)), w)).
Proof.
  rewrite size_unfold. repeat split.
  - by intros ->.
  - by intros ->.
  - intros -> l -> Hl. pose proof (getDataSize_nonneg w l).
    by rewrite to_size_t_small by lia.
Qed.

(** *** Properties of the buffer object that the methods keep

    [Q] is a property of the members of the buffer.  It is kept by a method
    as soon as it is kept by the member updates that the method performs
    and by [computeFunc]. *)

Lemma preserves_weaken {A} (R R' : relation World') (m : M World' A) :
  (∀ w w', R w w' → R' w w') → preserves R m → preserves R' m.
Proof. intros HR Hm w a w' H. eapply HR, Hm, H. Qed.

Lemma findExistingView_pure idx views w hit w' :
  findExistingView idx views w = Ok (hit, w') → w' = w.
Proof.
  revert w. induction views as [|v rest IH]; simpl; intros w H.
  - by run H.
  - unfold bind at 1, gets in H.
    destruct (lock w (viewBuffer v)); [|by apply IH].
    unfold indices_uniqueID, bind, gets, defined in H.
    destruct (index_uniqueID _ (indices v)); [|done]. simpl in H.
    destruct (index_uniqueID _ idx); [|done]. simpl in H.
    destruct (_ =? _); [by run H | by apply IH].
Qed.

Lemma preserves_findExistingView (R : relation World') `{!PreOrder R} idx views :
  preserves R (findExistingView idx views).
Proof. intros w hit w' ->%findExistingView_pure. reflexivity. Qed.

Lemma preserves_generateAttributeBuffer {B} (f : World' → B) :
  (∀ w w', this w' = this w → f w' = f w) →
  preserves (sameOn f) generateAttributeBuffer.
Proof. intros Hf w l w' [= _ <-]. by apply Hf. Qed.

Section KeepsProperty.

Variable Q : ManagedBuffer T → Prop.
Variable computeFunc : World' → Result World'.

Let P : World' → Prop := λ w, Q (this w).

Hypothesis Q_set_data : ∀ d b, Q b → Q (set_data d b).
Hypothesis Q_set_existingIndexedViews : ∀ vs b, Q b → Q (set_existingIndexedViews vs b).
Hypothesis Q_invalidate : ∀ b, Q b → Q (set_hostBufferIsPopulated false b).
Hypothesis Q_computeFunc : callbackPreserves (keeps P) computeFunc.

Lemma keeps_of_sameThis {A} (m : M World' A) :
  preserves (sameOn (λ w, this w)) m → preserves (keeps P) m.
Proof.
  apply preserves_weaken. intros w w' Hthis. unfold keeps, P. by rewrite Hthis.
Qed.

Lemma keeps_call_computeFunc : preserves (keeps P) (call_computeFunc computeFunc).
Proof.
  intros w [] w'. unfold call_computeFunc.
  destruct (computeFunc _) as [w1|] eqn:E; [|done]. intros [= <-].
  apply Q_computeFunc in E. exact E.
Qed.

Lemma keeps_ensureHostBufferPopulated :
  preserves (keeps P) (ensureHostBufferPopulated computeFunc).
Proof.
  unfold ensureHostBufferPopulated. frame.
  - apply preserves_currentCanonicalDataSource; tc_solve.
  - apply keeps_call_computeFunc.
  - apply preserves_modify. intros w; unfold keeps, P; simpl. apply Q_set_data.
Qed.

Lemma keeps_invalidateHostBuffer : preserves (keeps P) invalidateHostBuffer.
Proof.
  unfold invalidateHostBuffer. frame; apply preserves_modify; intros w; unfold keeps, P; simpl.
  - apply Q_invalidate.
  - apply Q_set_data.
Qed.

Lemma keeps_removeDeletedIndexedViews : preserves (keeps P) removeDeletedIndexedViews.
Proof. apply preserves_modify. intros w; unfold keeps, P; simpl. apply Q_set_existingIndexedViews. Qed.

Lemma keeps_updateIndexedViews : preserves (keeps P) updateIndexedViews.
Proof.
  intros w u w' (views' & w1 & _ & _ & Hthis)%updateIndexedViews_Ok.
  unfold keeps, P. rewrite Hthis. apply Q_set_existingIndexedViews.
Qed.

Lemma keeps_markRenderAttributeBufferUpdated :
  preserves (keeps P) markRenderAttributeBufferUpdated.
Proof.
  unfold markRenderAttributeBufferUpdated. frame.
  - apply keeps_invalidateHostBuffer.
  - apply keeps_updateIndexedViews.
  - apply keeps_of_sameThis, preserves_requestRedraw; tc_solve.
Qed.

Lemma keeps_getValue ind : preserves (keeps P) (getValue computeFunc ind).
Proof.
  unfold getValue, checkedHostRead. frame.
  - apply preserves_currentCanonicalDataSource; tc_solve.
  - apply keeps_call_computeFunc.
Qed.

Lemma keeps_size : preserves (keeps P) size.
Proof.
  unfold size. frame. apply preserves_currentCanonicalDataSource; tc_solve.
Qed.

Lemma keeps_hasData : preserves (keeps P) hasData.
Proof. unfold hasData. frame. Qed.

Lemma keeps_getIndexedRenderAttributeBuffer idx :
  preserves (keeps P) (getIndexedRenderAttributeBuffer computeFunc idx).
Proof.
  unfold getIndexedRenderAttributeBuffer. frame.
  - apply keeps_removeDeletedIndexedViews.
  - apply preserves_findExistingView; tc_solve.
  - apply keeps_ensureHostBufferPopulated.
  - apply keeps_of_sameThis, preserves_generateAttributeBuffer. by intros w w' ?.
  - apply keeps_of_sameThis, preserves_indices_ensureHostBufferPopulated; tc_solve.
  - apply keeps_of_sameThis, preserves_indices_data; tc_solve.
  - apply keeps_of_sameThis, preserves_setData; tc_solve.
  - apply preserves_modify. intros w; unfold keeps, P; simpl. apply Q_set_existingIndexedViews.
Qed.

(** The two methods that set [hostBufferIsPopulated]. *)
Section WithNotify.

Hypothesis Q_notify : ∀ b, Q b → Q (set_hostBufferIsPopulated true b).

Lemma keeps_markHostBufferUpdated : preserves (keeps P) markHostBufferUpdated.
Proof.
  intros w u w' [views' Hthis]%markHostBufferUpdated_Ok.
  unfold keeps, P. rewrite Hthis. intros HQ.
  by apply Q_set_existingIndexedViews, Q_notify.
Qed.

Lemma keeps_recomputeIfPopulated :
  preserves (keeps P) (recomputeIfPopulated computeFunc).
Proof.
  unfold recomputeIfPopulated. frame.
  - apply preserves_currentCanonicalDataSource; tc_solve.
  - apply keeps_invalidateHostBuffer.
  - apply keeps_call_computeFunc.
  - apply keeps_markHostBufferUpdated.
Qed.

End WithNotify.

(** The method that sets [renderAttributeBuffer]. *)
Section WithAllocate.

Hypothesis Q_allocate : ∀ l b, Q b → Q (set_renderAttributeBuffer (Some l) b).

Lemma keeps_getRenderAttributeBuffer :
  preserves (keeps P) (getRenderAttributeBuffer computeFunc).
Proof.
  unfold getRenderAttributeBuffer. frame.
  - apply keeps_ensureHostBufferPopulated.
  - apply keeps_of_sameThis, preserves_generateAttributeBuffer. by intros w w' ?.
  - apply preserves_modify. intros w; unfold keeps, P; simpl. apply Q_allocate.
  - apply keeps_of_sameThis, preserves_setData; tc_solve.
Qed.

End WithAllocate.

End KeepsProperty.

(** *** What the trace and the allocator see of a notification *)

Global Instance traceGrows_StepClosed :
  StepClosed (T := T) (IndexStore := IndexStore) traceGrows.
Proof.
  split.
  - split.
    + intros w. exists []. by rewrite app_nil_r.
    + intros w1 w2 w3 [e1 H1] [e2 H2]. exists (e1 ++ e2). by rewrite H2, H1, app_assoc.
  - intros w l d. exists []. simpl. by rewrite app_nil_r.
  - intros w a s _. exists []. simpl. by rewrite app_nil_r.
  - intros w e _. by exists [e].
Qed.

Lemma stable_nextLoc : stable (λ w, nextLoc w).
Proof. by intros w w' ? ?. Qed.

Global Instance sameNextLoc_StepClosed : StepClosed (sameOn (λ w, nextLoc w)).
Proof. apply stable_StepClosed, stable_nextLoc. Qed.

(** A relation that the refresh of the cache preserves as a whole: closed
    under the steps, and under the update of the cache itself. *)
Lemma preserves_updateIndexedViews (R : relation World') `{!StepClosed R} :
  (∀ w vs, R w (with_this (set_existingIndexedViews vs) w)) →
  preserves R updateIndexedViews.
Proof.
  intros Hviews. unfold updateIndexedViews, removeDeletedIndexedViews. frame.
  - apply preserves_modify. intros w. apply Hviews.
  - by apply preserves_forEachView_updateIndexedView.
  - apply preserves_modify. intros w. apply Hviews.
Qed.

Lemma markHostBufferUpdated_trace w u w' l :
  renderAttributeBuffer (this w) = Some l →
  markHostBufferUpdated w = Ok (u, w') →
  nextLoc w' = nextLoc w
  ∧ ∃ evs, trace w' = trace w ++ EvSetData l (data (this w)) :: EvRedraw :: evs.
Proof.
  intros Hl. unfold markHostBufferUpdated. intros H.
  run_step H. run_step H. run_step H. simpl in H0. rewrite Hl in H0. run H0.
  split.
  - apply (preserves_updateIndexedViews (sameOn (λ w, nextLoc w))) in H; [|done].
    exact H.
  - apply (preserves_updateIndexedViews traceGrows) in H as [evs H].
    + exists evs. rewrite H. simpl. by rewrite <- !app_assoc.
    + intros w0 vs. exists []. simpl. by rewrite app_nil_r.
Qed.

(** *** The device buffer handle *)

Lemma getRenderAttributeBuffer_Ok computeFunc w l w' :
  getRenderAttributeBuffer computeFunc w = Ok (l, w') →
  renderAttributeBuffer (this w') = Some l.
Proof.
  unfold getRenderAttributeBuffer. intros H. run_step H.
  destruct (renderAttributeBuffer (this _)) as [l'|] eqn:E.
  - run H. exact E.
  - do 4 run_step H. run H. reflexivity.
Qed.

Lemma getRenderAttributeBuffer_existing computeFunc w l :
  renderAttributeBuffer (this w) = Some l →
  getRenderAttributeBuffer computeFunc w = Ok (l, w).
Proof. intros H. unfold getRenderAttributeBuffer, bind, gets. by rewrite H. Qed.

Section Handle.

Variable computeFunc : World' → Result World'.
Variable l : loc.

Let hasHandle : World' → Prop := λ w, renderAttributeBuffer (this w) = Some l.

Hypothesis computeFunc_keeps : callbackPreserves (keeps hasHandle) computeFunc.

Lemma runCall_keeps_handle c w w' :
  hasHandle w → runCall computeFunc c w = Ok w' → hasHandle w'.
Proof.
  intros Hw H. destruct c; simpl in H; apply exec_Ok in H as [r H]; revert Hw;
    change (keeps hasHandle w w'); revert H; [..|apply preserves_currentCanonicalDataSource; tc_solve].
  - by apply (keeps_ensureHostBufferPopulated (λ b, renderAttributeBuffer b = Some l)).
  - unfold getPopulatedHostBufferRef. revert w r w'.
    apply preserves_bind; [tc_solve| |intros; apply preserves_gets; tc_solve].
    by apply (keeps_ensureHostBufferPopulated (λ b, renderAttributeBuffer b = Some l)).
  - by apply (keeps_markHostBufferUpdated (λ b, renderAttributeBuffer b = Some l)).
  - by apply (keeps_getValue (λ b, renderAttributeBuffer b = Some l)).
  - by apply (keeps_size (λ b, renderAttributeBuffer b = Some l)).
  - by apply (keeps_hasData (λ b, renderAttributeBuffer b = Some l)).
  - by apply (keeps_recomputeIfPopulated (λ b, renderAttributeBuffer b = Some l)).
  - intros H Hw. rewrite (getRenderAttributeBuffer_existing _ _ _ Hw) in H.
    by injection H as _ <-.
  - by apply (keeps_markRenderAttributeBufferUpdated (λ b, renderAttributeBuffer b = Some l)).
  - by apply (keeps_getIndexedRenderAttributeBuffer (λ b, renderAttributeBuffer b = Some l)).
  - by apply (keeps_updateIndexedViews (λ b, renderAttributeBuffer b = Some l)).
  - by apply (keeps_removeDeletedIndexedViews (λ b, renderAttributeBuffer b = Some l)).
  - by apply (keeps_invalidateHostBuffer (λ b, renderAttributeBuffer b = Some l)).
Qed.

Lemma runCalls_keeps_handle cs w w' :
  hasHandle w → runCalls computeFunc cs w = Ok w' → hasHandle w'.
Proof.
  revert w. induction cs as [|c cs IH]; simpl; intros w Hw H.
  - by injection H as <-.
  - destruct (runCall computeFunc c w) as [w1|] eqn:E; [|done].
    eapply IH; [|exact H]. eapply runCall_keeps_handle; eassumption.
Qed.

End Handle.

(** C9.  Once [getRenderAttributeBuffer] has produced the device buffer
    [l], the buffer keeps that very handle through every sequence of calls of
    its member functions, provided [computeFunc] does not replace it either:
    [getRenderAttributeBuffer] keeps returning [l] and changes nothing.  A
    [markHostBufferUpdated] writes to [l] with [setData], allocates nothing
    and keeps the handle. *)
Theorem renderAttributeBuffer_never_replaced
    (computeFunc : World' → Result World') w0 l w :
  (∀ l0, callbackPreserves
           (keeps (λ w, renderAttributeBuffer (this w) = Some l0)) computeFunc) →
  getRenderAttributeBuffer computeFunc w0 = Ok (l, w) →
  renderAttributeBuffer (this w) = Some l
  ∧ (∀ cs w', runCalls computeFunc cs w = Ok w' →
       renderAttributeBuffer (this w') = Some l
       ∧ getRenderAttributeBuffer computeFunc w' = Ok (l, w'))
  ∧ (∀ cs w1 w2, runCalls computeFunc cs w = Ok w1 →
       exec markHostBufferUpdated w1 = Ok w2 →
       renderAttributeBuffer (this w2) = Some l
       ∧ nextLoc w2 = nextLoc w1
       ∧ ∃ evs, trace w2 = trace w1 ++ EvSetData l (data (this w1)) :: EvRedraw :: evs).
Proof.
  intros Hcf Hget. pose proof (getRenderAttributeBuffer_Ok _ _ _ _ Hget) as Hl.
  split; [exact Hl|]. split.
  - intros cs w' Hcs.
    pose proof (runCalls_keeps_handle computeFunc l (Hcf l) cs w w' Hl Hcs) as Hl'.
    split; [exact Hl'|]. by apply getRenderAttributeBuffer_existing.
  - intros cs w1 w2 Hcs Hmark.
    pose proof (runCalls_keeps_handle computeFunc l (Hcf l) cs w w1 Hl Hcs) as Hl1.
    split.
    + apply (runCall_keeps_handle computeFunc l (Hcf l) MarkHostBufferUpdated w1 w2 Hl1 Hmark).
    + apply exec_Ok in Hmark as [u Hmark].
      by apply markHostBufferUpdated_trace with u.
Qed.

(** *** The host flag *)

Lemma ensureHostBufferPopulated_from_device computeFunc w l :
  hostBufferIsPopulated (this w) = false →
  renderAttributeBuffer (this w) = Some l →
  ensureHostBufferPopulated computeFunc w
    = Ok (tt, with_this (set_data (bufferData w l)) w).
Proof.
  intros Hflag Hl. unfold ensureHostBufferPopulated. unfold bind at 1.
  rewrite currentCanonicalDataSource_unfold, Hflag, Hl.
  unfold bind, gets, modify. rewrite Hl. unfold getDataSize.
  by rewrite getAttributeBufferDataRange_all.
Qed.

Section HostFlag.

Variable computeFunc : World' → Result World'.

Let unpopulated : World' → Prop := λ w, hostBufferIsPopulated (this w) = false.

Hypothesis computeFunc_silent : callbackPreserves (keeps unpopulated) computeFunc.

Lemma runCall_keeps_unpopulated c w w' :
  c ≠ MarkHostBufferUpdated → c ≠ RecomputeIfPopulated →
  unpopulated w → runCall computeFunc c w = Ok w' → unpopulated w'.
Proof.
  intros Hc1 Hc2 Hw H. destruct c; try done; simpl in H;
    apply exec_Ok in H as [r H]; revert Hw;
    change (keeps unpopulated w w'); revert H;
    [..|apply preserves_currentCanonicalDataSource; tc_solve].
  - by apply (keeps_ensureHostBufferPopulated (λ b, hostBufferIsPopulated b = false)).
  - unfold getPopulatedHostBufferRef. revert w r w'.
    apply preserves_bind; [tc_solve| |intros; apply preserves_gets; tc_solve].
    by apply (keeps_ensureHostBufferPopulated (λ b, hostBufferIsPopulated b = false)).
  - by apply (keeps_getValue (λ b, hostBufferIsPopulated b = false)).
  - by apply (keeps_size (λ b, hostBufferIsPopulated b = false)).
  - by apply (keeps_hasData (λ b, hostBufferIsPopulated b = false)).
  - by apply (keeps_getRenderAttributeBuffer (λ b, hostBufferIsPopulated b = false)).
  - by apply (keeps_markRenderAttributeBufferUpdated (λ b, hostBufferIsPopulated b = false)).
  - by apply (keeps_getIndexedRenderAttributeBuffer (λ b, hostBufferIsPopulated b = false)).
  - by apply (keeps_updateIndexedViews (λ b, hostBufferIsPopulated b = false)).
  - by apply (keeps_removeDeletedIndexedViews (λ b, hostBufferIsPopulated b = false)).
  - by apply (keeps_invalidateHostBuffer (λ b, hostBufferIsPopulated b = false)).
Qed.

End HostFlag.

(** C10.  With the device buffer as canonical source,
    [ensureHostBufferPopulated] copies the whole device contents into the
    host array and leaves [hostBufferIsPopulated] false: the source is still
    the device buffer, and [size] and [getValue] keep reading the device
    buffer.  The flag is true after the constructor without compute function
    and after [markHostBufferUpdated]; no other member function raises it
    (apart from [recomputeIfPopulated], which calls [markHostBufferUpdated])
    unless [computeFunc] does. *)
Theorem device_readback_leaves_flag (computeFunc : World' → Result World') w l :
  hostBufferIsPopulated (this w) = false →
  renderAttributeBuffer (this w) = Some l →
  let w' := with_this (set_data (bufferData w l)) w in
  ensureHostBufferPopulated computeFunc w = Ok (tt, w')
  ∧ data (this w') = bufferData w l
  ∧ hostBufferIsPopulated (this w') = false
  ∧ currentCanonicalDataSource w' = Ok (RenderBuffer, w')
  ∧ size w' = Ok (to_size_t (getDataSize w l), w')
  ∧ (∀ ind, getValue computeFunc ind w' =
       if getDataSize w l <=? to_int64 ind
       then Err (OutOfBoundsAccess (name (this w)) ind)
       else match getAttributeBufferData (bufferData w l) ind with
            | Some x => Ok (x, w')
            | None => Err UndefinedBehaviour
            end)
  ∧ (∀ name_ uid data_,
       hostBufferIsPopulated (ManagedBuffer_host (T := T) name_ uid data_) = true
       ∧ hostBufferIsPopulated (ManagedBuffer_computed (T := T) name_ uid data_) = false)
  ∧ (∀ w1 w2, exec markHostBufferUpdated w1 = Ok w2 →
       hostBufferIsPopulated (this w2) = true)
  ∧ (callbackPreserves (keeps (λ w, hostBufferIsPopulated (this w) = false)) computeFunc →
     ∀ c w1 w2, c ≠ MarkHostBufferUpdated → c ≠ RecomputeIfPopulated →
       hostBufferIsPopulated (this w1) = false →
       runCall computeFunc c w1 = Ok w2 →
       hostBufferIsPopulated (this w2) = false).
Proof.
  intros Hflag Hl w'.
  assert (currentCanonicalDataSource w' = Ok (RenderBuffer, w')) as Hsrc.
  { rewrite currentCanonicalDataSource_unfold. subst w'. simpl. by rewrite Hflag, Hl. }
  split; [by apply ensureHostBufferPopulated_from_device|].
  split; [done|]. split; [done|]. split; [done|].
  split; [|split; [|split; [|split]]].
  - rewrite size_unfold, Hsrc. subst w'. simpl. by rewrite Hl.
  - intros ind. rewrite getValue_unfold, Hsrc. subst w'. simpl. by rewrite Hl.
  - done.
  - intros w1 w2 H. run_step H. by apply markHostBufferUpdated_Ok in H as [vs ->].
  - intros Hcf c w1 w2. by apply runCall_keeps_unpopulated.
Qed.

(** *** Invocations of the compute function *)

Lemma computeCalls_log w e :
  computeCalls (log e w) = (computeCalls w + if isCompute e then 1 else 0)%nat.
Proof.
  unfold computeCalls. simpl. rewrite List.filter_app, length_app. simpl.
  by destruct (isCompute e).
Qed.

Global Instance sameComputeCalls_StepClosed :
  StepClosed (T := T) (IndexStore := IndexStore) (sameOn computeCalls).
Proof.
  split; [tc_solve | done | done |].
  intros w e He. unfold sameOn. rewrite computeCalls_log, He. lia.
Qed.

Lemma markHostBufferUpdated_computeCalls w u w' :
  markHostBufferUpdated w = Ok (u, w') → computeCalls w' = computeCalls w.
Proof.
  unfold markHostBufferUpdated. intros H. run_step H. run_step H. run_step H.
  apply (preserves_updateIndexedViews (sameOn computeCalls)) in H; [|done].
  rewrite H. clear H. destruct (renderAttributeBuffer _); [|by run H0].
  run H0. rewrite !computeCalls_log. simpl. unfold computeCalls. simpl. lia.
Qed.

(** C3.  With a [computeFunc] that obeys its contract (populate the host
    array, then [markHostBufferUpdated]), two calls of
    [ensureHostBufferPopulated] in a row invoke it at most once: the second
    call changes nothing, not even the trace.  When the first call did
    invoke it, the host buffer is populated afterwards. *)
Theorem ensureHostBufferPopulated_twice (computeFunc : World' → Result World') w w1 :
  obeysContract computeFunc →
  exec (ensureHostBufferPopulated computeFunc) w = Ok w1 →
  exec (ensureHostBufferPopulated computeFunc) w1 = Ok w1
  ∧ exec (ensureHostBufferPopulated computeFunc;;
          ensureHostBufferPopulated computeFunc) w = Ok w1
  ∧ (computeCalls w1 ≤ computeCalls w + 1)%nat
  ∧ (currentCanonicalDataSource w = Ok (NeedsCompute, w) →
     computeCalls w1 = (computeCalls w + 1)%nat
     ∧ hostBufferIsPopulated (this w1) = true).
Proof.
  intros [fill Hcf] H1.
  assert (exec (ensureHostBufferPopulated computeFunc) w1 = Ok w1
          ∧ (computeCalls w1 ≤ computeCalls w + 1)%nat
          ∧ (currentCanonicalDataSource w = Ok (NeedsCompute, w) →
             computeCalls w1 = (computeCalls w + 1)%nat
             ∧ hostBufferIsPopulated (this w1) = true)) as (H2 & Hle & Hnc).
  { revert H1. unfold exec at 1, ensureHostBufferPopulated at 1. unfold bind at 1.
    rewrite currentCanonicalDataSource_unfold.
    destruct (hostBufferIsPopulated (this w)) eqn:Hflag.
    - (* host data: nothing to do *)
      intros [= <-]. split; [|split; [lia|done]].
      unfold exec, ensureHostBufferPopulated, bind.
      by rewrite currentCanonicalDataSource_unfold, Hflag.
    - destruct (renderAttributeBuffer (this w)) as [l|] eqn:Hl.
      + (* device buffer: copied back, again the same *)
        pose proof (ensureHostBufferPopulated_from_device computeFunc w l Hflag Hl) as E.
        unfold ensureHostBufferPopulated in E. unfold bind at 1 in E.
        rewrite currentCanonicalDataSource_unfold, Hflag, Hl in E. rewrite E.
        intros [= <-]. split; [|split; [unfold computeCalls; simpl; lia|done]].
        unfold exec.
        by rewrite (ensureHostBufferPopulated_from_device _ _ l) by done.
      + destruct (dataGetsComputed (this w)) eqn:Hdgc; [|done].
        (* needs compute: one invocation, which notifies *)
        unfold call_computeFunc. rewrite Hcf. unfold populateAndNotify.
        destruct (exec markHostBufferUpdated _) as [w2|] eqn:E; [|done].
        intros [= <-]. run_step E.
        pose proof (markHostBufferUpdated_computeCalls _ _ _ E) as Hcalls.
        apply markHostBufferUpdated_Ok in E as [vs Hthis].
        assert (computeCalls w2 = (computeCalls w + 1)%nat) as Hcount.
        { rewrite Hcalls. apply (computeCalls_log w EvCompute). }
        split; [|split; [lia|by rewrite Hthis]].
        unfold exec, ensureHostBufferPopulated, bind.
        by rewrite currentCanonicalDataSource_unfold, Hthis. }
  split; [exact H2|]. split; [|split; [exact Hle | exact Hnc]].
  revert H1 H2. unfold exec, bind.
  destruct (ensureHostBufferPopulated computeFunc w) as [[[] w']|]; [|done].
  by intros [= ->].
Qed.

(** *** Live device objects stay alive *)

Lemma expired_false w l : expired w l = false ↔ is_Some (heap w !! l).
Proof. unfold expired. destruct (heap w !! l); split; (done || eauto || by intros []). Qed.

Lemma expired_insert w l l' d :
  expired w l = false → expired (with_heap <[l' := d]> w) l = false.
Proof.
  rewrite !expired_false. simpl. intros [x Hx].
  destruct (decide (l' = l)) as [->|Hne].
  - rewrite lookup_insert_eq. eauto.
  - rewrite lookup_insert_ne by done. eauto.
Qed.

Global Instance heapGrows_StepClosed :
  StepClosed (T := T) (IndexStore := IndexStore) heapGrows.
Proof.
  split.
  - split.
    + by intros w l.
    + intros w1 w2 w3 H12 H23 l Hl. by apply H23, H12.
  - intros w l d l' Hl'. by apply expired_insert.
  - by intros w a s _ l.
  - by intros w e _ l.
Qed.

(** *** One step of the refresh *)

Lemma indices_ensureHostBufferPopulated_Ok a w u w' :
  indices_ensureHostBufferPopulated a w = Ok (u, w') →
  ∃ s, index_ensureHostBufferPopulated a (indexBuffers w) = Ok s
       ∧ w' = with_indexBuffers s w.
Proof.
  unfold indices_ensureHostBufferPopulated.
  destruct (index_ensureHostBufferPopulated _ _) as [s|]; [|done].
  intros [= <-]. eauto.
Qed.

Lemma indices_data_Ok a w d w' :
  indices_data a w = Ok (d, w') → index_data (indexBuffers w) a = Some d ∧ w' = w.
Proof. unfold indices_data. intros H. run_step H. by run_prim H. Qed.

Lemma indices_uniqueID_Ok a w d w' :
  indices_uniqueID a w = Ok (d, w') → index_uniqueID (indexBuffers w) a = Some d ∧ w' = w.
Proof. unfold indices_uniqueID. intros H. run_step H. by run_prim H. Qed.

(** Decomposes the calls on index buffers among the hypotheses. *)
Ltac run_indices :=
  repeat match goal with
    | H : indices_ensureHostBufferPopulated _ _ = Ok _ |- _ =>
        apply indices_ensureHostBufferPopulated_Ok in H as (? & ? & ?); subst
    | H : indices_data _ _ = Ok _ |- _ =>
        apply indices_data_Ok in H as (? & ?); subst
    | H : indices_uniqueID _ _ = Ok _ |- _ =>
        apply indices_uniqueID_Ok in H as (? & ?); subst
    end.

Lemma updateIndexedView_dead v w :
  expired w (viewBuffer v) = true → updateIndexedView v w = Ok (v, w).
Proof. intros H. unfold updateIndexedView, bind, gets, lock. by rewrite H. Qed.

(** From host data: the view receives the gather of the host array. *)
Lemma updateIndexedView_host v w v' w' :
  hostBufferIsPopulated (this w) = true →
  expired w (viewBuffer v) = false →
  updateIndexedView v w = Ok (v', w') →
  v' = v
  ∧ ∃ s idata d,
      index_ensureHostBufferPopulated (indices v) (indexBuffers w) = Ok s
      ∧ index_data s (indices v) = Some idata
      ∧ gather (data (this w)) idata = Some d
      ∧ w' = log (EvSetData (viewBuffer v) d)
               (with_heap <[viewBuffer v := d]> (with_indexBuffers s w)).
Proof.
  intros Hflag Hlive. unfold updateIndexedView. unfold bind at 1, gets at 1, lock.
  rewrite Hlive. unfold bind at 1. rewrite currentCanonicalDataSource_unfold, Hflag.
  unfold bind at 1, indices_ensureHostBufferPopulated.
  destruct (index_ensureHostBufferPopulated _ _) as [s|] eqn:Es; [|done].
  unfold bind at 1, indices_data, bind at 1, gets at 1, defined. simpl.
  destruct (index_data s (indices v)) as [idata|] eqn:Ei; [|done]. simpl.
  unfold bind at 1, gets at 1. simpl. unfold bind at 1.
  destruct (gather (data (this w)) idata) as [d|] eqn:Eg; [|done]. simpl.
  intros [= <- <-]. split; [done|]. by exists s, idata, d.
Qed.

(** From the device: the view is refreshed by the feedback pass of its
    program, created on first use. *)
Lemma updateIndexedView_device v w v' w' :
  hostBufferIsPopulated (this w) = false →
  expired w (viewBuffer v) = false →
  updateIndexedView v w = Ok (v', w') →
  ∃ src p evs,
    renderAttributeBuffer (this w) = Some src
    ∧ v' = mkExistingViewEntry (indices v) (viewBuffer v) (Some p)
    ∧ (deviceUpdateProgram v = Some p
       ∨ deviceUpdateProgram v = None ∧ a_val_in p = src ∧ a_val_out p = viewBuffer v)
    ∧ trace w' = trace w ++ evs
    ∧ feedbackPrograms evs = [p].
Proof.
  intros Hflag Hlive. unfold updateIndexedView. unfold bind at 1, gets at 1, lock.
  rewrite Hlive. unfold bind at 1. rewrite currentCanonicalDataSource_unfold, Hflag.
  destruct (renderAttributeBuffer (this w)) as [src|] eqn:Hsrc;
    [|by destruct (dataGetsComputed _)].
  intros H. run_step H. run_step H. run_prim H.
  exists src, a. unfold computeFeedback in H1. run_step H1. run_step H1. run_prim H1.
  unfold ensureHaveBufferIndexCopyProgram in H0.
  destruct (deviceUpdateProgram v) as [p|] eqn:Hp.
  - run_prim H0. exists [EvFeedback a]. eauto 10.
  - run_step H0. simpl in H0. rewrite Hsrc in H0.
    run H0. run_indices. eexists [EvRequestShader; EvFeedback _].
    repeat split; [by right | simpl; by rewrite <- app_assoc].
Qed.

(** Whatever the source, an entry keeps its index buffer and its view
    buffer. *)
Lemma updateIndexedView_key v w v' w' :
  updateIndexedView v w = Ok (v', w') → entryKey v' = entryKey v.
Proof.
  intros H. destruct (expired w (viewBuffer v)) eqn:Hlive.
  - rewrite updateIndexedView_dead in H by done. by injection H as <- _.
  - destruct (hostBufferIsPopulated (this w)) eqn:Hflag.
    + by apply updateIndexedView_host in H as [-> _].
    + by apply updateIndexedView_device in H as (src & p & evs & _ & -> & _).
Qed.

(** *** The refresh from the device *)

Lemma feedbackPrograms_app (e1 e2 : list (Event T)) :
  feedbackPrograms (e1 ++ e2) = feedbackPrograms e1 ++ feedbackPrograms e2.
Proof. apply omap_app. Qed.

Lemma forEachView_device views w views' w' :
  hostBufferIsPopulated (this w) = false →
  Forall (λ v, expired w (viewBuffer v) = false) views →
  forEachView updateIndexedView views w = Ok (views', w') →
  ∃ evs, trace w' = trace w ++ evs
         ∧ map deviceUpdateProgram views' = map Some (feedbackPrograms evs)
         ∧ Forall2 (refreshedFrom (renderAttributeBuffer (this w))) views views'.
Proof.
  revert w views'. induction views as [|v rest IH]; simpl; intros w views' Hflag Hlive H.
  - run H. exists []. by rewrite app_nil_r.
  - apply Forall_cons in Hlive as [Hv Hrest].
    run_step H. run_step H. run_prim H.
    pose proof (preserves_updateIndexedView (sameOn (λ w, this w)) _ _ _ _ H0) as Hthis.
    pose proof (preserves_updateIndexedView heapGrows _ _ _ _ H0) as Hgrow.
    apply updateIndexedView_device in H0
      as (src & p & evs1 & Hsrc & -> & Hp & Htrace1 & Hfb1); [|done..].
    apply IH in H1 as (evs2 & Htrace2 & Hprogs & Hall).
    + exists (evs1 ++ evs2). split; [by rewrite Htrace2, Htrace1, app_assoc|].
      rewrite feedbackPrograms_app, Hfb1. simpl. split; [by rewrite Hprogs|].
      constructor.
      * split; [done|]. split; [by rewrite Hsrc|]. exists p. split; [done|].
        destruct Hp as [Hp|(Hp & Hin & Hout)]; [by left|right].
        by rewrite Hsrc, Hin.
      * by rewrite Hthis in Hall.
    + by rewrite Hthis.
    + eapply Forall_impl; [exact Hrest|]. intros v0. apply Hgrow.
Qed.

Lemma liveEntries_live w :
  Forall (λ v, expired w (viewBuffer v) = false) (liveEntries w).
Proof.
  unfold liveEntries. apply Forall_forall. intros v [_ Hv]%list_elem_of_In%filter_In.
  by apply negb_true_iff.
Qed.

Lemma filter_all_live w views :
  Forall (λ v, expired w (viewBuffer v) = false) views →
  List.filter (λ entry, negb (expired w (viewBuffer entry))) views = views.
Proof.
  induction 1 as [|v rest Hv _ IH]; simpl; [done|]. by rewrite Hv, IH.
Qed.

Lemma Forall2_entryKey rab views views' :
  Forall2 (refreshedFrom rab) views views' → map entryKey views' = map entryKey views.
Proof. induction 1 as [|v v' ? ? [Hk _] _ IH]; simpl; [done|]. by rewrite Hk, IH. Qed.

Lemma updateIndexedViews_first_raises w v rest e :
  liveEntries w = v :: rest →
  updateIndexedView v (with_this (set_existingIndexedViews (liveEntries w)) w) = Err e →
  updateIndexedViews w = Err e.
Proof.
  intros El H. unfold updateIndexedViews, removeDeletedIndexedViews.
  unfold bind at 1, modify at 1, bind at 1, gets at 1. fold (liveEntries w). simpl.
  change (existingIndexedViews
            (this (with_this (set_existingIndexedViews (liveEntries w)) w)))
    with (liveEntries w).
  apply bind_Err. left. rewrite El in *. simpl. apply bind_Err. by left.
Qed.

(** With a live view and no device buffer, the refresh of the first live
    view raises, in the world that the invalidation and the pruning leave:
    nothing has been logged yet. *)
Lemma markRenderAttributeBufferUpdated_raises w :
  renderAttributeBuffer (this w) = None →
  liveEntries w ≠ [] →
  let e := if dataGetsComputed (this w) then IndexedViewNeedsCompute
           else NoDataSource (name (this w)) in
  let w0 := with_this (set_existingIndexedViews (liveEntries w))
              (with_this (set_data [])
                 (with_this (set_hostBufferIsPopulated false) w)) in
  exec markRenderAttributeBufferUpdated w = Err e
  ∧ errorClass e = Some InternalConsistency
  ∧ (invalidateHostBuffer;; updateIndexedViews) w = Err e
  ∧ (invalidateHostBuffer;; removeDeletedIndexedViews) w = Ok (tt, w0)
  ∧ trace w0 = trace w
  ∧ ∃ v rest, liveEntries w = v :: rest ∧ updateIndexedView v w0 = Err e.
Proof.
  intros Hrab Hlive e w0.
  assert (∃ v rest, liveEntries w = v :: rest) as (v & rest & El).
  { destruct (liveEntries w); [done|eauto]. }
  set (wi := with_this (set_data []) (with_this (set_hostBufferIsPopulated false) w)).
  assert (liveEntries wi = v :: rest) as Eli by exact El.
  assert (expired w (viewBuffer v) = false) as Hv.
  { pose proof (liveEntries_live w) as H. rewrite El in H.
    by apply Forall_cons in H as [H _]. }
  assert (updateIndexedView v w0 = Err e) as Hstep.
  { unfold updateIndexedView. unfold bind at 1, gets at 1, lock.
    change (expired w0 (viewBuffer v)) with (expired w (viewBuffer v)). rewrite Hv.
    unfold bind at 1. rewrite currentCanonicalDataSource_unfold. subst w0 e. simpl.
    rewrite Hrab. by destruct (dataGetsComputed (this w)). }
  assert (updateIndexedViews wi = Err e) as Hupd.
  { apply (updateIndexedViews_first_raises wi v rest); [done|]. exact Hstep. }
  split; [|split; [|split; [|split; [done|split; [done|by exists v, rest]]]]].
  - unfold exec, markRenderAttributeBufferUpdated. unfold bind at 1.
    change (invalidateHostBuffer w) with (Ok (tt, wi)). cbv beta iota.
    unfold bind at 1. by rewrite Hupd.
  - subst e. by destruct (dataGetsComputed (this w)).
  - unfold bind at 1. change (invalidateHostBuffer w) with (Ok (tt, wi)). done.
Qed.

(** C7, as amended.  Whenever [markRenderAttributeBufferUpdated] returns,
    the host buffer is unpopulated and empty; the name, the unique id, the
    compute flag and the device buffer handle are untouched; the live cache
    entries are the same, in index buffer and in view buffer, but each now
    has a device update program (its own, or one created from the device
    buffer to the view), and the feedback pass of each has run, in order;
    the last thing done is the redraw request.  With a live view and no
    device buffer it does not return: the refresh of the first live view
    raises an internal-consistency error, "indexed view is being updated, but
    needs compute" when the buffer has a compute function and the
    no-data-source error of the source resolution otherwise.  The refresh
    comes before the redraw request: the method without its last step, the
    redraw request, raises already.  And the refresh raises in the world
    that the invalidation and the pruning of the cache have reached, whose
    trace is still the one of the start: no redraw has been requested, nor
    anything else. *)
Theorem markRenderAttributeBufferUpdated_frame w :
  (∀ w', exec markRenderAttributeBufferUpdated w = Ok w' →
     hostBufferIsPopulated (this w') = false
     ∧ data (this w') = []
     ∧ name (this w') = name (this w)
     ∧ uniqueID (this w') = uniqueID (this w)
     ∧ dataGetsComputed (this w') = dataGetsComputed (this w)
     ∧ renderAttributeBuffer (this w') = renderAttributeBuffer (this w)
     ∧ liveEntries w' = existingIndexedViews (this w')
     ∧ map entryKey (liveEntries w') = map entryKey (liveEntries w)
     ∧ Forall2 (refreshedFrom (renderAttributeBuffer (this w)))
         (liveEntries w) (liveEntries w')
     ∧ ∃ evs, trace w' = trace w ++ evs ++ [EvRedraw]
              ∧ map deviceUpdateProgram (liveEntries w')
                = map Some (feedbackPrograms evs))
  ∧ (renderAttributeBuffer (this w) = None → liveEntries w ≠ [] →
     let e := if dataGetsComputed (this w) then IndexedViewNeedsCompute
              else NoDataSource (name (this w)) in
     let w0 := with_this (set_existingIndexedViews (liveEntries w))
                 (with_this (set_data [])
                    (with_this (set_hostBufferIsPopulated false) w)) in
     exec markRenderAttributeBufferUpdated w = Err e
     ∧ errorClass e = Some InternalConsistency
     ∧ (invalidateHostBuffer;; updateIndexedViews) w = Err e
     ∧ (invalidateHostBuffer;; removeDeletedIndexedViews) w = Ok (tt, w0)
     ∧ trace w0 = trace w
     ∧ ∃ v rest, liveEntries w = v :: rest ∧ updateIndexedView v w0 = Err e).
Proof.
  split; [|apply markRenderAttributeBufferUpdated_raises]. intros w'.
  intros H. run_step H. unfold markRenderAttributeBufferUpdated in H.
  run_step H. run_step H. run_prim H.
  unfold invalidateHostBuffer in H0. run H0.
  set (w0 := with_this (set_data []) (with_this (set_hostBufferIsPopulated false) w)) in *.
  apply updateIndexedViews_Ok in H1 as (views' & w2 & Hloop & -> & Hthis).
  pose proof (preserves_forEachView_updateIndexedView heapGrows _ _ _ _ Hloop) as Hgrow.
  assert (liveEntries w0 = liveEntries w) as Hlive0 by done.
  apply forEachView_device in Hloop as (evs & Htrace & Hprogs & Hall);
    [|done|apply (liveEntries_live w0)].
  assert (liveEntries (log EvRedraw (with_this (set_existingIndexedViews views') w2))
          = views') as Hlive'.
  { unfold liveEntries. simpl. apply filter_all_live.
    apply Forall2_Forall_r with (1 := Hall).
    eapply Forall_impl; [apply (liveEntries_live w0)|].
    intros v Hv v' [Hk _]. injection Hk as _ Hvb. rewrite Hvb.
    by apply Hgrow in Hv. }
  assert (trace (log EvRedraw (with_this (set_existingIndexedViews views') w2))
          = trace w ++ evs ++ [EvRedraw]) as Htrace'.
  { simpl. rewrite Htrace. simpl. by rewrite app_assoc. }
  change (this (with_this (set_existingIndexedViews views') w2))
    with (this (log EvRedraw (with_this (set_existingIndexedViews views') w2))) in Hthis.
  revert Hthis Hlive' Htrace'.
  generalize (log EvRedraw (with_this (set_existingIndexedViews views') w2)).
  intros wf Hthis Hlive' Htrace'.
  rewrite Hlive', Hthis, Hlive0 in *. simpl in Hall.
  repeat split; try done.
  - by apply Forall2_entryKey in Hall.
  - by exists evs.
Qed.

(** *** The gather *)



(** *** The refresh from the host *)

Lemma expired_setData_live w l d l' :
  expired w l = false → expired (with_heap <[l := d]> w) l' = expired w l'.
Proof.
  intros Hl. unfold expired in *. simpl.
  destruct (decide (l = l')) as [->|Hne].
  - rewrite lookup_insert_eq. by destruct (heap w !! l').
  - by rewrite lookup_insert_ne.
Qed.

(** With the host as source, the entries are left as they are. *)
Lemma forEachView_host_entries views w views' w' :
  hostBufferIsPopulated (this w) = true →
  forEachView updateIndexedView views w = Ok (views', w') →
  views' = views.
Proof.
  revert w views'. induction views as [|v rest IH]; simpl; intros w views' Hflag H.
  - by run H.
  - run_step H. run_step H. run_prim H.
    pose proof (preserves_updateIndexedView (sameOn (λ w, this w)) _ _ _ _ H0) as Hthis.
    f_equal.
    + destruct (expired w (viewBuffer v)) eqn:Hlive.
      * rewrite updateIndexedView_dead in H0 by done. by injection H0 as <- _.
      * by apply updateIndexedView_host in H0 as [-> _].
    + eapply IH; [|exact H1]. by rewrite Hthis.
Qed.

(** *** The cache of indexed views *)

Lemma findExistingView_Some idx views w l w' :
  findExistingView idx views w = Ok (Some l, w') →
  expired w l = false
  ∧ ∃ v, v ∈ views ∧ viewBuffer v = l.
Proof.
  induction views as [|v rest IH]; simpl; intros H.
  - by run H.
  - unfold bind at 1, gets at 1, lock in H.
    destruct (expired w (viewBuffer v)) eqn:Hlive.
    + apply IH in H as (? & v0 & ? & ?). split; [done|]. exists v0. split; [by right|done].
    + unfold bind at 1 in H.
      destruct (indices_uniqueID (indices v) w) as [[candID w1]|] eqn:E1; [|done].
      apply indices_uniqueID_Ok in E1 as [_ ->]. unfold bind at 1 in H.
      destruct (indices_uniqueID idx w) as [[ownID w1]|] eqn:E2; [|done].
      apply indices_uniqueID_Ok in E2 as [_ ->].
      destruct (candID =? ownID).
      * run H. split; [done|]. exists v. split; [by left|done].
      * apply IH in H as (? & v0 & ? & ?). split; [done|]. exists v0.
        split; [by right|done].
Qed.

Lemma findExistingView_cons idx v rest w :
  findExistingView idx (v :: rest) w =
    if expired w (viewBuffer v) then findExistingView idx rest w
    else match index_uniqueID (indexBuffers w) (indices v),
               index_uniqueID (indexBuffers w) idx with
         | Some candID, Some ownID =>
             if candID =? ownID then Ok (Some (viewBuffer v), w)
             else findExistingView idx rest w
         | _, _ => Err UndefinedBehaviour
         end.
Proof.
  simpl. unfold bind at 1, gets at 1, lock.
  destruct (expired w (viewBuffer v)); [done|].
  unfold indices_uniqueID, bind, gets, defined.
  destruct (index_uniqueID (indexBuffers w) (indices v)); simpl; [|done].
  destruct (index_uniqueID (indexBuffers w) idx); simpl; [|done].
  by destruct (_ =? _).
Qed.

(** The scan reads the world through the liveness of the views and the ids
    of the index buffers only. *)
Lemma findExistingView_ext idx views w w' :
  Forall (λ v, expired w' (viewBuffer v) = expired w (viewBuffer v)) views →
  sameIDs w w' →
  value (findExistingView idx views) w' = value (findExistingView idx views) w.
Proof.
  intros Hlive Hids. induction Hlive as [|v rest Hv _ IH]; [done|].
  unfold value in *. rewrite !findExistingView_cons, Hv, !Hids.
  destruct (expired w (viewBuffer v)); [exact IH|].
  destruct (index_uniqueID (indexBuffers w) (indices v)); [|done].
  destruct (index_uniqueID (indexBuffers w) idx); [|done].
  destruct (_ =? _); [done|exact IH].
Qed.

Lemma findExistingView_value idx views w hit :
  value (findExistingView idx views) w = Ok hit ↔
  findExistingView idx views w = Ok (hit, w).
Proof.
  unfold value. split.
  - destruct (findExistingView idx views w) as [[hit' w']|] eqn:E; [|done].
    apply findExistingView_pure in E as ->. by intros [= ->].
  - by intros ->.
Qed.

Lemma findExistingView_app_miss idx views v w :
  findExistingView idx views w = Ok (None, w) →
  findExistingView idx (views ++ [v]) w = findExistingView idx [v] w.
Proof.
  induction views as [|v0 rest IH]; [done|].
  rewrite <- app_comm_cons, (findExistingView_cons idx v0 rest),
    (findExistingView_cons idx v0 (rest ++ [v])).
  destruct (expired w (viewBuffer v0)); [exact IH|].
  destruct (index_uniqueID (indexBuffers w) (indices v0)); [|done].
  destruct (index_uniqueID (indexBuffers w) idx); [|done].
  destruct (_ =? _); [done|exact IH].
Qed.

(** The scan reads its argument through its unique id only. *)
Lemma findExistingView_same_id idx idx' views w :
  index_uniqueID (indexBuffers w) idx' = index_uniqueID (indexBuffers w) idx →
  findExistingView idx' views w = findExistingView idx views w.
Proof.
  intros Hid. induction views as [|v rest IH]; [done|].
  rewrite !findExistingView_cons, Hid, IH. done.
Qed.

Lemma findExistingView_own idx l prog w :
  expired w l = false →
  is_Some (index_uniqueID (indexBuffers w) idx) →
  findExistingView idx [mkExistingViewEntry idx l prog] w = Ok (Some l, w).
Proof.
  intros Hlive [uid Huid]. rewrite findExistingView_cons. simpl.
  by rewrite Hlive, Huid, Z.eqb_refl.
Qed.

(** The two ways in which [getIndexedRenderAttributeBuffer] returns: a hit
    on a live entry of the cache, or a new view. *)
Lemma getIndexedRenderAttributeBuffer_Ok computeFunc idx w l w' :
  getIndexedRenderAttributeBuffer computeFunc idx w = Ok (l, w') →
  let w0 := with_this (set_existingIndexedViews (liveEntries w)) w in
  (findExistingView idx (liveEntries w) w0 = Ok (Some l, w0) ∧ w' = w0)
  ∨ (findExistingView idx (liveEntries w) w0 = Ok (None, w0)
     ∧ ∃ u w2 s idata d,
         ensureHostBufferPopulated computeFunc w0 = Ok (u, w2)
         ∧ l = nextLoc w2
         ∧ index_ensureHostBufferPopulated idx (indexBuffers w2) = Ok s
         ∧ index_data s idx = Some idata
         ∧ gather (data (this w2)) idata = Some d
         ∧ w' = mkWorld
                  (set_existingIndexedViews
                     (existingIndexedViews (this w2) ++ [mkExistingViewEntry idx l None])
                     (this w2))
                  (<[l := d]> (<[l := []]> (heap w2))) (Pos.succ l) s
                  (trace w2 ++ [EvAlloc l; EvSetData l d])).
Proof.
  intros H w0. unfold getIndexedRenderAttributeBuffer, removeDeletedIndexedViews in H.
  unfold bind at 1, modify at 1, bind at 1, gets at 1 in H. fold (liveEntries w) in H.
  fold w0 in H. simpl in H.
  change (existingIndexedViews (this w0)) with (liveEntries w) in H.
  unfold bind at 1 in H.
  destruct (findExistingView idx (liveEntries w) w0) as [[hit w1]|] eqn:Efind; [|done].
  pose proof (findExistingView_pure _ _ _ _ _ Efind) as ->.
  destruct hit as [l'|].
  - injection H as -> <-. by left.
  - right. split; [done|]. unfold bind at 1 in H.
    destruct (ensureHostBufferPopulated computeFunc w0) as [[u w2]|]; [|done].
    unfold bind at 1, generateAttributeBuffer in H. unfold bind at 1 in H.
    destruct (indices_ensureHostBufferPopulated idx _) as [[u' w3]|] eqn:Eens; [|done].
    apply indices_ensureHostBufferPopulated_Ok in Eens as (s & Hs & ->).
    unfold bind at 1 in H.
    destruct (indices_data idx _) as [[idata w4]|] eqn:Edata; [|done].
    apply indices_data_Ok in Edata as [Hidata ->].
    unfold bind at 1, gets at 1 in H. unfold bind at 1 in H. simpl in Hs, Hidata, H.
    destruct (gather (data (this w2)) idata) as [d|] eqn:Eg; [|done].
    injection H as <- <-.
    exists u, w2, s, idata, d. simpl. repeat split; try done.
    unfold with_this, log, with_heap, with_indexBuffers. simpl.
    by rewrite <- app_assoc.
Qed.

Lemma liveEntries_ext w w' :
  existingIndexedViews (this w') = existingIndexedViews (this w) →
  (∀ l, expired w' l = expired w l) →
  liveEntries w' = liveEntries w.
Proof.
  intros Hviews Hexp. unfold liveEntries. rewrite Hviews.
  apply filter_ext. intros v. by rewrite Hexp.
Qed.

(** The world in which [markHostBufferUpdated] starts the refresh of the
    cache. *)
Lemma markHostBufferUpdated_refresh w u w' :
  (∀ l, renderAttributeBuffer (this w) = Some l → expired w l = false) →
  markHostBufferUpdated w = Ok (u, w') →
  ∃ w1, updateIndexedViews w1 = Ok (u, w')
        ∧ this w1 = set_hostBufferIsPopulated true (this w)
        ∧ indexBuffers w1 = indexBuffers w
        ∧ ∀ l, expired w1 l = expired w l.
Proof.
  intros Hrab. unfold markHostBufferUpdated. intros H.
  run_step H. run_step H. run_step H. simpl in H0.
  destruct (renderAttributeBuffer (this w)) as [l|] eqn:El.
  - run H0. eexists. split; [exact H|]. split; [done|]. split; [done|].
    intros l'. apply (expired_setData_live (with_this _ w)). by apply Hrab.
  - run H0. eexists. by split; [exact H|].
Qed.

(** *** The refresh, once the loop over the cache has returned *)

Lemma updateIndexedViews_returns w views' w1 :
  forEachView updateIndexedView (liveEntries w)
    (with_this (set_existingIndexedViews (liveEntries w)) w) = Ok (views', w1) →
  updateIndexedViews w = Ok (tt, with_this (set_existingIndexedViews views') w1).
Proof.
  intros H. unfold updateIndexedViews, removeDeletedIndexedViews.
  unfold bind at 1, modify at 1, bind at 1, gets at 1. fold (liveEntries w). simpl.
  change (existingIndexedViews
            (this (with_this (set_existingIndexedViews (liveEntries w)) w)))
    with (liveEntries w).
  unfold bind at 1. by rewrite H.
Qed.


(** *** The refresh from the host, whatever the index buffers do *)








(** *** Creation of a view *)




(** *** Cache hits *)

Lemma getIndexedRenderAttributeBuffer_hit computeFunc idx w l :
  let w0 := with_this (set_existingIndexedViews (liveEntries w)) w in
  findExistingView idx (liveEntries w) w0 = Ok (Some l, w0) →
  getIndexedRenderAttributeBuffer computeFunc idx w = Ok (l, w0).
Proof.
  intros w0 H. unfold getIndexedRenderAttributeBuffer, removeDeletedIndexedViews.
  unfold bind at 1, modify at 1, bind at 1, gets at 1. fold (liveEntries w). fold w0.
  change (existingIndexedViews (this w0)) with (liveEntries w).
  unfold bind at 1. by rewrite H.
Qed.

Section WithStableIDs.

Hypothesis ensure_keeps_uniqueID : ∀ (a a' : addr) s s',
  index_ensureHostBufferPopulated a s = Ok s' → index_uniqueID s' a' = index_uniqueID s a'.

#[local] Instance sameIDs_StepClosed :
  StepClosed (T := T) (IndexStore := IndexStore) sameIDs.
Proof.
  split.
  - split.
    + by intros w a.
    + intros w1 w2 w3 H12 H23 a. by rewrite H23, H12.
  - by intros w l d a.
  - intros w a s Hs a'. simpl. by eapply ensure_keeps_uniqueID.
  - by intros w e _ a.
Qed.

(** What [ensureHostBufferPopulated] leaves of a cache without dead entries,
    under the contract of [computeFunc]. *)
Lemma ensureHostBufferPopulated_cache computeFunc w u w' :
  obeysContract computeFunc →
  Forall (λ v, expired w (viewBuffer v) = false) (existingIndexedViews (this w)) →
  ensureHostBufferPopulated computeFunc w = Ok (u, w') →
  existingIndexedViews (this w') = existingIndexedViews (this w)
  ∧ heapGrows w w' ∧ sameIDs w w'.
Proof.
  intros [fill Hcf] Hlive. unfold ensureHostBufferPopulated. unfold bind at 1.
  rewrite currentCanonicalDataSource_unfold.
  destruct (hostBufferIsPopulated (this w)) eqn:Hflag.
  { intros [= <- <-]. split; [done|]. split; reflexivity. }
  destruct (renderAttributeBuffer (this w)) as [l|] eqn:Hl.
  { unfold bind, gets, modify. rewrite Hl. intros [= <- <-].
    split; [done|]. by split; [intros ?|intros ?]. }
  destruct (dataGetsComputed (this w)); [|done].
  unfold call_computeFunc. rewrite Hcf. unfold populateAndNotify.
  set (w1 := with_this _ (log EvCompute w)).
  destruct (exec markHostBufferUpdated w1) as [w2|] eqn:E; [|done].
  intros [= <- <-]. run_step E.
  apply markHostBufferUpdated_refresh in E as (w3 & E & Hthis3 & Hib3 & Hexp3);
    [|by subst w1; simpl; rewrite Hl].
  assert (liveEntries w3 = existingIndexedViews (this w)) as Hlive3.
  { unfold liveEntries. rewrite Hthis3. subst w1. simpl. apply filter_all_live.
    eapply Forall_impl; [exact Hlive|]. intros v Hv. by rewrite Hexp3. }
  apply updateIndexedViews_Ok in E as (views' & w4 & Hloop & -> & Hthis4).
  rewrite Hlive3 in Hloop.
  pose proof (preserves_forEachView_updateIndexedView heapGrows _ _ _ _ Hloop) as Hgrow.
  pose proof (preserves_forEachView_updateIndexedView sameIDs _ _ _ _ Hloop) as Hids.
  apply forEachView_host_entries in Hloop as ->; [|by simpl; rewrite Hthis3].
  rewrite Hthis4. split; [done|]. split.
  - intros l Hl'. apply (Hgrow l). simpl. change (expired w3 l = false).
    by rewrite Hexp3.
  - intros a'. simpl. rewrite (Hids a'). simpl. by rewrite Hib3.
Qed.

End WithStableIDs.

(** C5.  Ask twice for the view through index buffers of the same unique
    id, with nothing in between (so that the first handle is still held and
    the data are unchanged): the second call returns the same device buffer
    object and changes nothing, neither heap, nor allocator, nor trace.  This
    needs the unique id of an index buffer to be constant and defined when
    its data are, and [computeFunc] to obey its contract. *)
Theorem indexed_view_cache_hit (computeFunc : World' → Result World') idx idx' w l w1 :
  (∀ (a a' : addr) s s', index_ensureHostBufferPopulated a s = Ok s' →
     index_uniqueID s' a' = index_uniqueID s a') →
  (∀ s (a : addr), is_Some (index_data s a) → is_Some (index_uniqueID s a)) →
  obeysContract computeFunc →
  getIndexedRenderAttributeBuffer computeFunc idx w = Ok (l, w1) →
  index_uniqueID (indexBuffers w1) idx' = index_uniqueID (indexBuffers w1) idx →
  getIndexedRenderAttributeBuffer computeFunc idx' w1 = Ok (l, w1).
Proof.
  intros Hid Hdata Hcf H Hsame.
  pose proof (liveEntries_live w) as Hlive.
  apply getIndexedRenderAttributeBuffer_Ok in H as [[Hfind ->]|[Hfind H]].
  - (* a hit already: the cache is as it was *)
    set (w0 := with_this (set_existingIndexedViews (liveEntries w)) w) in *.
    assert (liveEntries w0 = liveEntries w) as Hlive0.
    { unfold liveEntries at 1. simpl. by apply filter_all_live. }
    pose proof (getIndexedRenderAttributeBuffer_hit computeFunc idx' w0 l) as Hhit.
    simpl in Hhit. rewrite Hlive0 in Hhit.
    change (with_this (set_existingIndexedViews (liveEntries w)) w0) with w0 in Hhit.
    apply Hhit. by rewrite (findExistingView_same_id idx idx').
  - (* a miss: the new entry is found by the second scan *)
    revert Hsame. destruct H as (u & w2 & s & idata & d & Hens & -> & Hs & Hidata & Hg & ->).
    set (w0 := with_this (set_existingIndexedViews (liveEntries w)) w) in *.
    apply (ensureHostBufferPopulated_cache Hid) in Hens as (Hviews & Hgrow & Hids);
      [|done|exact Hlive].
    simpl in Hviews.
    set (new := mkExistingViewEntry idx (nextLoc w2) None).
    set (w1 := mkWorld _ _ _ _ _). intros Hsame.
    assert (∀ l0, expired w l0 = false → expired w1 l0 = false) as Hgrow1.
    { intros l0 Hl0. apply (Hgrow l0) in Hl0. revert Hl0. rewrite !expired_false.
      subst w1. simpl. intros [x Hx].
      destruct (decide (nextLoc w2 = l0)) as [->|Hne].
      - rewrite lookup_insert_eq. eauto.
      - rewrite !lookup_insert_ne by done. eauto. }
    assert (expired w1 (nextLoc w2) = false) as Hnew.
    { apply expired_false. subst w1. simpl. rewrite lookup_insert_eq. eauto. }
    assert (sameIDs w0 w1) as Hids1.
    { intros a. subst w1. simpl. rewrite (Hid _ _ _ _ Hs). apply Hids. }
    assert (liveEntries w1 = liveEntries w ++ [new]) as Hlive1.
    { unfold liveEntries at 1. subst w1. simpl. rewrite Hviews.
      apply filter_all_live. apply Forall_app. split.
      - eapply Forall_impl; [exact Hlive|]. intros v. apply Hgrow1.
      - by constructor. }
    pose proof (getIndexedRenderAttributeBuffer_hit computeFunc idx' w1 (nextLoc w2)) as Hhit.
    simpl in Hhit. rewrite Hlive1 in Hhit.
    replace (with_this (set_existingIndexedViews (liveEntries w ++ [new])) w1)
      with w1 in Hhit by (subst w1; simpl; by rewrite Hviews).
    apply Hhit. rewrite (findExistingView_same_id idx idx') by done.
    rewrite findExistingView_app_miss.
    + apply findExistingView_own; [done|].
      apply Hdata. subst w1. simpl. by rewrite Hidata.
    + apply findExistingView_value. rewrite (findExistingView_ext idx _ w0 w1).
      * by apply findExistingView_value.
      * eapply Forall_impl; [exact Hlive|]. intros v Hv.
        change (expired w0 (viewBuffer v)) with (expired w (viewBuffer v)).
        by rewrite Hv, Hgrow1.
      * done.
Qed.

(** *** Reads of the host array, one element and whole *)

Lemma checkedHostRead_value w ind :
  0 ≤ ind →
  checkedHostRead ind w =
    match data (this w) !! Z.to_nat ind with
    | Some x => Ok (x, w)
    | None => Err (OutOfBoundsAccess (name (this w)) ind)
    end.
Proof.
  intros Hind. unfold checkedHostRead, bind, gets. simpl.
  destruct (Z.leb_spec (Z.of_nat (length (data (this w)))) ind) as [Hle|Hlt].
  - rewrite (lookup_ge_None_2 (data (this w)) (Z.to_nat ind)) by lia. done.
  - destruct (lookup_lt_is_Some_2 (data (this w)) (Z.to_nat ind)) as [x ->]; [lia|done].
Qed.

(** X1.  Read after write: once the producer has written [d'] into its host
    array and [markHostBufferUpdated] has returned, [size] is the length of
    [d'] and [getValue(ind)] is element [ind] of [d'], or the out-of-bounds
    error when there is none; neither call changes anything, and
    [computeFunc] is not consulted. *)
Theorem getValue_after_markHostBufferUpdated
    (computeFunc : World' → Result World') w d' w2 ind :
  exec markHostBufferUpdated (with_this (set_data d') w) = Ok w2 →
  0 ≤ ind →
  size w2 = Ok (Z.of_nat (length d'), w2)
  ∧ getValue computeFunc ind w2 =
      match d' !! Z.to_nat ind with
      | Some x => Ok (x, w2)
      | None => Err (OutOfBoundsAccess (name (this w)) ind)
      end.
Proof.
  intros H Hind. run_step H. apply markHostBufferUpdated_Ok in H as [views' Hthis].
  split.
  - rewrite size_unfold, currentCanonicalDataSource_unfold, Hthis. done.
  - rewrite getValue_unfold, currentCanonicalDataSource_unfold.
    replace (hostBufferIsPopulated (this w2)) with true by by rewrite Hthis.
    rewrite checkedHostRead_value by done. by rewrite Hthis.
Qed.

(** X2.  [hasData] never raises and changes nothing.  It answers true
    exactly when the canonical source resolves to the host data or to the
    device buffer, and false exactly when the source is "needs compute" or
    the buffer has no source at all. *)
Theorem hasData_iff_source w :
  ∃ r : bool, hasData w = Ok (r, w)
       ∧ (r = true ↔
          ∃ src, currentCanonicalDataSource w = Ok (src, w) ∧ src ≠ NeedsCompute)
       ∧ (r = false ↔
          currentCanonicalDataSource w = Ok (NeedsCompute, w)
          ∨ currentCanonicalDataSource w = Err (NoDataSource (name (this w)))).
Proof.
  rewrite currentCanonicalDataSource_unfold. unfold hasData, bind, gets. simpl.
  destruct (hostBufferIsPopulated (this w)); simpl.
  - exists true. split; [done|]. split; split; try done.
    + intros _. by exists HostData.
    + by intros [|].
  - destruct (renderAttributeBuffer (this w)) as [l|]; simpl.
    + exists true. split; [done|]. split; split; try done.
      * intros _. by exists RenderBuffer.
      * by intros [|].
    + exists false. split; [done|]. split; split; try done.
      * intros (src & Hsrc & Hne). destruct (dataGetsComputed (this w)); [|done].
        by injection Hsrc as <-.
      * intros _. destruct (dataGetsComputed (this w)); eauto.
Qed.

(** *** Pruning of the cache *)

Lemma filter_sublist_of {A} (f : A → bool) (xs : list A) : List.filter f xs `sublist_of` xs.
Proof.
  induction xs as [|x xs IH]; simpl; [done|].
  destruct (f x); by constructor.
Qed.

(** X3.  [removeDeletedIndexedViews] never raises.  It keeps exactly the
    entries whose view buffer is alive, in their order, and touches nothing
    but the cache; a second pruning right after changes nothing. *)
Theorem removeDeletedIndexedViews_idempotent w :
  ∃ w', removeDeletedIndexedViews w = Ok (tt, w')
        ∧ existingIndexedViews (this w') `sublist_of` existingIndexedViews (this w)
        ∧ (∀ v, v ∈ existingIndexedViews (this w') ↔
                v ∈ existingIndexedViews (this w) ∧ expired w (viewBuffer v) = false)
        ∧ w' = with_this (set_existingIndexedViews (existingIndexedViews (this w'))) w
        ∧ removeDeletedIndexedViews w' = Ok (tt, w').
Proof.
  eexists. split; [reflexivity|]. simpl. fold (liveEntries w).
  split; [apply filter_sublist_of|]. split; [|split; [done|]].
  - intros v. unfold liveEntries. rewrite !list_elem_of_In, filter_In, negb_true_iff. done.
  - unfold removeDeletedIndexedViews, modify. simpl. do 2 f_equal.
    unfold with_this. simpl. f_equal. unfold set_existingIndexedViews. simpl. f_equal.
    apply (filter_all_live w), liveEntries_live.
Qed.

Lemma to_int64_large z : 2 ^ 63 ≤ z < 2 ^ 64 → to_int64 z = z - 2 ^ 64.
Proof.
  intros Hz. unfold to_int64.
  replace (z + 2 ^ 63) with (z - 2 ^ 63 + 1 * 2 ^ 64) by lia.
  rewrite Z_mod_plus_full, Z.mod_small; lia.
Qed.

(** X4.  The bounds check of [getValue] on the device buffer.  The index is
    compared as an [int64_t]: below [2^63] the check is exact, and the call
    returns the element of the device buffer at [ind], leaving the host array
    as it is, or raises the out-of-bounds error when [ind] is not below the
    size; from [2^63] on the converted index is negative, the check passes
    whatever the size, and the out-of-bounds error is never raised. *)
Theorem getValue_device_bounds (computeFunc : World' → Result World') w l ind :
  hostBufferIsPopulated (this w) = false →
  renderAttributeBuffer (this w) = Some l →
  (0 ≤ ind < 2 ^ 63 →
     getValue computeFunc ind w =
       match bufferData w l !! Z.to_nat ind with
       | Some x => Ok (x, w)
       | None => Err (OutOfBoundsAccess (name (this w)) ind)
       end)
  ∧ (2 ^ 63 ≤ ind < 2 ^ 64 →
     getValue computeFunc ind w =
       match bufferData w l !! Z.to_nat ind with
       | Some x => Ok (x, w)
       | None => Err UndefinedBehaviour
       end
     ∧ ∀ e, getValue computeFunc ind w = Err e → isOutOfRange e = false).
Proof.
  intros Hflag Hl.
  assert (getValue computeFunc ind w =
            if getDataSize w l <=? to_int64 ind
            then Err (OutOfBoundsAccess (name (this w)) ind)
            else match getAttributeBufferData (bufferData w l) ind with
                 | Some x => Ok (x, w)
                 | None => Err UndefinedBehaviour
                 end) as ->.
  { by rewrite getValue_unfold, currentCanonicalDataSource_unfold, Hflag, Hl. }
  unfold getAttributeBufferData, getDataSize. split; intros Hind.
  - rewrite to_int64_small by done.
    destruct (Z.leb_spec (Z.of_nat (length (bufferData w l))) ind) as [Hle|Hlt].
    + by rewrite (lookup_ge_None_2 (bufferData w l) (Z.to_nat ind)) by lia.
    + destruct (Z.ltb_spec ind 0); [lia|].
      by destruct (lookup_lt_is_Some_2 (bufferData w l) (Z.to_nat ind)) as [x ->]; [lia|].
  - rewrite to_int64_large by done.
    destruct (Z.leb_spec (Z.of_nat (length (bufferData w l))) (ind - 2 ^ 64)); [lia|].
    destruct (Z.ltb_spec ind 0); [lia|]. split; [done|].
    intros e. destruct (_ !! _); [done|]. by intros [= <-].
Qed.

(** X5.  [getValue] agrees with [getPopulatedHostBufferRef]: whenever the
    latter returns the array [d], [getValue(ind)] returns element [ind] of
    [d], and raises the out-of-bounds error when [d] has no such element.
    This holds for the three sources alike (host data, device buffer, compute
    function). *)
Theorem getValue_agrees_with_host_ref (computeFunc : World' → Result World') w d w' ind :
  getPopulatedHostBufferRef computeFunc w = Ok (d, w') →
  0 ≤ ind < 2 ^ 63 →
  value (getValue computeFunc ind) w =
    match d !! Z.to_nat ind with
    | Some x => Ok x
    | None => Err (OutOfBoundsAccess (name (this w')) ind)
    end.
Proof.
  intros H Hind. unfold getPopulatedHostBufferRef in H.
  apply bind_Ok in H as ([] & w1 & Hens & Hget). injection Hget as <- <-.
  unfold value. rewrite getValue_unfold.
  revert Hens. unfold ensureHostBufferPopulated. unfold bind at 1.
  rewrite currentCanonicalDataSource_unfold.
  destruct (hostBufferIsPopulated (this w)) eqn:Hflag.
  - intros [= <-]. rewrite checkedHostRead_value by lia. by destruct (_ !! _).
  - destruct (renderAttributeBuffer (this w)) as [l|] eqn:Hl.
    + unfold bind, gets, modify. rewrite Hl. intros [= <-]. simpl.
      unfold getDataSize. rewrite getAttributeBufferDataRange_all.
      rewrite to_int64_small by done. unfold getAttributeBufferData.
      destruct (Z.leb_spec (Z.of_nat (length (bufferData w l))) ind) as [Hle|Hlt].
      * by rewrite (lookup_ge_None_2 (bufferData w l) (Z.to_nat ind)) by lia.
      * destruct (Z.ltb_spec ind 0); [lia|].
        by destruct (lookup_lt_is_Some_2 (bufferData w l) (Z.to_nat ind)) as [x ->]; [lia|].
    + destruct (dataGetsComputed (this w)); [|done].
      intros Hc. unfold bind. rewrite Hc. rewrite checkedHostRead_value by lia.
      by destruct (_ !! _).
Qed.

(** X6.  When the canonical source is the host data or the device buffer,
    [getPopulatedHostBufferRef] returns, and the host array is all it
    changes: with the host data as source the world is left as it is; with
    the device buffer as source the device buffer is read and its contents
    become the host array.  Nothing is written to a device buffer, nothing is
    allocated or requested, and the compute function plays no part.  [size]
    is the length of the array returned.  (For "needs compute" [size] is 0
    whatever the compute function would produce.) *)
Theorem size_agrees_with_host_ref (computeFunc : World' → Result World') w src :
  currentCanonicalDataSource w = Ok (src, w) →
  src ≠ NeedsCompute →
  (∀ l, renderAttributeBuffer (this w) = Some l → getDataSize w l < 2 ^ 64) →
  ∃ d, getPopulatedHostBufferRef computeFunc w = Ok (d, with_this (set_data d) w)
       ∧ size w = Ok (Z.of_nat (length d), w)
       ∧ (src = HostData → d = data (this w) ∧ with_this (set_data d) w = w)
       ∧ (src = RenderBuffer →
          ∀ l, renderAttributeBuffer (this w) = Some l → d = bufferData w l).
Proof.
  intros Hsrc Hne Hsmall. rewrite size_unfold, Hsrc.
  unfold getPopulatedHostBufferRef, ensureHostBufferPopulated. unfold bind at 1 2.
  revert Hsrc. rewrite currentCanonicalDataSource_unfold.
  destruct (hostBufferIsPopulated (this w)) eqn:Hflag.
  - intros [= <-]. exists (data (this w)).
    assert (with_this (set_data (data (this w))) w = w) as Hw.
    { by destruct w as [[] ? ? ? ?]. }
    rewrite Hw. by repeat split.
  - destruct (renderAttributeBuffer (this w)) as [l|] eqn:Hl.
    + intros [= <-]. unfold bind, gets, modify. simpl. rewrite Hl.
      assert (getAttributeBufferDataRange (bufferData w l) 0 (getDataSize w l)
              = bufferData w l) as -> by apply getAttributeBufferDataRange_all.
      exists (bufferData w l). split; [done|]. simpl.
      pose proof (getDataSize_nonneg w l). pose proof (Hsmall l eq_refl).
      rewrite to_size_t_small by done. split; [done|]. split; [done|].
      by intros _ l' [= <-].
    + destruct (dataGetsComputed (this w)); [|done]. by intros [= <-].
Qed.

(** *** Without live views *)

Lemma updateIndexedViews_no_live w :
  liveEntries w = [] →
  updateIndexedViews w = Ok (tt, with_this (set_existingIndexedViews []) w).
Proof.
  intros Hlive.
  pose proof (updateIndexedViews_returns w [] (with_this (set_existingIndexedViews []) w)) as H.
  rewrite Hlive in H. by rewrite H.
Qed.

Lemma markRenderAttributeBufferUpdated_no_live w :
  liveEntries w = [] →
  markRenderAttributeBufferUpdated w =
    Ok (tt, log EvRedraw
              (with_this (set_existingIndexedViews [])
                 (with_this (set_data [])
                    (with_this (set_hostBufferIsPopulated false) w)))).
Proof.
  intros Hlive. unfold markRenderAttributeBufferUpdated. unfold bind at 1.
  set (w1 := with_this (set_data []) (with_this (set_hostBufferIsPopulated false) w)).
  assert (invalidateHostBuffer w = Ok (tt, w1)) as -> by done.
  assert (liveEntries w1 = []) as Hlive1.
  { rewrite <- Hlive. by apply liveEntries_ext. }
  unfold bind at 1. by rewrite (updateIndexedViews_no_live w1).
Qed.

(** X7.  [markRenderAttributeBufferUpdated] does not check that a device
    buffer exists.  On a buffer without device buffer, without compute
    function and without live views it returns normally, after clearing the
    host array and requesting a redraw, and leaves the buffer without any
    source: [hasData] answers false, and [size], [getValue],
    [ensureHostBufferPopulated] and [getRenderAttributeBuffer] all raise the
    internal-consistency error of the source resolution. *)
Theorem markRenderAttributeBufferUpdated_without_device
    (computeFunc : World' → Result World') w :
  renderAttributeBuffer (this w) = None →
  dataGetsComputed (this w) = false →
  liveEntries w = [] →
  ∃ w', exec markRenderAttributeBufferUpdated w = Ok w'
        ∧ data (this w') = []
        ∧ trace w' = trace w ++ [EvRedraw]
        ∧ hasData w' = Ok (false, w')
        ∧ size w' = Err (NoDataSource (name (this w)))
        ∧ (∀ ind, getValue computeFunc ind w' = Err (NoDataSource (name (this w))))
        ∧ ensureHostBufferPopulated computeFunc w' = Err (NoDataSource (name (this w)))
        ∧ getRenderAttributeBuffer computeFunc w' = Err (NoDataSource (name (this w)))
        ∧ errorClass (NoDataSource (name (this w))) = Some InternalConsistency.
Proof.
  intros Hrab Hdgc Hlive. eexists. split.
  { unfold exec. by rewrite markRenderAttributeBufferUpdated_no_live. }
  set (w' := log _ _).
  assert (currentCanonicalDataSource w' = Err (NoDataSource (name (this w)))) as Hsrc.
  { rewrite currentCanonicalDataSource_unfold. simpl. by rewrite Hrab, Hdgc. }
  split; [done|]. split; [done|]. split.
  { unfold hasData, bind, gets. simpl. by rewrite Hrab. }
  split; [by rewrite size_unfold, Hsrc|].
  split; [intros ind; by rewrite getValue_unfold, Hsrc|].
  assert (ensureHostBufferPopulated computeFunc w' = Err (NoDataSource (name (this w))))
    as Hens.
  { unfold ensureHostBufferPopulated. unfold bind at 1. by rewrite Hsrc. }
  split; [done|]. split; [|done].
  unfold getRenderAttributeBuffer. unfold bind at 1, gets at 1. simpl. rewrite Hrab.
  unfold bind at 1. by rewrite Hens.
Qed.

(** X8.  What the two constructors establish, whatever the rest of the
    world.  Without compute function: the source is the host data, [size] is
    the length of the array handed in, [getPopulatedHostBufferRef] returns
    that array without doing anything, and [recomputeIfPopulated] raises its
    usage error.  With compute function: the source is "needs compute",
    whatever the array handed in contains: [hasData] answers false, [size] is
    0 and [recomputeIfPopulated] does nothing.  The first access then invokes
    the compute function; when this one obeys its contract, the access leaves
    the array that the function wrote as host data, nothing else is asked of
    the collaborators (no upload, no redraw), and [getValue] reads that
    array. *)
Theorem constructors_initial_source (computeFunc : World' → Result World')
    name_ uid data_ h n ibs tr :
  let wh := mkWorld (ManagedBuffer_host name_ uid data_) h n ibs tr in
  let wc := mkWorld (ManagedBuffer_computed name_ uid data_) h n ibs tr in
  (currentCanonicalDataSource wh = Ok (HostData, wh)
   ∧ hasData wh = Ok (true, wh)
   ∧ size wh = Ok (Z.of_nat (length data_), wh)
   ∧ getPopulatedHostBufferRef computeFunc wh = Ok (data_, wh)
   ∧ recomputeIfPopulated computeFunc wh = Err RecomputeNotComputed)
  ∧ (currentCanonicalDataSource wc = Ok (NeedsCompute, wc)
     ∧ hasData wc = Ok (false, wc)
     ∧ size wc = Ok (0, wc)
     ∧ recomputeIfPopulated computeFunc wc = Ok (tt, wc))
  ∧ (∀ fill, (∀ w0, computeFunc w0 = populateAndNotify fill w0) →
       let d := fill (log EvCompute wc) in
       let w' := mkWorld (mkManagedBuffer name_ uid d true true None []) h n ibs
                   (tr ++ [EvCompute]) in
       ensureHostBufferPopulated computeFunc wc = Ok (tt, w')
       ∧ getPopulatedHostBufferRef computeFunc wc = Ok (d, w')
       ∧ size w' = Ok (Z.of_nat (length d), w')
       ∧ ∀ ind, 0 ≤ ind →
           getValue computeFunc ind wc =
             match d !! Z.to_nat ind with
             | Some x => Ok (x, w')
             | None => Err (OutOfBoundsAccess name_ ind)
             end).
Proof.
  intros wh wc. split; [by repeat split|]. split; [by repeat split|].
  intros fill Hcf d w'.
  assert (call_computeFunc computeFunc wc = Ok (tt, w')) as Hcall.
  { unfold call_computeFunc. rewrite Hcf. unfold populateAndNotify, exec.
    unfold markHostBufferUpdated. unfold bind at 1, modify at 1.
    unfold bind at 1, gets at 1. simpl. reflexivity. }
  assert (ensureHostBufferPopulated computeFunc wc = Ok (tt, w')) as Hens.
  { unfold ensureHostBufferPopulated. unfold bind at 1.
    by rewrite currentCanonicalDataSource_unfold. }
  split; [exact Hens|]. split.
  { unfold getPopulatedHostBufferRef. unfold bind at 1. by rewrite Hens. }
  split; [done|]. intros ind Hind.
  rewrite getValue_unfold, currentCanonicalDataSource_unfold. simpl.
  unfold bind at 1. rewrite Hcall. by rewrite checkedHostRead_value.
Qed.

(** *** Creation of the device buffer *)

Lemma getRenderAttributeBuffer_create computeFunc w w1 :
  renderAttributeBuffer (this w) = None →
  ensureHostBufferPopulated computeFunc w = Ok (tt, w1) →
  getRenderAttributeBuffer computeFunc w =
    Ok (nextLoc w1,
        mkWorld (set_renderAttributeBuffer (Some (nextLoc w1)) (this w1))
          (<[nextLoc w1 := data (this w1)]> (<[nextLoc w1 := []]> (heap w1)))
          (Pos.succ (nextLoc w1)) (indexBuffers w1)
          ((trace w1 ++ [EvAlloc (nextLoc w1)])
             ++ [EvSetData (nextLoc w1) (data (this w1))])).
Proof.
  intros Hrab Hens. unfold getRenderAttributeBuffer. unfold bind at 1, gets at 1.
  simpl. rewrite Hrab. unfold bind at 1. by rewrite Hens.
Qed.

(** X9.  The first [getRenderAttributeBuffer]: the host array is populated
    first (by [ensureHostBufferPopulated]), then one device buffer is
    allocated and filled with the host array, and this is all: the new buffer
    mirrors the host array, no other device buffer is written, the host array
    and its flag are as the population left them, and the engine sees one
    allocation and one upload.  On populated host data the call always
    returns. *)
Theorem getRenderAttributeBuffer_mirrors_host
    (computeFunc : World' → Result World') w :
  renderAttributeBuffer (this w) = None →
  (∀ l w', getRenderAttributeBuffer computeFunc w = Ok (l, w') →
     ∃ w1, ensureHostBufferPopulated computeFunc w = Ok (tt, w1)
           ∧ l = nextLoc w1
           ∧ this w' = set_renderAttributeBuffer (Some l) (this w1)
           ∧ heap w' !! l = Some (data (this w'))
           ∧ (∀ l', l' ≠ l → heap w' !! l' = heap w1 !! l')
           ∧ trace w' = trace w1 ++ [EvAlloc l; EvSetData l (data (this w1))])
  ∧ (hostBufferIsPopulated (this w) = true →
     ∃ w', getRenderAttributeBuffer computeFunc w = Ok (nextLoc w, w')).
Proof.
  intros Hrab. split.
  - intros l w' H.
    destruct (ensureHostBufferPopulated computeFunc w) as [[[] w1]|e] eqn:Hens.
    + rewrite (getRenderAttributeBuffer_create _ _ _ Hrab Hens) in H.
      injection H as <- <-. exists w1. simpl.
      split; [done|]. split; [done|]. split; [done|].
      split; [by rewrite lookup_insert_eq|].
      split; [|by rewrite <- app_assoc].
      intros l' Hne. by rewrite !lookup_insert_ne.
    + revert H. unfold getRenderAttributeBuffer. unfold bind at 1, gets at 1.
      simpl. rewrite Hrab. unfold bind at 1. by rewrite Hens.
  - intros Hflag. eexists. apply getRenderAttributeBuffer_create; [done|].
    unfold ensureHostBufferPopulated. unfold bind at 1.
    by rewrite currentCanonicalDataSource_unfold, Hflag.
Qed.

(** X10.  Round trip through the device.  On a buffer with populated host
    data [d], no device buffer and no indexed views: creating the device
    buffer, declaring it authoritative with
    [markRenderAttributeBufferUpdated] (which clears the host array), and
    asking for the host array again gives [d] back, read from the device;
    the compute function is never invoked and the host flag stays off. *)
Theorem host_device_host_round_trip (computeFunc : World' → Result World') w :
  hostBufferIsPopulated (this w) = true →
  renderAttributeBuffer (this w) = None →
  existingIndexedViews (this w) = [] →
  ∃ w', (getRenderAttributeBuffer computeFunc;;
         markRenderAttributeBufferUpdated;;
         getPopulatedHostBufferRef computeFunc) w = Ok (data (this w), w')
        ∧ renderAttributeBuffer (this w') = Some (nextLoc w)
        ∧ bufferData w' (nextLoc w) = data (this w)
        ∧ hostBufferIsPopulated (this w') = false
        ∧ computeCalls w' = computeCalls w.
Proof.
  intros Hflag Hrab Hviews.
  assert (ensureHostBufferPopulated computeFunc w = Ok (tt, w)) as Hens.
  { unfold ensureHostBufferPopulated. unfold bind at 1.
    by rewrite currentCanonicalDataSource_unfold, Hflag. }
  unfold bind at 1. rewrite (getRenderAttributeBuffer_create _ _ _ Hrab Hens).
  set (l := nextLoc w). set (w1 := mkWorld _ _ _ _ _).
  assert (liveEntries w1 = []) as Hlive.
  { unfold liveEntries. subst w1. simpl. by rewrite Hviews. }
  unfold bind at 1. rewrite (markRenderAttributeBufferUpdated_no_live w1 Hlive).
  set (w2 := log _ _).
  assert (bufferData w2 l = data (this w)) as Hdev.
  { unfold bufferData. subst w2 w1. simpl. by rewrite lookup_insert_eq. }
  unfold getPopulatedHostBufferRef. unfold bind at 1.
  rewrite (ensureHostBufferPopulated_from_device computeFunc w2 l) by done.
  unfold gets. simpl. rewrite Hdev. eexists. split; [done|]. simpl.
  split; [done|]. split; [|split; [done|]].
  - unfold bufferData. simpl. by rewrite lookup_insert_eq.
  - unfold computeCalls. simpl. rewrite !List.filter_app. simpl.
    by rewrite !app_nil_r.
Qed.

(** *** What a notification from the host does to the device *)

(** With the host as source, the loop writes to the view buffers of the
    entries and to nothing else, and the engine sees uploads only. *)
Lemma forEachView_host_frame views w views' w' :
  hostBufferIsPopulated (this w) = true →
  forEachView updateIndexedView views w = Ok (views', w') →
  (∀ l, l ∉ map viewBuffer views → heap w' !! l = heap w !! l)
  ∧ ∃ evs, trace w' = trace w ++ evs
           ∧ Forall (λ e, ∃ l d, e = EvSetData l d) evs.
Proof.
  revert w views'. induction views as [|v rest IH]; simpl; intros w views' Hflag H.
  - run H. split; [done|]. exists []. by rewrite app_nil_r.
  - run_step H. run_step H. run_prim H.
    destruct (expired w (viewBuffer v)) eqn:Hlive.
    + rewrite updateIndexedView_dead in H0 by done. injection H0 as <- <-.
      apply IH in H1 as [Hframe Htrace]; [|done]. split; [|done].
      intros l Hl. apply not_elem_of_cons in Hl as [_ Hl]. by apply Hframe.
    + apply updateIndexedView_host in H0
        as (-> & s & idata & d & _ & _ & _ & ->); [|done..].
      apply IH in H1 as [Hframe (evs & Htrace & Hevs)]; [|done]. simpl in *. split.
      * intros l Hl. apply not_elem_of_cons in Hl as [Hne Hl].
        rewrite Hframe by done. by apply lookup_insert_ne.
      * exists (EvSetData (viewBuffer v) d :: evs).
        split; [by rewrite Htrace, <- app_assoc|]. constructor; eauto.
Qed.

(** X11.  [markHostBufferUpdated] brings the device buffer up to date: when
    a device buffer exists (and is not itself the buffer of a cached view),
    it holds the host array when the call returns; the host array is as the
    producer left it and is the canonical source. *)
Theorem markHostBufferUpdated_uploads w l w' :
  renderAttributeBuffer (this w) = Some l →
  Forall (λ v, viewBuffer v ≠ l) (existingIndexedViews (this w)) →
  exec markHostBufferUpdated w = Ok w' →
  heap w' !! l = Some (data (this w))
  ∧ data (this w') = data (this w)
  ∧ currentCanonicalDataSource w' = Ok (HostData, w').
Proof.
  intros Hl Hviews H. run_step H.
  pose proof (markHostBufferUpdated_Ok _ _ _ H) as [vs Hthis].
  split; [|by rewrite currentCanonicalDataSource_unfold, Hthis].
  revert H. unfold markHostBufferUpdated. intros H.
  run_step H. run_step H. run_step H. simpl in H0. rewrite Hl in H0. run H0.
  apply updateIndexedViews_Ok in H as (views' & w2 & Hloop & -> & _).
  apply forEachView_host_frame in Hloop as [Hframe _]; [|done].
  simpl. rewrite Hframe.
  - simpl. by rewrite lookup_insert_eq.
  - intros Hin. apply list_elem_of_fmap in Hin as (v & -> & Hv).
    unfold liveEntries in Hv. apply list_elem_of_In, filter_In in Hv as [Hv _].
    apply list_elem_of_In in Hv. simpl in Hv.
    by eapply Forall_forall in Hviews.
Qed.


(** *** The device update program of a view is created once *)

Lemma updateIndexedView_reuse v p w v' w' :
  hostBufferIsPopulated (this w) = false →
  expired w (viewBuffer v) = false →
  deviceUpdateProgram v = Some p →
  updateIndexedView v w = Ok (v', w') →
  v' = v ∧ trace w' = trace w ++ [EvFeedback p].
Proof.
  intros Hflag Hlive Hp. unfold updateIndexedView. unfold bind at 1, gets at 1, lock.
  rewrite Hlive. unfold bind at 1. rewrite currentCanonicalDataSource_unfold, Hflag.
  destruct (renderAttributeBuffer (this w)) as [src|] eqn:Hsrc;
    [|by destruct (dataGetsComputed _)].
  rewrite Hp. unfold ensureHaveBufferIndexCopyProgram. unfold bind at 1, ret at 1.
  intros H. run_step H. run_prim H.
  unfold computeFeedback in H0. run_step H0. run_step H0. run_prim H0.
  split; [|done]. destruct v. simpl in Hp. by subst.
Qed.

Lemma forEachView_reuse views w views' w' :
  hostBufferIsPopulated (this w) = false →
  Forall (λ v, expired w (viewBuffer v) = false) views →
  Forall (λ v, is_Some (deviceUpdateProgram v)) views →
  forEachView updateIndexedView views w = Ok (views', w') →
  views' = views
  ∧ trace w' = trace w ++ map EvFeedback (omap deviceUpdateProgram views).
Proof.
  revert w views'.
  induction views as [|v rest IH]; simpl; intros w views' Hflag Hlive Hprogs H.
  - run H. by rewrite app_nil_r.
  - apply Forall_cons in Hlive as [Hv Hrest]. apply Forall_cons in Hprogs as [[p Hp] Hprest].
    run_step H. run_step H. run_prim H.
    pose proof (preserves_updateIndexedView (sameOn (λ w, this w)) _ _ _ _ H0) as Hthis.
    pose proof (preserves_updateIndexedView heapGrows _ _ _ _ H0) as Hgrow.
    apply (updateIndexedView_reuse v p) in H0 as [-> Htrace]; [|done..].
    apply IH in H1 as [-> Htrace2]; [|by rewrite Hthis| |done].
    + split; [done|]. rewrite Hp. simpl. by rewrite Htrace2, Htrace, <- app_assoc.
    + eapply Forall_impl; [exact Hrest|]. intros v0. apply Hgrow.
Qed.

(** After [markRenderAttributeBufferUpdated]: the host flag is off, and
    every entry of the cache is alive and has its program. *)
Lemma markRenderAttributeBufferUpdated_entries w w' :
  exec markRenderAttributeBufferUpdated w = Ok w' →
  hostBufferIsPopulated (this w') = false
  ∧ Forall (λ v, expired w' (viewBuffer v) = false) (existingIndexedViews (this w'))
  ∧ Forall (λ v, is_Some (deviceUpdateProgram v)) (existingIndexedViews (this w')).
Proof.
  intros H. run_step H. unfold markRenderAttributeBufferUpdated in H.
  run_step H. run_step H. run_prim H.
  unfold invalidateHostBuffer in H0. run H0.
  set (w0 := with_this (set_data []) (with_this (set_hostBufferIsPopulated false) w)) in *.
  apply updateIndexedViews_Ok in H1 as (views' & w2 & Hloop & -> & Hthis).
  pose proof (preserves_forEachView_updateIndexedView heapGrows _ _ _ _ Hloop) as Hgrow.
  pose proof (forEachView_updateIndexedView_this _ _ _ _ Hloop) as Hthis2.
  apply forEachView_device in Hloop as (evs & _ & _ & Hall);
    [|done|apply (liveEntries_live w0)].
  split; [|split].
  - change (hostBufferIsPopulated (this w2) = false). by rewrite Hthis2.
  - change (Forall (λ v, expired w2 (viewBuffer v) = false) views').
    apply Forall2_Forall_r with (1 := Hall).
    eapply Forall_impl; [apply (liveEntries_live w0)|].
    intros v Hv v' [Hk _]. injection Hk as _ Hvb. rewrite Hvb.
    by apply Hgrow in Hv.
  - change (Forall (λ v, is_Some (deviceUpdateProgram v)) views').
    apply Forall2_Forall_r with (1 := Hall). apply Forall_true.
    intros v v' (_ & _ & p & Hp & _). eauto.
Qed.

(** X13.  The device update program of a view is created once.  A second
    [markRenderAttributeBufferUpdated] after a first one leaves the cache
    exactly as it is, requests no shader, and does nothing but run the
    feedback pass of the program stored in each entry, in the order of the
    cache, followed by the redraw request. *)
Theorem deviceUpdateProgram_created_once w w1 w2 :
  exec markRenderAttributeBufferUpdated w = Ok w1 →
  exec markRenderAttributeBufferUpdated w1 = Ok w2 →
  existingIndexedViews (this w2) = existingIndexedViews (this w1)
  ∧ Forall (λ v, is_Some (deviceUpdateProgram v)) (existingIndexedViews (this w1))
  ∧ trace w2 =
      trace w1
      ++ map EvFeedback (omap deviceUpdateProgram (existingIndexedViews (this w1)))
      ++ [EvRedraw].
Proof.
  intros (Hflag & Hlive & Hprogs)%markRenderAttributeBufferUpdated_entries H.
  run_step H. unfold markRenderAttributeBufferUpdated in H.
  run_step H. run_step H. run_prim H.
  unfold invalidateHostBuffer in H0. run H0.
  set (w0 := with_this (set_data []) (with_this (set_hostBufferIsPopulated false) w1)) in *.
  apply updateIndexedViews_Ok in H1 as (views' & wl & Hloop & -> & Hthis).
  assert (liveEntries w0 = existingIndexedViews (this w1)) as Hlive0
    by (by apply filter_all_live).
  rewrite Hlive0 in Hloop.
  apply forEachView_reuse in Hloop as [-> Htrace]; [|done..].
  split; [|split; [done|]].
  - change (existingIndexedViews
              (this (with_this (set_existingIndexedViews (existingIndexedViews (this w1))) wl))
            = existingIndexedViews (this w1)).
    by rewrite Hthis.
  - simpl. rewrite Htrace. simpl. by rewrite <- app_assoc.
Qed.

(** *** Recomputation with a compute function that obeys its contract *)

Lemma computeCalls_with_this (f : ManagedBuffer T → ManagedBuffer T) w :
  computeCalls (with_this f w) = computeCalls w.
Proof. done. Qed.

(** X14.  [recomputeIfPopulated] with a compute function that obeys its
    contract (fill the host array, then [markHostBufferUpdated]): unless the
    source is "needs compute", the old host array is dropped, the compute
    function is invoked exactly once, and when the call returns the host
    array is what the function wrote and is the canonical source. *)
Theorem recomputeIfPopulated_recomputes
    (computeFunc : World' → Result World') (fill : World' → list T) w w' :
  (∀ w0, computeFunc w0 = populateAndNotify fill w0) →
  dataGetsComputed (this w) = true →
  currentCanonicalDataSource w ≠ Ok (NeedsCompute, w) →
  exec (recomputeIfPopulated computeFunc) w = Ok w' →
  data (this w')
    = fill (log EvCompute
              (with_this (set_data []) (with_this (set_hostBufferIsPopulated false) w)))
  ∧ currentCanonicalDataSource w' = Ok (HostData, w')
  ∧ computeCalls w' = S (computeCalls w).
Proof.
  intros Hcf Hd Hs H.
  assert (exec (invalidateHostBuffer;; call_computeFunc computeFunc;;
                markHostBufferUpdated) w = Ok w') as Hbody.
  { revert H Hs. unfold exec, recomputeIfPopulated. unfold bind at 1 2, gets.
    rewrite Hd. simpl. unfold bind at 1.
    destruct (currentCanonicalDataSource w) as [[src ws]|e] eqn:Hsrc; [|done].
    apply currentCanonicalDataSource_pure in Hsrc as Hws. subst ws.
    by destruct src. }
  clear H. apply exec_Ok in Hbody as [u Hbody].
  apply bind_Ok in Hbody as (u1 & wi & Hinv & Hbody).
  injection Hinv as _ <-.
  apply bind_Ok in Hbody as (u2 & wc & Hcall & Hmark).
  unfold call_computeFunc in Hcall. rewrite Hcf in Hcall. unfold populateAndNotify in Hcall.
  set (wl := log EvCompute _) in *.
  destruct (exec markHostBufferUpdated (with_this (set_data (fill wl)) wl))
    as [wn|] eqn:Hnotify; [|done].
  injection Hcall as _ <-. apply exec_Ok in Hnotify as [u3 Hnotify].
  pose proof (markHostBufferUpdated_Ok _ _ _ Hnotify) as [vs1 Hthis1].
  pose proof (markHostBufferUpdated_Ok _ _ _ Hmark) as [vs2 Hthis2].
  apply markHostBufferUpdated_computeCalls in Hnotify, Hmark.
  split; [by rewrite Hthis2, Hthis1|].
  split; [by rewrite currentCanonicalDataSource_unfold, Hthis2|].
  rewrite Hmark, Hnotify, computeCalls_with_this. subst wl.
  rewrite computeCalls_log, !computeCalls_with_this. simpl. lia.
Qed.

(** *** The identity of the buffer *)

Section Identity.

Variable computeFunc : World' → Result World'.
Variable b0 : ManagedBuffer T.

Let hasIdentity : World' → Prop :=
  λ w, name (this w) = name b0
       ∧ uniqueID (this w) = uniqueID b0
       ∧ dataGetsComputed (this w) = dataGetsComputed b0.

Hypothesis computeFunc_keeps : callbackPreserves (keeps hasIdentity) computeFunc.

Lemma runCall_keeps_identity c w w' :
  hasIdentity w → runCall computeFunc c w = Ok w' → hasIdentity w'.
Proof.
  set (Q := λ b : ManagedBuffer T,
         name b = name b0 ∧ uniqueID b = uniqueID b0
         ∧ dataGetsComputed b = dataGetsComputed b0).
  intros Hw H. destruct c; simpl in H; apply exec_Ok in H as [r H]; revert Hw;
    change (keeps hasIdentity w w'); revert H;
    [..|apply preserves_currentCanonicalDataSource; tc_solve].
  - by apply (keeps_ensureHostBufferPopulated Q).
  - unfold getPopulatedHostBufferRef. revert w r w'.
    apply preserves_bind; [tc_solve| |intros; apply preserves_gets; tc_solve].
    by apply (keeps_ensureHostBufferPopulated Q).
  - by apply (keeps_markHostBufferUpdated Q).
  - by apply (keeps_getValue Q).
  - by apply (keeps_size Q).
  - by apply (keeps_hasData Q).
  - by apply (keeps_recomputeIfPopulated Q).
  - by apply (keeps_getRenderAttributeBuffer Q).
  - by apply (keeps_markRenderAttributeBufferUpdated Q).
  - by apply (keeps_getIndexedRenderAttributeBuffer Q).
  - by apply (keeps_updateIndexedViews Q).
  - by apply (keeps_removeDeletedIndexedViews Q).
  - by apply (keeps_invalidateHostBuffer Q).
Qed.

Lemma runCalls_keeps_identity cs w w' :
  hasIdentity w → runCalls computeFunc cs w = Ok w' → hasIdentity w'.
Proof.
  revert w. induction cs as [|c cs IH]; simpl; intros w Hw H.
  - by injection H as <-.
  - destruct (runCall computeFunc c w) as [w1|] eqn:E; [|done].
    eapply IH; [|exact H]. eapply runCall_keeps_identity; eassumption.
Qed.

End Identity.

(** X15.  No member function changes the identity of the buffer: through
    every sequence of calls the name, the unique id and the compute flag
    stay what the constructor made them, provided [computeFunc] leaves them
    alone.  In particular a buffer constructed without compute function
    never becomes a computed one: [recomputeIfPopulated] raises its usage
    error after any sequence of calls. *)
Theorem identity_never_changes (computeFunc : World' → Result World') cs w w' :
  (∀ b0, callbackPreserves
           (keeps (λ w, name (this w) = name b0
                        ∧ uniqueID (this w) = uniqueID b0
                        ∧ dataGetsComputed (this w) = dataGetsComputed b0))
           computeFunc) →
  runCalls computeFunc cs w = Ok w' →
  name (this w') = name (this w)
  ∧ uniqueID (this w') = uniqueID (this w)
  ∧ dataGetsComputed (this w') = dataGetsComputed (this w)
  ∧ (dataGetsComputed (this w) = false →
     recomputeIfPopulated computeFunc w' = Err RecomputeNotComputed).
Proof.
  intros Hcf H.
  destruct (runCalls_keeps_identity computeFunc (this w) (Hcf (this w)) cs w w')
    as (Hn & Hu & Hd); [done|done|].
  split; [done|]. split; [done|]. split; [done|].
  intros Hfalse. unfold recomputeIfPopulated, bind, gets. simpl.
  by rewrite Hd, Hfalse.
Qed.

(** *** The sanity checks *)

Lemma raisesOnly_forEachView_body (P : Error → Prop)
    (body : ExistingViewEntry → M World' ExistingViewEntry) views :
  (∀ v, raisesOnly P (body v)) → raisesOnly P (forEachView body views).
Proof.
  intros Hbody. induction views as [|v rest IH]; simpl; raises.
Qed.

Lemma raisesOnly_apply {A} (P : Error → Prop) (m : M World' A) w e :
  raisesOnly P m → m w = Err e → P e.
Proof. intros H. apply H. Qed.

Section SanityChecks.

Let notNoBuffers : Error → Prop := λ e, ∀ n, e ≠ NoBuffersForIndexCopy n.

Hypothesis index_notNoBuffers :
  ∀ a s e, index_ensureHostBufferPopulated a s = Err e → notNoBuffers e.

Lemma notNoBuffers_indices_ensureHostBufferPopulated a :
  raisesOnly notNoBuffers (indices_ensureHostBufferPopulated (T := T) a).
Proof.
  intros w e. unfold indices_ensureHostBufferPopulated.
  destruct (index_ensureHostBufferPopulated _ _) eqn:E; [done|].
  intros [= <-]. eapply index_notNoBuffers, E.
Qed.

Lemma notNoBuffers_updateIndexedView v :
  raisesOnly notNoBuffers (updateIndexedView (T := T) v).
Proof.
  intros w e. unfold updateIndexedView. unfold bind at 1, gets at 1.
  destruct (lock w (viewBuffer v)) as [target|]; [|done].
  unfold bind at 1. rewrite currentCanonicalDataSource_unfold.
  destruct (hostBufferIsPopulated (this w)).
  - refine (raisesOnly_apply notNoBuffers _ w e _).
    unfold indices_data, setData. raises.
    apply notNoBuffers_indices_ensureHostBufferPopulated.
  - destruct (renderAttributeBuffer (this w)) as [src|] eqn:Hsrc.
    + intros [H|(p & w1 & _ & H)]%bind_Err.
      * revert H. unfold ensureHaveBufferIndexCopyProgram.
        destruct (deviceUpdateProgram v); [done|].
        unfold bind at 1, gets at 1. simpl. rewrite Hsrc.
        refine (raisesOnly_apply notNoBuffers _ w e _).
        unfold indices_data. raises.
        apply notNoBuffers_indices_ensureHostBufferPopulated.
      * revert H. refine (raisesOnly_apply notNoBuffers _ w1 e _).
        unfold computeFeedback. raises.
    + destruct (dataGetsComputed (this w)); by intros [= <-].
Qed.

Lemma notNoBuffers_updateIndexedViews :
  raisesOnly notNoBuffers (updateIndexedViews (T := T)).
Proof.
  unfold updateIndexedViews, removeDeletedIndexedViews. raises.
  apply raisesOnly_forEachView_body, notNoBuffers_updateIndexedView.
Qed.

End SanityChecks.

(** X16.  The two sanity checks of the translation unit never fire.  The
    resolution of the source answers "device buffer" only when the device
    buffer exists, so [ensureHostBufferPopulated] does not raise "render
    buffer should be allocated but isn't", and the refresh of the views,
    [markHostBufferUpdated] and [markRenderAttributeBufferUpdated] do not
    raise "asked to copy indices, but has no buffers", unless a callback or
    an index buffer raises these errors itself. *)
Theorem sanity_checks_never_fire (computeFunc : World' → Result World') w :
  ((∀ w0, computeFunc w0 ≠ Err RenderBufferNotAllocated) →
   ensureHostBufferPopulated computeFunc w ≠ Err RenderBufferNotAllocated)
  ∧ ((∀ a s n, index_ensureHostBufferPopulated a s ≠ Err (NoBuffersForIndexCopy n)) →
     ∀ n, updateIndexedViews w ≠ Err (NoBuffersForIndexCopy n)
          ∧ markHostBufferUpdated w ≠ Err (NoBuffersForIndexCopy n)
          ∧ markRenderAttributeBufferUpdated w ≠ Err (NoBuffersForIndexCopy n)).
Proof.
  split.
  - intros Hcf. unfold ensureHostBufferPopulated. unfold bind at 1.
    rewrite currentCanonicalDataSource_unfold.
    destruct (hostBufferIsPopulated (this w)); [done|].
    destruct (renderAttributeBuffer (this w)) as [l|] eqn:Hl.
    + unfold bind, gets. simpl. by rewrite Hl.
    + destruct (dataGetsComputed (this w)); [|done].
      unfold call_computeFunc. specialize (Hcf (log EvCompute w)).
      destruct (computeFunc _); [done|]. congruence.
  - intros Hidx n.
    assert (∀ a s e, index_ensureHostBufferPopulated a s = Err e →
                     ∀ n, e ≠ NoBuffersForIndexCopy n) as Hidx'.
    { intros a s e He n' ->. by eapply Hidx. }
    pose proof (notNoBuffers_updateIndexedViews Hidx') as Hup.
    split; [|split]; intros H.
    + by apply (Hup _ _ H n).
    + assert (raisesOnly (λ e, e ≠ NoBuffersForIndexCopy n)
                (markHostBufferUpdated (T := T) (IndexStore := IndexStore))) as Hm.
      { unfold markHostBufferUpdated, setData, requestRedraw. raises.
        intros w0 e H0. by apply (Hup _ _ H0 n). }
      by apply (Hm _ _ H).
    + assert (raisesOnly (λ e, e ≠ NoBuffersForIndexCopy n)
                (markRenderAttributeBufferUpdated (T := T) (IndexStore := IndexStore))) as Hm.
      { unfold markRenderAttributeBufferUpdated, invalidateHostBuffer, requestRedraw. raises.
        intros w0 e H0. by apply (Hup _ _ H0 n). }
      by apply (Hm _ _ H).
Qed.

(** *** The refresh from the device: what the views hold *)

(** One entry: the program of the entry (created now if there was none)
    reads the device buffer and writes the view, which receives the gather
    of the device buffer through the index stream of the program. *)
Lemma updateIndexedView_device_heap v w v' w' src :
  hostBufferIsPopulated (this w) = false →
  renderAttributeBuffer (this w) = Some src →
  expired w (viewBuffer v) = false →
  (∀ p, deviceUpdateProgram v = Some p →
        a_val_in p = src ∧ a_val_out p = viewBuffer v) →
  updateIndexedView v w = Ok (v', w') →
  ∃ p d s,
    v' = mkExistingViewEntry (indices v) (viewBuffer v) (Some p)
    ∧ gather (bufferData w src) (prog_index p) = Some d
    ∧ heap w' = <[viewBuffer v := d]> (heap w)
    ∧ indexBuffers w' = s
    ∧ match deviceUpdateProgram v with
      | Some p0 => p = p0 ∧ s = indexBuffers w
      | None => index_ensureHostBufferPopulated (indices v) (indexBuffers w) = Ok s
                ∧ index_data s (indices v) = Some (prog_index p)
      end.
Proof.
  intros Hflag Hsrc Hlive Hbound. unfold updateIndexedView.
  unfold bind at 1, gets at 1, lock. rewrite Hlive. unfold bind at 1.
  rewrite currentCanonicalDataSource_unfold, Hflag, Hsrc.
  intros H. apply bind_Ok in H as (p & w1 & Hprog & H).
  apply bind_Ok in H as ([] & w2 & Hfb & H). injection H as <- <-.
  assert (a_val_in p = src ∧ a_val_out p = viewBuffer v ∧ heap w1 = heap w
          ∧ match deviceUpdateProgram v with
            | Some p0 => p = p0 ∧ indexBuffers w1 = indexBuffers w
            | None =>
                index_ensureHostBufferPopulated (indices v) (indexBuffers w)
                  = Ok (indexBuffers w1)
                ∧ index_data (indexBuffers w1) (indices v) = Some (prog_index p)
            end) as (Hin & Hout & Hheap & Hidx).
  { unfold ensureHaveBufferIndexCopyProgram in Hprog.
    destruct (deviceUpdateProgram v) as [p0|] eqn:Hp.
    - injection Hprog as <- <-. by destruct (Hbound _ eq_refl).
    - run_step Hprog. simpl in Hprog. rewrite Hsrc in Hprog.
      run Hprog. run_indices. done. }
  unfold computeFeedback in Hfb.
  apply bind_Ok in Hfb as (dsrc & w3 & Hread & Hfb). injection Hread as <- <-.
  apply bind_Ok in Hfb as (d & w3 & Hg & Hfb).
  apply defined_Ok in Hg as (d' & Hg & [= <- <-]). injection Hfb as <-.
  exists p, d, (indexBuffers w3). split; [done|]. split.
  { revert Hg. unfold bufferData. by rewrite Hheap, Hin. }
  split; [simpl; by rewrite Hheap, Hout|]. split; [done|].
  destruct (deviceUpdateProgram v); done.
Qed.

Lemma forEachView_device_heap views w views' w' src :
  hostBufferIsPopulated (this w) = false →
  renderAttributeBuffer (this w) = Some src →
  Forall (λ v, expired w (viewBuffer v) = false) views →
  NoDup (map viewBuffer views) →
  src ∉ map viewBuffer views →
  Forall (λ v, ∀ p, deviceUpdateProgram v = Some p →
                    a_val_in p = src ∧ a_val_out p = viewBuffer v) views →
  Forall (λ v, index_ensureHostBufferPopulated (indices v) (indexBuffers w)
               = Ok (indexBuffers w)) views →
  forEachView updateIndexedView views w = Ok (views', w') →
  indexBuffers w' = indexBuffers w
  ∧ (∀ l, l ∉ map viewBuffer views → heap w' !! l = heap w !! l)
  ∧ Forall2 (λ v v', ∃ p d,
               v' = mkExistingViewEntry (indices v) (viewBuffer v) (Some p)
               ∧ gather (bufferData w src) (prog_index p) = Some d
               ∧ heap w' !! viewBuffer v = Some d
               ∧ (deviceUpdateProgram v = None →
                  index_data (indexBuffers w) (indices v) = Some (prog_index p)))
      views views'.
Proof.
  revert w views'.
  induction views as [|v rest IH]; simpl;
    intros w views' Hflag Hsrc Hlive Hnodup Hnotin Hbound Hidx H.
  - run H. by repeat split.
  - apply Forall_cons in Hlive as [Hv Hrest]. apply Forall_cons in Hbound as [Hbv Hbrest].
    apply Forall_cons in Hidx as [Hiv Hirest].
    apply NoDup_cons in Hnodup as [Hvnotin Hnodup].
    apply not_elem_of_cons in Hnotin as [Hne Hnotin].
    apply bind_Ok in H as (v1 & w1 & Hstep & H).
    apply bind_Ok in H as (rest' & w2 & Hloop & H). injection H as <- <-.
    pose proof (preserves_updateIndexedView (sameOn (λ w, this w)) _ _ _ _ Hstep) as Hthis.
    pose proof (preserves_updateIndexedView heapGrows _ _ _ _ Hstep) as Hgrow.
    apply (updateIndexedView_device_heap v w v1 w1 src) in Hstep
      as (p & d & s & -> & Hg & Hheap & Hs & Hprog); [|done..].
    assert (s = indexBuffers w) as ->.
    { destruct (deviceUpdateProgram v); [by destruct Hprog|].
      destruct Hprog as [Hprog _]. rewrite Hiv in Hprog. by injection Hprog. }
    assert (bufferData w1 src = bufferData w src) as Hdev.
    { unfold bufferData. by rewrite Hheap, lookup_insert_ne. }
    apply IH in Hloop as (Hib & Hframe & Hall); try done.
    + split; [by rewrite Hib|]. split.
      * intros l Hl. apply not_elem_of_cons in Hl as [Hl1 Hl2].
        rewrite Hframe, Hheap by done. by apply lookup_insert_ne.
      * constructor.
        -- exists p, d. split; [done|]. split; [done|]. split.
           ++ rewrite Hframe, Hheap by done. apply lookup_insert_eq.
           ++ intros Hnone. rewrite Hnone in Hprog. by destruct Hprog.
        -- eapply Forall2_impl; [exact Hall|]. simpl.
           intros v0 v0' (p0 & d0 & ? & ? & ? & ?). exists p0, d0.
           rewrite <- Hdev, <- Hs. done.
    + by rewrite Hthis.
    + by rewrite Hthis.
    + eapply Forall_impl; [exact Hrest|]. intros v0. apply Hgrow.
    + by rewrite Hs.
Qed.

(** X17.  The refresh from the device.  Take a buffer whose device buffer
    [src] is not itself a view, whose live views have distinct buffers and
    populated index buffers, and whose existing programs read [src] and write
    their own view.  When [markRenderAttributeBufferUpdated] returns, the
    device buffer is untouched and every cached view holds the gather of the
    device buffer through the index stream of its program; for a program
    created by this call, that stream is the data of the index buffer of the
    view. *)
Theorem device_refresh_holds_gather w w' src :
  renderAttributeBuffer (this w) = Some src →
  NoDup (map viewBuffer (liveEntries w)) →
  src ∉ map viewBuffer (liveEntries w) →
  Forall (λ v, ∀ p, deviceUpdateProgram v = Some p →
                    a_val_in p = src ∧ a_val_out p = viewBuffer v) (liveEntries w) →
  Forall (λ v, index_ensureHostBufferPopulated (indices v) (indexBuffers w)
               = Ok (indexBuffers w)) (liveEntries w) →
  exec markRenderAttributeBufferUpdated w = Ok w' →
  heap w' !! src = heap w !! src
  ∧ Forall2 (λ v v', ∃ p d,
               v' = mkExistingViewEntry (indices v) (viewBuffer v) (Some p)
               ∧ gather (bufferData w' src) (prog_index p) = Some d
               ∧ heap w' !! viewBuffer v' = Some d
               ∧ (deviceUpdateProgram v = None →
                  index_data (indexBuffers w') (indices v') = Some (prog_index p)))
      (liveEntries w) (existingIndexedViews (this w')).
Proof.
  intros Hsrc Hnodup Hnotin Hbound Hidx H.
  run_step H. unfold markRenderAttributeBufferUpdated in H.
  run_step H. run_step H. run_prim H.
  unfold invalidateHostBuffer in H0. run H0.
  set (w0 := with_this (set_data []) (with_this (set_hostBufferIsPopulated false) w)) in *.
  apply updateIndexedViews_Ok in H1 as (views' & wl & Hloop & -> & Hthis).
  assert (liveEntries w0 = liveEntries w) as Hlive0 by done.
  rewrite Hlive0 in Hloop.
  apply (forEachView_device_heap _ _ _ _ src) in Hloop as (Hib & Hframe & Hall);
    [|done|done|apply (liveEntries_live w)|done..].
  assert (heap wl !! src = heap w !! src) as Hdev by by rewrite Hframe.
  split; [exact Hdev|].
  change (existingIndexedViews
            (this (log EvRedraw
                     (with_this (set_existingIndexedViews views') wl)))) with views'.
  eapply Forall2_impl; [exact Hall|]. simpl.
  intros v v' (p & d & -> & Hg & Hheap & Hnew). exists p, d.
  split; [done|]. split; [|split; [done|]].
  - revert Hg. unfold bufferData. simpl. by rewrite Hdev.
  - simpl. rewrite Hib. exact Hnew.
Qed.

(** X18.  The handle returned by [getIndexedRenderAttributeBuffer] is never
    a dead one: whether found in the cache or newly created, the view buffer
    is alive when the call returns and the cache has an entry for it. *)
Theorem getIndexedRenderAttributeBuffer_handle_alive
    (computeFunc : World' → Result World') idx w l w' :
  getIndexedRenderAttributeBuffer computeFunc idx w = Ok (l, w') →
  expired w' l = false
  ∧ ∃ v, v ∈ existingIndexedViews (this w') ∧ viewBuffer v = l.
Proof.
  intros H. apply getIndexedRenderAttributeBuffer_Ok in H as [[Hfind ->]|[_ H]].
  - apply findExistingView_Some in Hfind as [Hlive Hv]. by split.
  - destruct H as (u & w2 & s & idata & d & _ & -> & _ & _ & _ & ->). split.
    + apply expired_false. simpl. rewrite lookup_insert_eq. eauto.
    + exists (mkExistingViewEntry idx (nextLoc w2) None). split; [|done].
      simpl. apply elem_of_app. right. by apply list_elem_of_singleton.
Qed.

End Facts.

(** ** The index buffers as managed buffers: unique ids *)

Section ManagedIndexBuffers.

Variable icf : addr → IndexWorld → Result IndexWorld.

Hypothesis icf_keeps_uniqueID : ∀ a uid,
  callbackPreserves (keeps (λ w : IndexWorld, uniqueID (this w) = uid)) (icf a).

Lemma managedIndexBuffers_keeps_uniqueID (a a' : addr) s s' :
  @index_ensureHostBufferPopulated _ (managedIndexBuffers icf) a s = Ok s' →
  @index_uniqueID _ (managedIndexBuffers icf) s' a'
    = @index_uniqueID _ (managedIndexBuffers icf) s a'.
Proof.
  simpl. destruct (s !! a) as [w|] eqn:Ea; [|done].
  destruct (exec _ w) as [w'|] eqn:E; [|done]. intros [= <-].
  destruct (decide (a = a')) as [<-|Hne].
  - rewrite lookup_insert_eq, Ea. simpl. f_equal.
    apply exec_Ok in E as [u E].
    apply (keeps_ensureHostBufferPopulated
             (λ b, uniqueID b = uniqueID (this w)) (icf a)) in E;
      [exact (E eq_refl)|done|].
    apply icf_keeps_uniqueID.
  - by rewrite lookup_insert_ne.
Qed.

Lemma managedIndexBuffers_uniqueID_defined s (a : addr) :
  is_Some (@index_data _ (managedIndexBuffers icf) s a) →
  is_Some (@index_uniqueID _ (managedIndexBuffers icf) s a).
Proof. simpl. destruct (s !! a); [eauto | by intros []]. Qed.

End ManagedIndexBuffers.

(** ** Compute functions that obey the contract *)

Lemma populateAndNotify_keeps {T IndexStore : Type} `{!IndexBufferOps IndexStore}
    (Q : ManagedBuffer T → Prop) (fill : World T IndexStore → list T) :
  (∀ d b, Q b → Q (set_data d b)) →
  (∀ vs b, Q b → Q (set_existingIndexedViews vs b)) →
  (∀ b, Q b → Q (set_hostBufferIsPopulated true b)) →
  callbackPreserves (keeps (λ w, Q (this w))) (populateAndNotify fill).
Proof.
  intros Hd Hv Hn w w' H. unfold populateAndNotify in H. run_step H.
  apply (keeps_markHostBufferUpdated Q Hv Hn) in H. intros HQ. apply H. simpl.
  by apply Hd.
Qed.

Lemma populateAndNotify_obeysContract {T IndexStore : Type} `{!IndexBufferOps IndexStore}
    (fill : World T IndexStore → list T) :
  obeysContract (populateAndNotify fill).
Proof. by exists fill. Qed.

(** * The scenarios *)

Section Scenarios.

Import Scenario.

#[local] Existing Instance indexOps.

Lemma indexOps_keeps_uniqueID (a a' : addr) (s s' : gmap addr IndexWorld) :
  index_ensureHostBufferPopulated a s = Ok s' →
  index_uniqueID s' a' = index_uniqueID s a'.
Proof. apply managedIndexBuffers_keeps_uniqueID. by intros a0 uid w w'. Qed.

Lemma indexOps_uniqueID_defined (s : gmap addr IndexWorld) (a : addr) :
  is_Some (index_data s a) → is_Some (index_uniqueID s a).
Proof. apply managedIndexBuffers_uniqueID_defined. Qed.

(** The worlds of the scenarios are reached by the calls that define them. *)
Example viewedOnDevice_reached :
  runCalls noComputeFunc
    [GetRenderAttributeBuffer; GetIndexedRenderAttributeBuffer 1%positive] scenarioView
  = Ok viewedOnDevice.
Proof. vm_compute. reflexivity. Qed.

Example deviceOnly_reached :
  runCalls noComputeFunc [MarkRenderAttributeBufferUpdated] viewedOnDevice = Ok deviceOnly.
Proof. vm_compute. reflexivity. Qed.

Example computedView_reached :
  runCalls fill102030 [GetIndexedRenderAttributeBuffer 1%positive]
    (initial (ManagedBuffer_computed "C" 4 []) perm201)
  = Ok computedView.
Proof. vm_compute. reflexivity. Qed.

(** Scenario A of the specification. *)
Example scenario_A :
  value size scenarioA = Ok 3
  ∧ value (getValue noComputeFunc 1) scenarioA = Ok 2
  ∧ value hasData scenarioA = Ok true.
Proof. vm_compute. done. Qed.

(** Witness of C1: the device buffer is the canonical source, the producer
    rewrites its host array and notifies. *)
Lemma source_precedence_witness :
  value currentCanonicalDataSource hostRewritten = Ok RenderBuffer
  ∧ exec markHostBufferUpdated hostRewritten
    = Ok (reach noComputeFunc [MarkHostBufferUpdated] hostRewritten)
  ∧ currentCanonicalDataSource (reach noComputeFunc [MarkHostBufferUpdated] hostRewritten)
    = Ok (HostData, reach noComputeFunc [MarkHostBufferUpdated] hostRewritten).
Proof.
  split; [vm_compute; reflexivity|]. split; [vm_compute; reflexivity|].
  destruct (source_precedence hostRewritten) as (_ & _ & _ & _ & H).
  apply H. vm_compute. reflexivity.
Defined.

(** C2, counterexample.  On the buffer of scenario B, before any access,
    [size()] is 0 and [getValue(size())] invokes the compute function and
    returns 5: no out-of-range error. *)
Lemma getValue_at_size_counterexample :
  value currentCanonicalDataSource scenarioB = Ok NeedsCompute
  ∧ value size scenarioB = Ok 0
  ∧ value (getValueAtSize fill567) scenarioB = Ok 5.
Proof. vm_compute. done. Qed.

(** Witness of C2: the host array [1,2,3] and the device buffer
    [10,20,30]. *)
Lemma getValue_at_size_witness :
  (∃ n, size scenarioA = Ok (n, scenarioA)
        ∧ getValueAtSize noComputeFunc scenarioA = Err (OutOfBoundsAccess "A" n)
        ∧ isOutOfRange (OutOfBoundsAccess "A" n) = true
        ∧ errorClass (OutOfBoundsAccess "A" n) = Some Usage)
  ∧ (∃ n, size deviceOnly = Ok (n, deviceOnly)
          ∧ getValueAtSize noComputeFunc deviceOnly = Err (OutOfBoundsAccess "V" n)
          ∧ isOutOfRange (OutOfBoundsAccess "V" n) = true
          ∧ errorClass (OutOfBoundsAccess "V" n) = Some Usage).
Proof.
  split.
  - apply (proj1 (getValue_at_size noComputeFunc scenarioA) HostData).
    + vm_compute. reflexivity.
    + discriminate.
    + intros l. vm_compute. discriminate.
  - apply (proj1 (getValue_at_size noComputeFunc deviceOnly) RenderBuffer).
    + vm_compute. reflexivity.
    + discriminate.
    + intros l [= <-]. vm_compute. reflexivity.
Defined.

(** Witness of C3: scenario B, populated twice. *)
Lemma ensureHostBufferPopulated_twice_witness :
  exec (ensureHostBufferPopulated fill567) scenarioB
    = Ok (reach fill567 [EnsureHostBufferPopulated] scenarioB)
  ∧ exec (ensureHostBufferPopulated fill567;; ensureHostBufferPopulated fill567) scenarioB
    = Ok (reach fill567 [EnsureHostBufferPopulated] scenarioB)
  ∧ computeCalls (reach fill567 [EnsureHostBufferPopulated] scenarioB) = 1%nat.
Proof.
  assert (exec (ensureHostBufferPopulated fill567) scenarioB
          = Ok (reach fill567 [EnsureHostBufferPopulated] scenarioB)) as H
    by (vm_compute; reflexivity).
  destruct (ensureHostBufferPopulated_twice fill567 scenarioB _
              (populateAndNotify_obeysContract _) H) as (_ & H2 & _ & Hnc).
  split; [exact H|]. split; [exact H2|].
  apply Hnc. vm_compute. reflexivity.
Defined.


(** Witness of C5: the view of a computed buffer, asked for twice. *)
Lemma indexed_view_cache_hit_witness :
  getIndexedRenderAttributeBuffer fill102030 1%positive
      (initial (ManagedBuffer_computed "C" 4 []) perm201)
    = Ok (1%positive, computedView)
  ∧ getIndexedRenderAttributeBuffer fill102030 1%positive computedView
    = Ok (1%positive, computedView).
Proof.
  assert (getIndexedRenderAttributeBuffer fill102030 1%positive
            (initial (ManagedBuffer_computed "C" 4 []) perm201)
          = Ok (1%positive, computedView)) as H by (vm_compute; reflexivity).
  split; [exact H|].
  exact (indexed_view_cache_hit fill102030 _ _ _ _ _
           indexOps_keeps_uniqueID indexOps_uniqueID_defined
           (populateAndNotify_obeysContract _) H eq_refl).
Defined.

(** Witness of C6: without compute function; before the first computation;
    and after it, where the compute function is invoked on the invalidated
    buffer and the buffer ends up populated with [10,20,30] again. *)
Lemma recomputeIfPopulated_cases_witness :
  recomputeIfPopulated noComputeFunc scenarioA = Err RecomputeNotComputed
  ∧ recomputeIfPopulated fill567 scenarioB = Ok (tt, scenarioB)
  ∧ data (this computedView) = [10; 20; 30]
  ∧ hostBufferIsPopulated (this computedView) = true
  ∧ invalidateHostBuffer computedView
    = Ok (tt, with_this (set_data [])
                (with_this (set_hostBufferIsPopulated false) computedView))
  ∧ exec (recomputeIfPopulated fill102030) computedView
    = Ok (reach fill102030 [RecomputeIfPopulated] computedView)
  ∧ ∃ wc, fill102030
            (log EvCompute
               (with_this (set_data [])
                  (with_this (set_hostBufferIsPopulated false) computedView))) = Ok wc
          ∧ exec markHostBufferUpdated wc
            = Ok (reach fill102030 [RecomputeIfPopulated] computedView)
          ∧ hostBufferIsPopulated
              (this (reach fill102030 [RecomputeIfPopulated] computedView)) = true
          ∧ data (this (reach fill102030 [RecomputeIfPopulated] computedView))
            = data (this wc).
Proof.
  split; [|split].
  - destruct (recomputeIfPopulated_cases noComputeFunc scenarioA) as (H & _).
    apply H. vm_compute. reflexivity.
  - destruct (recomputeIfPopulated_cases fill567 scenarioB) as (_ & H & _).
    apply H; vm_compute; reflexivity.
  - split; [vm_compute; reflexivity|]. split; [vm_compute; reflexivity|].
    destruct (recomputeIfPopulated_cases fill102030 computedView) as (_ & _ & H & _).
    destruct H as (Hinv & _ & _ & _ & Hafter);
      [vm_compute; reflexivity|vm_compute; discriminate|].
    split; [exact Hinv|].
    assert (exec (recomputeIfPopulated fill102030) computedView
            = Ok (reach fill102030 [RecomputeIfPopulated] computedView)) as Hrun
      by (vm_compute; reflexivity).
    split; [exact Hrun|].
    destruct (Hafter _ Hrun) as (wc & Hwc & Hmark & Hflag & Hdata & _).
    exists wc. by repeat split.
Defined.

(** C7, counterexample.  On a computed buffer with a live view and no
    device buffer, [markRenderAttributeBufferUpdated] raises an internal
    error: no view is refreshed, no redraw requested.  On a buffer with a
    device buffer and a live view, it returns, and the live cache entry has
    been modified: it has received its device update program. *)
Lemma markRenderAttributeBufferUpdated_counterexample :
  exec markRenderAttributeBufferUpdated computedView = Err IndexedViewNeedsCompute
  ∧ exec markRenderAttributeBufferUpdated viewedOnDevice = Ok deviceOnly
  ∧ liveEntries viewedOnDevice = [mkExistingViewEntry 1 2 None]
  ∧ liveEntries deviceOnly
    = [mkExistingViewEntry 1 2 (Some (mkShaderProgram 1 2 [2; 0; 1]%N))]
  ∧ liveEntries deviceOnly ≠ liveEntries viewedOnDevice.
Proof. vm_compute. repeat split; discriminate. Qed.

(** Witness of C7: the device buffer of [10,20,30] is declared
    authoritative while the view through [2,0,1] is alive; and the same call
    on the computed buffer, which has a live view and no device buffer. *)
Lemma markRenderAttributeBufferUpdated_frame_witness :
  exec markRenderAttributeBufferUpdated viewedOnDevice = Ok deviceOnly
  ∧ hostBufferIsPopulated (this deviceOnly) = false
  ∧ data (this deviceOnly) = []
  ∧ renderAttributeBuffer (this deviceOnly) = renderAttributeBuffer (this viewedOnDevice)
  ∧ map entryKey (liveEntries deviceOnly) = map entryKey (liveEntries viewedOnDevice)
  ∧ Forall2 (refreshedFrom (renderAttributeBuffer (this viewedOnDevice)))
      (liveEntries viewedOnDevice) (liveEntries deviceOnly)
  ∧ exec markRenderAttributeBufferUpdated computedView = Err IndexedViewNeedsCompute
  ∧ (invalidateHostBuffer;; updateIndexedViews) computedView = Err IndexedViewNeedsCompute
  ∧ ∃ v rest,
      liveEntries computedView = v :: rest
      ∧ updateIndexedView v
          (with_this (set_existingIndexedViews (liveEntries computedView))
             (with_this (set_data [])
                (with_this (set_hostBufferIsPopulated false) computedView)))
        = Err IndexedViewNeedsCompute.
Proof.
  assert (exec markRenderAttributeBufferUpdated viewedOnDevice = Ok deviceOnly) as H
    by (vm_compute; reflexivity).
  destruct (markRenderAttributeBufferUpdated_frame viewedOnDevice) as [Hframe _].
  destruct (Hframe _ H) as (? & ? & _ & _ & _ & ? & _ & ? & ? & _).
  destruct (markRenderAttributeBufferUpdated_frame computedView) as [_ Hraise].
  destruct Hraise as (Herr & _ & Hprefix & _ & _ & Hfirst);
    [vm_compute; reflexivity|vm_compute; discriminate|].
  repeat (split; [done|]). exact Hfirst.
Defined.

(** C8.  Scenario B: over an empty array, with a compute function that
    fills it with [5,6,7] and notifies, the canonical source is "needs
    compute" and [size()] is 0 before any access; after
    [ensureHostBufferPopulated], [size()] is 3 and [getValue(0)] is 5.  For
    every buffer, [size()] is 0 when the canonical source is "needs
    compute", and the element count of the canonical source otherwise. *)
Theorem size_before_and_after_compute :
  (obeysContract fill567
   ∧ this scenarioB = ManagedBuffer_computed "B" 1 []
   ∧ value currentCanonicalDataSource scenarioB = Ok NeedsCompute
   ∧ value size scenarioB = Ok 0
   ∧ value (ensureHostBufferPopulated fill567;; size) scenarioB = Ok 3
   ∧ value (ensureHostBufferPopulated fill567;; getValue fill567 0) scenarioB = Ok 5)
  ∧ ∀ (T IndexStore : Type) (w : World T IndexStore),
      (currentCanonicalDataSource w = Ok (NeedsCompute, w) → size w = Ok (0, w))
      ∧ (currentCanonicalDataSource w = Ok (HostData, w) →
         size w = Ok (Z.of_nat (length (data (this w))), w))
      ∧ (currentCanonicalDataSource w = Ok (RenderBuffer, w) →
         ∀ l, renderAttributeBuffer (this w) = Some l → getDataSize w l < 2 ^ 64 →
         size w = Ok (Z.of_nat (length (bufferData w l)), w)).
Proof.
  split.
  - split; [apply populateAndNotify_obeysContract|]. vm_compute. done.
  - intros T IndexStore w. apply size_of_source.
Qed.

(** Witness of C8, general part: the three sources. *)
Lemma size_before_and_after_compute_witness :
  size scenarioB = Ok (0, scenarioB)
  ∧ size scenarioA = Ok (3, scenarioA)
  ∧ size deviceOnly = Ok (3, deviceOnly).
Proof.
  destruct size_before_and_after_compute as [_ H].
  split; [|split].
  - apply (proj1 (H _ _ scenarioB)). vm_compute. reflexivity.
  - apply (proj1 (proj2 (H _ _ scenarioA))). vm_compute. reflexivity.
  - apply (proj2 (proj2 (H _ _ deviceOnly)) eq_refl 1%positive); vm_compute; reflexivity.
Defined.

(** Witness of C9: the device buffer of a computed buffer, through a view
    request, a device update, a recomputation and reads. *)
Lemma renderAttributeBuffer_never_replaced_witness :
  getRenderAttributeBuffer fill102030 (initial (ManagedBuffer_computed "C" 4 []) perm201)
    = Ok (1%positive, computedOnDevice)
  ∧ runCalls fill102030 laterCalls computedOnDevice = Ok computedLater
  ∧ renderAttributeBuffer (this computedLater) = Some 1%positive
  ∧ getRenderAttributeBuffer fill102030 computedLater = Ok (1%positive, computedLater).
Proof.
  assert (getRenderAttributeBuffer fill102030
            (initial (ManagedBuffer_computed "C" 4 []) perm201)
          = Ok (1%positive, computedOnDevice)) as Hget by (vm_compute; reflexivity).
  assert (runCalls fill102030 laterCalls computedOnDevice = Ok computedLater) as Hcalls
    by (vm_compute; reflexivity).
  split; [exact Hget|]. split; [exact Hcalls|].
  assert (∀ l0, callbackPreserves
                  (keeps (λ w : W, renderAttributeBuffer (this w) = Some l0)) fill102030)
    as Hcf.
  { intros l0. by apply (populateAndNotify_keeps (λ b, renderAttributeBuffer b = Some l0)). }
  destruct (renderAttributeBuffer_never_replaced fill102030 _ _ _ Hcf Hget) as (_ & H & _).
  exact (H _ _ Hcalls).
Defined.

(** Witness of C10: the host array is read back from the device buffer
    [10,20,30]; the compute function here fills the array without
    notifying. *)
Lemma device_readback_leaves_flag_witness :
  hostBufferIsPopulated (this deviceOnly) = false
  ∧ renderAttributeBuffer (this deviceOnly) = Some 1%positive
  ∧ ensureHostBufferPopulated fillSilently deviceOnly
    = Ok (tt, with_this (set_data [10; 20; 30]) deviceOnly)
  ∧ hostBufferIsPopulated (this (with_this (set_data [10; 20; 30]) deviceOnly)) = false
  ∧ value currentCanonicalDataSource (with_this (set_data [10; 20; 30]) deviceOnly)
    = Ok RenderBuffer
  ∧ hostBufferIsPopulated
      (this (reach fillSilently [GetValue 0; Size; GetPopulatedHostBufferRef] scenarioB))
    = false.
Proof.
  assert (hostBufferIsPopulated (this deviceOnly) = false) as Hflag
    by (vm_compute; reflexivity).
  assert (renderAttributeBuffer (this deviceOnly) = Some 1%positive) as Hl
    by (vm_compute; reflexivity).
  split; [exact Hflag|]. split; [exact Hl|].
  destruct (device_readback_leaves_flag fillSilently deviceOnly 1%positive Hflag Hl)
    as (Hens & _ & Hflag' & Hsrc & _ & _ & _ & _ & Hcalls).
  split; [exact Hens|]. split; [exact Hflag'|].
  split.
  { change (value currentCanonicalDataSource
              (with_this (set_data (bufferData deviceOnly 1%positive)) deviceOnly)
            = Ok RenderBuffer).
    unfold value. by rewrite Hsrc. }
  assert (callbackPreserves
            (keeps (λ w : W, hostBufferIsPopulated (this w) = false)) fillSilently) as Hcf.
  { intros w w' [= <-]. by intros ?. }
  assert (hostBufferIsPopulated (this scenarioB) = false) as H0 by reflexivity.
  change (reach fillSilently [GetValue 0; Size; GetPopulatedHostBufferRef] scenarioB)
    with (reach fillSilently [GetPopulatedHostBufferRef]
            (reach fillSilently [Size] (reach fillSilently [GetValue 0] scenarioB))).
  assert (∀ c w, c ≠ MarkHostBufferUpdated → c ≠ RecomputeIfPopulated →
            hostBufferIsPopulated (this w) = false →
            hostBufferIsPopulated (this (reach fillSilently [c] w)) = false) as Hstep.
  { intros c w Hc1 Hc2 Hw. unfold reach. simpl.
    destruct (runCall fillSilently c w) as [w'|] eqn:E; [|done].
    by apply (Hcalls Hcf c w w'). }
  by repeat apply Hstep.
Defined.

(** Witness of X1: the host array of the viewed buffer becomes [11,21,31];
    after the notification, [size] is 3 and [getValue(1)] is 21. *)
Lemma getValue_after_markHostBufferUpdated_witness :
  exec markHostBufferUpdated (with_this (set_data [11; 21; 31]) viewedOnHost)
    = Ok viewRefreshed
  ∧ size viewRefreshed = Ok (3, viewRefreshed)
  ∧ getValue noComputeFunc 1 viewRefreshed = Ok (21, viewRefreshed).
Proof.
  assert (exec markHostBufferUpdated (with_this (set_data [11; 21; 31]) viewedOnHost)
          = Ok viewRefreshed) as H by (vm_compute; reflexivity).
  split; [exact H|].
  exact (getValue_after_markHostBufferUpdated noComputeFunc viewedOnHost [11; 21; 31]
           viewRefreshed 1 H ltac:(lia)).
Defined.

(** Witness of X4: the device buffer [10,20,30] read at 1, at 3 and at
    [2^63]. *)
Lemma getValue_device_bounds_witness :
  getValue noComputeFunc 1 deviceOnly = Ok (20, deviceOnly)
  ∧ getValue noComputeFunc 3 deviceOnly = Err (OutOfBoundsAccess "V" 3)
  ∧ ∀ e, getValue noComputeFunc (2 ^ 63) deviceOnly = Err e → isOutOfRange e = false.
Proof.
  assert (hostBufferIsPopulated (this deviceOnly) = false) as Hflag
    by (vm_compute; reflexivity).
  assert (renderAttributeBuffer (this deviceOnly) = Some 1%positive) as Hl
    by (vm_compute; reflexivity).
  split; [|split].
  - exact (proj1 (getValue_device_bounds noComputeFunc deviceOnly 1%positive 1 Hflag Hl)
             ltac:(lia)).
  - exact (proj1 (getValue_device_bounds noComputeFunc deviceOnly 1%positive 3 Hflag Hl)
             ltac:(lia)).
  - exact (proj2 (proj2 (getValue_device_bounds noComputeFunc deviceOnly 1%positive (2 ^ 63)
                           Hflag Hl) ltac:(lia))).
Defined.

(** Witness of X5: scenario B, whose compute function produces [5,6,7]. *)
Lemma getValue_agrees_with_host_ref_witness :
  getPopulatedHostBufferRef fill567 scenarioB
    = Ok ([5; 6; 7], reach fill567 [GetPopulatedHostBufferRef] scenarioB)
  ∧ value (getValue fill567 2) scenarioB = Ok 7
  ∧ value (getValue fill567 3) scenarioB = Err (OutOfBoundsAccess "B" 3).
Proof.
  assert (getPopulatedHostBufferRef fill567 scenarioB
          = Ok ([5; 6; 7], reach fill567 [GetPopulatedHostBufferRef] scenarioB)) as H
    by (vm_compute; reflexivity).
  split; [exact H|]. split.
  - exact (getValue_agrees_with_host_ref fill567 scenarioB _ _ 2 H ltac:(lia)).
  - exact (getValue_agrees_with_host_ref fill567 scenarioB _ _ 3 H ltac:(lia)).
Defined.

(** Witness of X6: the device buffer [10,20,30] as source; the host array,
    empty before, is [10,20,30] afterwards. *)
Lemma size_agrees_with_host_ref_witness :
  data (this deviceOnly) = []
  ∧ ∃ d, getPopulatedHostBufferRef noComputeFunc deviceOnly
           = Ok (d, with_this (set_data d) deviceOnly)
         ∧ size deviceOnly = Ok (Z.of_nat (length d), deviceOnly)
         ∧ d = [10; 20; 30].
Proof.
  split; [vm_compute; reflexivity|].
  destruct (size_agrees_with_host_ref noComputeFunc deviceOnly RenderBuffer)
    as (d & Hget & Hsize & _ & Hdev).
  - vm_compute. reflexivity.
  - discriminate.
  - intros l [= <-]. vm_compute. reflexivity.
  - exists d. split; [exact Hget|]. split; [exact Hsize|].
    rewrite (Hdev eq_refl 1%positive) by (vm_compute; reflexivity).
    vm_compute. reflexivity.
Defined.

(** Witness of X7: scenario A, a host array without compute function,
    device buffer or view. *)
Lemma markRenderAttributeBufferUpdated_without_device_witness :
  ∃ w', exec markRenderAttributeBufferUpdated scenarioA = Ok w'
        ∧ data (this w') = []
        ∧ hasData w' = Ok (false, w')
        ∧ size w' = Err (NoDataSource "A")
        ∧ getValue noComputeFunc 0 w' = Err (NoDataSource "A").
Proof.
  destruct (markRenderAttributeBufferUpdated_without_device noComputeFunc scenarioA)
    as (w' & H & Hdata & _ & Hhas & Hsize & Hget & _); [reflexivity..|].
  exists w'. split; [exact H|]. split; [exact Hdata|]. split; [exact Hhas|].
  split; [exact Hsize|]. exact (Hget 0).
Defined.

(** Witness of X9: the device buffer of scenario A. *)
Lemma getRenderAttributeBuffer_mirrors_host_witness :
  getRenderAttributeBuffer noComputeFunc scenarioA
    = Ok (1%positive, reach noComputeFunc [GetRenderAttributeBuffer] scenarioA)
  ∧ heap (reach noComputeFunc [GetRenderAttributeBuffer] scenarioA) !! 1%positive
    = Some (data (this (reach noComputeFunc [GetRenderAttributeBuffer] scenarioA)))
  ∧ data (this (reach noComputeFunc [GetRenderAttributeBuffer] scenarioA)) = [1; 2; 3].
Proof.
  assert (getRenderAttributeBuffer noComputeFunc scenarioA
          = Ok (1%positive, reach noComputeFunc [GetRenderAttributeBuffer] scenarioA)) as H
    by (vm_compute; reflexivity).
  split; [exact H|]. split; [|vm_compute; reflexivity].
  destruct (getRenderAttributeBuffer_mirrors_host noComputeFunc scenarioA eq_refl)
    as [Hcreate _].
  destruct (Hcreate _ _ H) as (w1 & _ & _ & _ & Hheap & _). exact Hheap.
Defined.

(** Witness of X10: scenario A through the device and back. *)
Lemma host_device_host_round_trip_witness :
  ∃ w', (getRenderAttributeBuffer noComputeFunc;;
         markRenderAttributeBufferUpdated;;
         getPopulatedHostBufferRef noComputeFunc) scenarioA = Ok ([1; 2; 3], w')
        ∧ renderAttributeBuffer (this w') = Some 1%positive
        ∧ bufferData w' 1%positive = [1; 2; 3]
        ∧ hostBufferIsPopulated (this w') = false
        ∧ computeCalls w' = computeCalls scenarioA.
Proof.
  exact (host_device_host_round_trip noComputeFunc scenarioA eq_refl eq_refl eq_refl).
Defined.

(** Witness of X11: the device buffer is authoritative, the producer
    writes [11,21,31] and notifies. *)
Lemma markHostBufferUpdated_uploads_witness :
  exec markHostBufferUpdated hostRewritten
    = Ok (reach noComputeFunc [MarkHostBufferUpdated] hostRewritten)
  ∧ heap (reach noComputeFunc [MarkHostBufferUpdated] hostRewritten) !! 1%positive
    = Some [11; 21; 31]
  ∧ data (this (reach noComputeFunc [MarkHostBufferUpdated] hostRewritten)) = [11; 21; 31].
Proof.
  assert (exec markHostBufferUpdated hostRewritten
          = Ok (reach noComputeFunc [MarkHostBufferUpdated] hostRewritten)) as H
    by (vm_compute; reflexivity).
  split; [exact H|].
  destruct (markHostBufferUpdated_uploads hostRewritten 1%positive
              (reach noComputeFunc [MarkHostBufferUpdated] hostRewritten))
    as (Hheap & Hdata & _); [| |exact H|by split].
  - vm_compute. reflexivity.
  - vm_compute. by repeat constructor.
Defined.


(** Witness of X13: the device buffer of [10,20,30] with its view through
    [2,0,1], declared authoritative twice. *)
Lemma deviceUpdateProgram_created_once_witness :
  exec markRenderAttributeBufferUpdated viewedOnDevice = Ok deviceOnly
  ∧ exec markRenderAttributeBufferUpdated deviceOnly
    = Ok (reach noComputeFunc [MarkRenderAttributeBufferUpdated] deviceOnly)
  ∧ existingIndexedViews
      (this (reach noComputeFunc [MarkRenderAttributeBufferUpdated] deviceOnly))
    = existingIndexedViews (this deviceOnly)
  ∧ trace (reach noComputeFunc [MarkRenderAttributeBufferUpdated] deviceOnly)
    = trace deviceOnly
      ++ map EvFeedback (omap deviceUpdateProgram (existingIndexedViews (this deviceOnly)))
      ++ [EvRedraw].
Proof.
  assert (exec markRenderAttributeBufferUpdated viewedOnDevice = Ok deviceOnly) as H1
    by (vm_compute; reflexivity).
  assert (exec markRenderAttributeBufferUpdated deviceOnly
          = Ok (reach noComputeFunc [MarkRenderAttributeBufferUpdated] deviceOnly)) as H2
    by (vm_compute; reflexivity).
  split; [exact H1|]. split; [exact H2|].
  destruct (deviceUpdateProgram_created_once _ _ _ H1 H2) as (Hviews & _ & Htrace).
  by split.
Defined.

(** Witness of X14: the computed buffer with its view, recomputed. *)
Lemma recomputeIfPopulated_recomputes_witness :
  exec (recomputeIfPopulated fill102030) computedView
    = Ok (reach fill102030 [RecomputeIfPopulated] computedView)
  ∧ data (this (reach fill102030 [RecomputeIfPopulated] computedView)) = [10; 20; 30]
  ∧ computeCalls (reach fill102030 [RecomputeIfPopulated] computedView)
    = S (computeCalls computedView).
Proof.
  assert (exec (recomputeIfPopulated fill102030) computedView
          = Ok (reach fill102030 [RecomputeIfPopulated] computedView)) as H
    by (vm_compute; reflexivity).
  split; [exact H|].
  destruct (recomputeIfPopulated_recomputes fill102030 (λ _, [10; 20; 30]) computedView
              (reach fill102030 [RecomputeIfPopulated] computedView))
    as (Hdata & _ & Hcalls); [| | |exact H|by split].
  - reflexivity.
  - vm_compute. reflexivity.
  - vm_compute. discriminate.
Defined.

(** Witness of X15: the computed buffer through [laterCalls]. *)
Lemma identity_never_changes_witness :
  runCalls fill102030 laterCalls computedOnDevice = Ok computedLater
  ∧ name (this computedLater) = name (this computedOnDevice)
  ∧ uniqueID (this computedLater) = uniqueID (this computedOnDevice)
  ∧ dataGetsComputed (this computedLater) = dataGetsComputed (this computedOnDevice).
Proof.
  assert (runCalls fill102030 laterCalls computedOnDevice = Ok computedLater) as Hcalls
    by (vm_compute; reflexivity).
  split; [exact Hcalls|].
  assert (∀ b0 : ManagedBuffer Z,
            callbackPreserves
              (keeps (λ w : W, name (this w) = name b0
                               ∧ uniqueID (this w) = uniqueID b0
                               ∧ dataGetsComputed (this w) = dataGetsComputed b0))
              fill102030) as Hcf.
  { intros b0.
    by apply (populateAndNotify_keeps
                (λ b, name b = name b0 ∧ uniqueID b = uniqueID b0
                      ∧ dataGetsComputed b = dataGetsComputed b0)). }
  destruct (identity_never_changes fill102030 _ _ _ Hcf Hcalls) as (? & ? & ? & _).
  done.
Defined.

(** The index buffers of the scenarios do not raise the error of the
    index copy. *)
Lemma indexOps_notNoBuffers (a : addr) (s : gmap addr IndexWorld) n :
  index_ensureHostBufferPopulated a s ≠ Err (NoBuffersForIndexCopy n).
Proof.
  simpl. destruct (s !! a) as [w|]; [|done].
  unfold exec, ensureHostBufferPopulated. unfold bind at 1.
  rewrite currentCanonicalDataSource_unfold.
  destruct (hostBufferIsPopulated (this w)); [done|].
  destruct (renderAttributeBuffer (this w)) as [l|] eqn:Hl.
  - unfold bind, gets. simpl. by rewrite Hl.
  - by destruct (dataGetsComputed (this w)).
Qed.

(** Witness of X16: scenario A and the viewed buffers. *)
Lemma sanity_checks_never_fire_witness :
  ensureHostBufferPopulated noComputeFunc scenarioA ≠ Err RenderBufferNotAllocated
  ∧ ∀ n, updateIndexedViews viewedOnDevice ≠ Err (NoBuffersForIndexCopy n)
         ∧ markHostBufferUpdated viewedOnDevice ≠ Err (NoBuffersForIndexCopy n)
         ∧ markRenderAttributeBufferUpdated viewedOnDevice ≠ Err (NoBuffersForIndexCopy n).
Proof.
  split.
  - apply (proj1 (sanity_checks_never_fire noComputeFunc scenarioA)). by intros w0.
  - apply (proj2 (sanity_checks_never_fire noComputeFunc viewedOnDevice)).
    apply indexOps_notNoBuffers.
Defined.

(** Witness of X17: the device buffer of [10,20,30] is declared
    authoritative; the view through [2,0,1] receives [30,10,20] on the
    device. *)
Lemma device_refresh_holds_gather_witness :
  exec markRenderAttributeBufferUpdated viewedOnDevice = Ok deviceOnly
  ∧ heap deviceOnly !! 1%positive = heap viewedOnDevice !! 1%positive
  ∧ heap deviceOnly !! 2%positive = Some [30; 10; 20]
  ∧ Forall2 (λ v v', ∃ p d,
               v' = mkExistingViewEntry (indices v) (viewBuffer v) (Some p)
               ∧ gather (bufferData deviceOnly 1%positive) (prog_index p) = Some d
               ∧ heap deviceOnly !! viewBuffer v' = Some d
               ∧ (deviceUpdateProgram v = None →
                  index_data (indexBuffers deviceOnly) (indices v') = Some (prog_index p)))
      (liveEntries viewedOnDevice) (existingIndexedViews (this deviceOnly)).
Proof.
  assert (exec markRenderAttributeBufferUpdated viewedOnDevice = Ok deviceOnly) as H
    by (vm_compute; reflexivity).
  assert (liveEntries viewedOnDevice = [mkExistingViewEntry 1 2 None]) as Hlive
    by (vm_compute; reflexivity).
  split; [exact H|].
  destruct (device_refresh_holds_gather viewedOnDevice deviceOnly 1%positive)
    as [Hdev Hall]; [| | | | |exact H|].
  - vm_compute. reflexivity.
  - rewrite Hlive. simpl. apply NoDup_singleton.
  - rewrite Hlive. simpl. apply not_elem_of_cons. split; [done|]. apply not_elem_of_nil.
  - rewrite Hlive. constructor; [|constructor]. by intros p.
  - rewrite Hlive. constructor; [|constructor]. vm_compute. reflexivity.
  - split; [exact Hdev|]. split; [vm_compute; reflexivity|exact Hall].
Defined.

(** Witness of X18: the view of [10,20,30] through [2,0,1], created and
    then found again. *)
Lemma getIndexedRenderAttributeBuffer_handle_alive_witness :
  getIndexedRenderAttributeBuffer noComputeFunc 1%positive scenarioView
    = Ok (1%positive, viewedOnHost)
  ∧ expired viewedOnHost 1%positive = false
  ∧ ∃ v, v ∈ existingIndexedViews (this viewedOnHost) ∧ viewBuffer v = 1%positive.
Proof.
  assert (getIndexedRenderAttributeBuffer noComputeFunc 1%positive scenarioView
          = Ok (1%positive, viewedOnHost)) as H by (vm_compute; reflexivity).
  split; [exact H|].
  exact (getIndexedRenderAttributeBuffer_handle_alive noComputeFunc _ _ _ _ H).
Defined.

(** Witness of X8: scenario A (host array [1,2,3]) and scenario B (compute
    function producing [5,6,7]) right after construction. *)
Lemma constructors_initial_source_witness :
  size scenarioA = Ok (3, scenarioA)
  ∧ size scenarioB = Ok (0, scenarioB)
  ∧ getValue fill567 1 scenarioB
    = Ok (6, mkWorld (mkManagedBuffer "B" 1 [5; 6; 7] true true None []) ∅ 1%positive ∅
               [EvCompute]).
Proof.
  destruct (constructors_initial_source noComputeFunc "A" 3 [1; 2; 3]
              (∅ : gmap loc (list Z)) 1%positive (∅ : gmap addr IndexWorld) [])
    as ((_ & _ & HsizeA & _) & _).
  destruct (constructors_initial_source fill567 "B" 1 []
              (∅ : gmap loc (list Z)) 1%positive (∅ : gmap addr IndexWorld) [])
    as (_ & (_ & _ & HsizeB & _) & Hfirst).
  split; [exact HsizeA|]. split; [exact HsizeB|].
  destruct (Hfirst (λ _, [5; 6; 7]) (λ _, eq_refl)) as (_ & _ & _ & Hget).
  exact (Hget 1 ltac:(lia)).
Defined.

End Scenarios.


